(** * Zotebook input core: touch state, stroke capture, corner detection and
    curve fitting

    A shallow embedding of the TypeScript sources of the Zotebook web port
    ([touch-state.ts], [gesture-recognizer.ts], [stroke-processor.ts],
    [corner-detector.ts], [stroke-to-geometry.ts] and the geometry classes
    they call), followed by the properties of the specification.

    Conventions.
    - A JavaScript [number] is a mathematical real: rounding, overflow,
      underflow, infinities and NaN are not represented.  The properties
      stated of the code therefore rest on what its own comparisons, minima
      and maxima decide and on the structure of its results; an identity
      that holds only in exact arithmetic is not stated of the code, and a
      helper lemma that relies on one says so.  Where the source depends on
      [undefined] flowing into arithmetic (a kernel lookup past the end of
      the kernel), the lookup is an [option] and the NaN it produces is
      followed by hand.
    - Array lengths, array indices, the point cap of a stroke and
      integer-valued window sizes are [nat].
    - A method that can throw returns a [Result]; a method that mutates
      [this] returns the new object next to its result.
    - [Date.now()], [Math.random()] and [performance.now()] are read from an
      explicit [World] or passed as an argument.
    - A callback registered by the caller is recorded as a call, with its
      arguments, in the trace of the method that makes it; it is taken to
      return normally and not to call back into the object.  [console.warn]
      is recorded the same way.
    - The world-position class [Pt] is a parameter of the input classes,
      with its [lerp]; the class itself is embedded in the module [Pt]. *)

From Stdlib Require Import Reals Lra Lia List ZArith Bool Arith String Sorted.
Import ListNotations.
Local Open Scope string_scope.
Local Open Scope list_scope.
Local Open Scope R_scope.

(** * JavaScript primitives *)

Module JS.

Definition number : Type := R.

Definition ltb (a b : R) : bool := if Rlt_dec a b then true else false.
Definition leb (a b : R) : bool := if Rle_dec a b then true else false.
Definition gtb (a b : R) : bool := ltb b a.
Definition geb (a b : R) : bool := leb b a.
Definition eqb (a b : R) : bool := if Req_dec_T a b then true else false.

(** Outcome of a call: a value, a thrown [Error] with its message, or a
    loop that never exits. *)
Inductive Result (A : Type) : Type :=
| Ok (a : A)
| Throw (msg : string)
| Diverges.
Arguments Ok {A} a.
Arguments Throw {A} msg.
Arguments Diverges {A}.

Definition isOk {A} (r : Result A) : bool :=
  match r with Ok _ => true | _ => false end.

Definition isThrow {A} (r : Result A) : bool :=
  match r with Throw _ => true | _ => false end.

Definition bind {A B} (r : Result A) (k : A -> Result B) : Result B :=
  match r with
  | Ok a => k a
  | Throw msg => Throw msg
  | Diverges => Diverges
  end.

(** A [for] loop whose body can throw. *)
Fixpoint foldM {A B} (body : B -> A -> Result B) (xs : list A) (b : B) : Result B :=
  match xs with
  | [] => Ok b
  | x :: rest => bind (body b x) (foldM body rest)
  end.

(** [xs[i].field]: reading a field of [undefined] is a [TypeError]. *)
Definition get {A} (xs : list A) (i : nat) : Result A :=
  match nth_error xs i with
  | Some a => Ok a
  | None => Throw "TypeError: Cannot read properties of undefined"
  end.

(** [Math.max(a, b, c)] *)
Definition Math_max3 (a b c : R) : R := Rmax (Rmax a b) c.

(** [Math.max(...xs)] on a non-empty array (the empty case, [-Infinity],
    is never reached by the callers and is given as [0]). *)
Definition Math_max_list (xs : list R) : R :=
  match xs with
  | [] => 0
  | x :: rest => fold_left Rmax rest x
  end.

(** [Math.sign] *)
Definition Math_sign (a : R) : R :=
  if ltb 0 a then 1 else if ltb a 0 then -1 else 0.

(** [Math.atan2(y, x)] *)
Definition Math_atan2 (y x : R) : R :=
  if ltb 0 x then atan (y / x)
  else if ltb x 0 then (if leb 0 y then atan (y / x) + PI else atan (y / x) - PI)
  else if ltb 0 y then PI / 2
  else if ltb y 0 then - (PI / 2)
  else 0.

(** [Math.ceil] of a real, as a [nat] loop bound (negative gives 0). *)
Definition Math_ceil_nat (a : R) : nat := Z.to_nat (- Int_part (- a)).

(** [xs[i]] for an index known to be in range. *)
Definition at_ {A} (d : A) (xs : list A) (i : nat) : A := nth i xs d.

(** [xs[i] = v] for an index in range. *)
Fixpoint set_at {A} (xs : list A) (i : nat) (v : A) : list A :=
  match xs, i with
  | [], _ => []
  | _ :: rest, O => v :: rest
  | x :: rest, S i' => x :: set_at rest i' v
  end.

(** [xs.slice(from, to)] with [to] exclusive. *)
Definition slice {A} (xs : list A) (from to : nat) : list A :=
  firstn (to - from) (skipn from xs).

(** [xs.slice(-n)] *)
Definition slice_last {A} (xs : list A) (n : nat) : list A :=
  skipn (List.length xs - n) xs.

(** [sum] as the source writes it: [for (x of xs) acc += f(x)]. *)
Definition sum_with {A} (f : A -> R) (xs : list A) : R :=
  fold_left (fun acc x => acc + f x) xs 0.

(** [[...xs].sort((a, b) => a - b)] on numbers. *)
Fixpoint insert_sorted (a : R) (xs : list R) : list R :=
  match xs with
  | [] => [a]
  | x :: rest => if leb a x then a :: xs else x :: insert_sorted a rest
  end.
Definition sort_numbers (xs : list R) : list R :=
  fold_right insert_sorted [] xs.

(** The same on array indices. *)
Fixpoint insert_sorted_nat (a : nat) (xs : list nat) : list nat :=
  match xs with
  | [] => [a]
  | x :: rest => if (a <=? x)%nat then a :: xs else x :: insert_sorted_nat a rest
  end.
Definition sort_indices (xs : list nat) : list nat :=
  fold_right insert_sorted_nat [] xs.

(** [Array.from(new Set(xs))]: first occurrences, in order. *)
Fixpoint unique_acc (seen : list nat) (xs : list nat) : list nat :=
  match xs with
  | [] => []
  | x :: rest =>
      if existsb (Nat.eqb x) seen then unique_acc seen rest
      else x :: unique_acc (x :: seen) rest
  end.
Definition unique (xs : list nat) : list nat := unique_acc [] xs.

(** A [Map<number, V>]: keys are unique and iteration follows insertion
    order; [set] on a present key keeps its place. *)
Definition Map (V : Type) : Type := list (Z * V).

Fixpoint Map_get {V} (m : Map V) (key : Z) : option V :=
  match m with
  | [] => None
  | (k, v) :: rest => if (k =? key)%Z then Some v else Map_get rest key
  end.

Fixpoint Map_set {V} (m : Map V) (key : Z) (value : V) : Map V :=
  match m with
  | [] => [(key, value)]
  | (k, v) :: rest =>
      if (k =? key)%Z then (key, value) :: rest else (k, v) :: Map_set rest key value
  end.

Fixpoint Map_delete {V} (m : Map V) (key : Z) : Map V :=
  match m with
  | [] => []
  | (k, v) :: rest => if (k =? key)%Z then rest else (k, v) :: Map_delete rest key
  end.

Definition Map_size {V} (m : Map V) : nat := List.length m.
Definition Map_values {V} (m : Map V) : list V := map snd m.

(** [Number.EPSILON], [2 ** -52]. *)
Definition Number_EPSILON : R := / 2 ^ 52.

(** [Math.round]: the nearest integer, halves rounded up. *)
Definition Math_round (a : R) : R := IZR (up (a + / 2) - 1).

(** [Math.min(...xs)] on a non-empty array (for the empty one, [Infinity],
    [0] is given). *)
Definition Math_min_list (xs : list R) : R :=
  match xs with
  | [] => 0
  | x :: rest => fold_left Rmin rest x
  end.

End JS.

Export JS.

Notation "x <- c ;; k" := (JS.bind c (fun x => k))
  (at level 61, c at next level, right associativity).
Notation "a <? b" := (JS.ltb a b) : R_scope.
Notation "a <=? b" := (JS.leb a b) : R_scope.
Notation "a >? b" := (JS.gtb a b) : R_scope.
Notation "a >=? b" := (JS.geb a b) : R_scope.
Notation "a =? b" := (JS.eqb a b) : R_scope.

(** * Vec2 ([vec2.ts]) *)

Module Vec2.

Record t : Type := mk { x : R; y : R }.

Definition ZERO : t := mk 0 0.

Definition fromPolar (length angle : R) : t :=
  mk (length * cos angle) (length * sin angle).

Definition lengthSquared (v : t) : R := x v * x v + y v * y v.
Definition length (v : t) : R := sqrt (lengthSquared v).

Definition normalized (v : t) : t :=
  let len := length v in
  if len =? 0 then ZERO else mk (x v / len) (y v / len).

Definition perpendicular (v : t) : t := mk (- y v) (x v).

Definition add (a b : t) : t := mk (x a + x b) (y a + y b).
Definition subtract (a b : t) : t := mk (x a - x b) (y a - y b).
Definition multiply (v : t) (scalar : R) : t := mk (x v * scalar) (y v * scalar).

(** [divide] throws on a zero scalar. *)
Definition divide (v : t) (scalar : R) : Result t :=
  if scalar =? 0 then Throw "Division by zero"
  else Ok (mk (x v / scalar) (y v / scalar)).

Definition dot (a b : t) : R := x a * x b + y a * y b.
Definition cross (a b : t) : R := x a * y b - y a * x b.

Definition distanceTo (a b : t) : R := length (subtract a b).
Definition distanceToSquared (a b : t) : R := lengthSquared (subtract a b).

Definition angleTo (a b : t) : R := Math_atan2 (cross a b) (dot a b).

Definition lerp (a b : t) (s : R) : t :=
  mk (x a + (x b - x a) * s) (y a + (y b - y a) * s).

(** ** The rest of the class *)

Definition ONE : t := mk 1 1.
Definition UNIT_X : t := mk 1 0.
Definition UNIT_Y : t := mk 0 1.

Definition fromAngle (radians : R) : t := mk (cos radians) (sin radians).

Definition angle (v : t) : R := Math_atan2 (y v) (x v).

Definition negate (v : t) : t := mk (- x v) (- y v).

Definition rotateBy (v : t) (radians : R) : t :=
  let cos := cos radians in
  let sin := sin radians in
  mk (x v * cos - y v * sin) (x v * sin + y v * cos).

Definition projectOnto (v direction : t) : t :=
  let normalizedDirection := normalized direction in
  let projectionLength := dot v normalizedDirection in
  multiply normalizedDirection projectionLength.

Definition rejectFrom (v direction : t) : t :=
  subtract v (projectOnto v direction).

Definition reflect (v normal : t) : t :=
  let normalizedNormal := normalized normal in
  subtract v (multiply normalizedNormal (2 * dot v normalizedNormal)).

(** The tolerance defaults ([Number.EPSILON], [1e-6]) are passed by the
    caller. *)
Definition isZero (v : t) (epsilon : R) : bool :=
  (Rabs (x v) <? epsilon) && (Rabs (y v) <? epsilon).

Definition isEqual (v other : t) (epsilon : R) : bool :=
  (Rabs (x v - x other) <? epsilon) && (Rabs (y v - y other) <? epsilon).

Definition isParallel (v other : t) (epsilon : R) : bool :=
  Rabs (cross v other) <? epsilon.

Definition isPerpendicular (v other : t) (epsilon : R) : bool :=
  Rabs (dot v other) <? epsilon.

Definition clampLength (v : t) (maxLength : R) : t :=
  if length v <=? maxLength then v
  else multiply (normalized v) maxLength.

Definition clampComponents (v : t) (min max : R) : t :=
  mk (Rmax min (Rmin max (x v))) (Rmax min (Rmin max (y v))).

Definition toArray (v : t) : list R := [x v; y v].

End Vec2.

Abbreviation Vec2 := Vec2.t.

(** * Mat3 ([mat3.ts]) *)

Module Mat3.

(** Column-major: [m00 m01 m02] is the first column. *)
Record t : Type := mk {
  m00 : R; m01 : R; m02 : R;
  m10 : R; m11 : R; m12 : R;
  m20 : R; m21 : R; m22 : R
}.

Definition IDENTITY : t := mk 1 0 0  0 1 0  0 0 1.
Definition ZERO : t := mk 0 0 0  0 0 0  0 0 0.

Definition fromTransform (a b c d tx ty : R) : t := mk a b 0  c d 0  tx ty 1.

(** [Mat3.translation(x, y)] and [Mat3.translation(vec)] *)
Definition translation (x y : R) : t := mk 1 0 0  0 1 0  x y 1.
Definition translation_vec (vec : Vec2) : t :=
  mk 1 0 0  0 1 0  (Vec2.x vec) (Vec2.y vec) 1.

Definition rotation (radians : R) : t :=
  let cos := cos radians in
  let sin := sin radians in
  mk cos sin 0  (- sin) cos 0  0 0 1.

(** [Mat3.scale(x, y?)] and [Mat3.scale(vec)] *)
Definition scale (x : R) (y : option R) : t :=
  let scaleY := match y with Some y => y | None => x end in
  mk x 0 0  0 scaleY 0  0 0 1.
Definition scale_vec (vec : Vec2) : t :=
  mk (Vec2.x vec) 0 0  0 (Vec2.y vec) 0  0 0 1.

Definition skew (xRadians yRadians : R) : t :=
  mk 1 (tan yRadians) 0  (tan xRadians) 1 0  0 0 1.

Definition determinant (m : t) : R :=
  m00 m * (m11 m * m22 m - m12 m * m21 m)
  - m01 m * (m10 m * m22 m - m12 m * m20 m)
  + m02 m * (m10 m * m21 m - m11 m * m20 m).

(** [get inverse()] throws on a determinant below [Number.EPSILON]. *)
Definition inverse (m : t) : Result t :=
  let det := determinant m in
  if Rabs det <? Number_EPSILON
  then Throw "Matrix is not invertible (determinant is zero)"
  else
    let invDet := 1 / det in
    Ok (mk ((m11 m * m22 m - m12 m * m21 m) * invDet)
           ((m02 m * m21 m - m01 m * m22 m) * invDet)
           ((m01 m * m12 m - m02 m * m11 m) * invDet)
           ((m12 m * m20 m - m10 m * m22 m) * invDet)
           ((m00 m * m22 m - m02 m * m20 m) * invDet)
           ((m02 m * m10 m - m00 m * m12 m) * invDet)
           ((m10 m * m21 m - m11 m * m20 m) * invDet)
           ((m01 m * m20 m - m00 m * m21 m) * invDet)
           ((m00 m * m11 m - m01 m * m10 m) * invDet)).

(** The getters [translation], [scale] and [rotation]. *)
Definition get_translation (m : t) : Vec2 := Vec2.mk (m20 m) (m21 m).

Definition get_scale (m : t) : Vec2 :=
  let scaleX := sqrt (m00 m * m00 m + m01 m * m01 m) in
  let scaleY := sqrt (m10 m * m10 m + m11 m * m11 m) in
  Vec2.mk scaleX scaleY.

Definition get_rotation (m : t) : R := Math_atan2 (m01 m) (m00 m).

Definition multiply (m other : t) : t :=
  mk (m00 m * m00 other + m10 m * m01 other + m20 m * m02 other)
     (m01 m * m00 other + m11 m * m01 other + m21 m * m02 other)
     (m02 m * m00 other + m12 m * m01 other + m22 m * m02 other)
     (m00 m * m10 other + m10 m * m11 other + m20 m * m12 other)
     (m01 m * m10 other + m11 m * m11 other + m21 m * m12 other)
     (m02 m * m10 other + m12 m * m11 other + m22 m * m12 other)
     (m00 m * m20 other + m10 m * m21 other + m20 m * m22 other)
     (m01 m * m20 other + m11 m * m21 other + m21 m * m22 other)
     (m02 m * m20 other + m12 m * m21 other + m22 m * m22 other).

Definition transformPoint (m : t) (point : Vec2) : Vec2 :=
  let w := m02 m * Vec2.x point + m12 m * Vec2.y point + m22 m in
  Vec2.mk ((m00 m * Vec2.x point + m10 m * Vec2.y point + m20 m) / w)
          ((m01 m * Vec2.x point + m11 m * Vec2.y point + m21 m) / w).

Definition transformVector (m : t) (vector : Vec2) : Vec2 :=
  Vec2.mk (m00 m * Vec2.x vector + m10 m * Vec2.y vector)
          (m01 m * Vec2.x vector + m11 m * Vec2.y vector).

Definition translate (m : t) (x y : R) : t := multiply m (translation x y).
Definition translate_vec (m : t) (vec : Vec2) : t := multiply m (translation_vec vec).
Definition rotate (m : t) (radians : R) : t := multiply m (rotation radians).
Definition scaleBy (m : t) (x : R) (y : option R) : t := multiply m (scale x y).
Definition scaleBy_vec (m : t) (vec : Vec2) : t := multiply m (scale_vec vec).

Definition transpose (m : t) : t :=
  mk (m00 m) (m10 m) (m20 m)  (m01 m) (m11 m) (m21 m)  (m02 m) (m12 m) (m22 m).

Definition isEqual (m other : t) (epsilon : R) : bool :=
  (Rabs (m00 m - m00 other) <? epsilon) && (Rabs (m01 m - m01 other) <? epsilon)
  && (Rabs (m02 m - m02 other) <? epsilon) && (Rabs (m10 m - m10 other) <? epsilon)
  && (Rabs (m11 m - m11 other) <? epsilon) && (Rabs (m12 m - m12 other) <? epsilon)
  && (Rabs (m20 m - m20 other) <? epsilon) && (Rabs (m21 m - m21 other) <? epsilon)
  && (Rabs (m22 m - m22 other) <? epsilon).

Definition isIdentity (m : t) (epsilon : R) : bool := isEqual m IDENTITY epsilon.

Definition toArray (m : t) : list R :=
  [m00 m; m01 m; m02 m; m10 m; m11 m; m12 m; m20 m; m21 m; m22 m].

Definition toJSON (m : t) : list R := toArray m.

(** [Mat3.fromJSON(data)] throws unless [data] has nine elements. *)
Definition fromJSON (data : list R) : Result t :=
  match data with
  | [a; b; c; d; e; f; g; h; i] => Ok (mk a b c d e f g h i)
  | _ => Throw "Mat3.fromJSON requires exactly 9 elements"
  end.

End Mat3.


(** * Segments ([segment.ts], [line-segment.ts], [arc-segment.ts]) *)

Module Segment.

Inductive SegmentType : Type := LINE | ARC | CIRCLE | SPLINE | ELLIPSE.

(** The readings [Date.now()] and [Math.random()] give at each call of
    [Segment.generateId], and the number of calls made so far. *)
Record World : Type := mkWorld {
  Date_now : nat -> R;
  Math_random : nat -> R;
  calls : nat
}.

(** The identifier [`segment_${type}_${Date.now()}_${random}`]. *)
Record Id : Type := mkId { id_type : SegmentType; id_time : R; id_random : R }.

Definition generateId (ty : SegmentType) (w : World) : Id * World :=
  (mkId ty (Date_now w (calls w)) (Math_random w (calls w)),
   mkWorld (Date_now w) (Math_random w) (S (calls w))).

(** [Segment.clampParameter] *)
Definition clampParameter (s : R) : R := Rmax 0 (Rmin 1 s).

(** ** LineSegment *)

Record LineSegment : Type := mkLine {
  line_id : Id;
  line_startPoint : Vec2;
  line_endPoint : Vec2
}.

(** [new LineSegment(start, end)]: no id is passed, one is generated. *)
Definition newLineSegment (start end_ : Vec2) (w : World) : LineSegment * World :=
  let (id, w') := generateId LINE w in (mkLine id start end_, w').

Definition line_pointAt (l : LineSegment) (s : R) : Vec2 :=
  Vec2.lerp (line_startPoint l) (line_endPoint l) s.

(** [closestPointTo(point).distance] *)
Definition line_distanceToPoint (l : LineSegment) (point : Vec2) : R :=
  let lineVector := Vec2.subtract (line_endPoint l) (line_startPoint l) in
  let pointVector := Vec2.subtract point (line_startPoint l) in
  if Vec2.lengthSquared lineVector =? 0 then
    Vec2.distanceTo point (line_startPoint l)
  else
    let s := Vec2.dot pointVector lineVector / Vec2.lengthSquared lineVector in
    let clampedT := clampParameter s in
    let closestPoint := line_pointAt l clampedT in
    Vec2.distanceTo point closestPoint.

(** ** ArcSegment *)

Record ArcSegment : Type := mkArc {
  arc_id : Id;
  arc_center : Vec2;
  arc_radius : R;
  arc_startAngle : R;
  arc_sweepAngle : R
}.

(** [while (angle > PI) angle -= 2 PI] and its mirror image.  The loops run
    on a bound computed from the angle, large enough for the guard to fail
    first. *)
Fixpoint subtract_turns (n : nat) (angle : R) : R :=
  match n with
  | O => angle
  | S n' => if angle >? PI then subtract_turns n' (angle - PI * 2) else angle
  end.

Fixpoint add_turns (n : nat) (angle : R) : R :=
  match n with
  | O => angle
  | S n' => if angle <? - PI then add_turns n' (angle + PI * 2) else angle
  end.

Definition turns (angle : R) : nat := Z.to_nat (up (Rabs angle / (PI * 2))).

Definition normalizeAngle (angle : R) : R :=
  let a1 := subtract_turns (turns angle) angle in
  add_turns (turns a1) a1.

(** The constructor: [super] generates the id, then a zero radius throws. *)
Definition newArcSegment (center : Vec2) (radius startAngle sweepAngle : R)
    (w : World) : Result ArcSegment * World :=
  let (id, w') := generateId ARC w in
  let r := Rabs radius in
  if r =? 0 then (Throw "Arc radius cannot be zero", w')
  else (Ok (mkArc id center r (normalizeAngle startAngle) sweepAngle), w').

Definition arc_endAngle (a : ArcSegment) : R :=
  normalizeAngle (arc_startAngle a + arc_sweepAngle a).

Definition arc_startPoint (a : ArcSegment) : Vec2 :=
  Vec2.add (arc_center a) (Vec2.fromPolar (arc_radius a) (arc_startAngle a)).

Definition arc_endPoint (a : ArcSegment) : Vec2 :=
  Vec2.add (arc_center a) (Vec2.fromPolar (arc_radius a) (arc_endAngle a)).

Definition containsAngle (a : ArcSegment) (angle : R) : bool :=
  let normalizedAngle := normalizeAngle angle in
  let startAngle := arc_startAngle a in
  let endAngle := arc_endAngle a in
  if arc_sweepAngle a >? 0 then
    if startAngle <=? endAngle
    then (normalizedAngle >=? startAngle) && (normalizedAngle <=? endAngle)
    else (normalizedAngle >=? startAngle) || (normalizedAngle <=? endAngle)
  else
    if startAngle >=? endAngle
    then (normalizedAngle <=? startAngle) && (normalizedAngle >=? endAngle)
    else (normalizedAngle <=? startAngle) || (normalizedAngle >=? endAngle).

Definition arc_distanceToPoint (a : ArcSegment) (point : Vec2) : R :=
  let centerToPoint := Vec2.subtract point (arc_center a) in
  let distanceToCenter := Vec2.length centerToPoint in
  if distanceToCenter =? 0 then arc_radius a
  else
    let pointAngle := Math_atan2 (Vec2.y centerToPoint) (Vec2.x centerToPoint) in
    if containsAngle a pointAngle then Rabs (distanceToCenter - arc_radius a)
    else
      let distToStart := Vec2.distanceTo point (arc_startPoint a) in
      let distToEnd := Vec2.distanceTo point (arc_endPoint a) in
      Rmin distToStart distToEnd.

Definition findCircleFromThreePoints (p1 p2 p3 : Vec2) : option (Vec2 * R) :=
  let mid1 := Vec2.lerp p1 p2 0.5 in
  let mid2 := Vec2.lerp p2 p3 0.5 in
  let dir1 := Vec2.perpendicular (Vec2.subtract p2 p1) in
  let dir2 := Vec2.perpendicular (Vec2.subtract p3 p2) in
  let det := Vec2.cross dir1 dir2 in
  if Rabs det <? 1e-10 then None
  else
    let diff := Vec2.subtract mid2 mid1 in
    let s := Vec2.cross diff dir2 / det in
    let center := Vec2.add mid1 (Vec2.multiply dir1 s) in
    let radius := Vec2.distanceTo center p1 in
    Some (center, radius).

Definition calculateSweepAngle (startAngle endAngle midAngle : R) : R :=
  let ccwSweep := endAngle - startAngle in
  let cwSweep := ccwSweep - 2 * PI * Math_sign ccwSweep in
  if Rabs ccwSweep <=? PI then ccwSweep else cwSweep.

(** [ArcSegment.fromThreePoints]: [null] for collinear points. *)
Definition fromThreePoints (p1 p2 p3 : Vec2) (w : World)
    : Result (option ArcSegment) * World :=
  match findCircleFromThreePoints p1 p2 p3 with
  | None => (Ok None, w)
  | Some (center, radius) =>
      let angle1 := Math_atan2 (Vec2.y p1 - Vec2.y center) (Vec2.x p1 - Vec2.x center) in
      let angle2 := Math_atan2 (Vec2.y p2 - Vec2.y center) (Vec2.x p2 - Vec2.x center) in
      let angle3 := Math_atan2 (Vec2.y p3 - Vec2.y center) (Vec2.x p3 - Vec2.x center) in
      let sweepAngle := calculateSweepAngle angle1 angle3 angle2 in
      match newArcSegment center radius angle1 sweepAngle w with
      | (Ok a, w') => (Ok (Some a), w')
      | (Throw msg, w') => (Throw msg, w')
      | (Diverges, w') => (Diverges, w')
      end
  end.

(** The [Segment] of a fit result is one of the two concrete classes. *)
Inductive t : Type :=
| Line (l : LineSegment)
| Arc (a : ArcSegment).

Definition id (s : t) : Id :=
  match s with Line l => line_id l | Arc a => arc_id a end.

(** A segment without its identifier: the fitted parameters. *)
Inductive Parameters : Type :=
| LineParameters (startPoint endPoint : Vec2)
| ArcParameters (center : Vec2) (radius startAngle sweepAngle : R).

Definition parameters (s : t) : Parameters :=
  match s with
  | Line l => LineParameters (line_startPoint l) (line_endPoint l)
  | Arc a => ArcParameters (arc_center a) (arc_radius a) (arc_startAngle a) (arc_sweepAngle a)
  end.

(** ** The rest of [segment.ts] *)

Definition isValidParameter (s : R) : bool := (s >=? 0) && (s <=? 1).

Inductive IntersectionType : Type := endpoint | interior | tangent | overlap.

Record SegmentIntersection : Type := mkIntersection {
  ix_point : Vec2;
  ix_t1 : R;
  ix_t2 : option R;
  ix_type : IntersectionType
}.

Record BoundingBox : Type := mkBox {
  bb_min : Vec2;
  bb_max : Vec2;
  bb_center : Vec2;
  bb_size : Vec2
}.

(** [SegmentUtils.createBoundingBox(points)] *)
Definition createBoundingBox (points : list Vec2) : BoundingBox :=
  match points with
  | [] => mkBox Vec2.ZERO Vec2.ZERO Vec2.ZERO Vec2.ZERO
  | first :: _ =>
      let '(minX, minY, maxX, maxY) :=
        fold_left
          (fun (acc : R * R * R * R) point =>
             let '(minX, minY, maxX, maxY) := acc in
             (Rmin minX (Vec2.x point), Rmin minY (Vec2.y point),
              Rmax maxX (Vec2.x point), Rmax maxY (Vec2.y point)))
          points (Vec2.x first, Vec2.y first, Vec2.x first, Vec2.y first) in
      let min := Vec2.mk minX minY in
      let max := Vec2.mk maxX maxY in
      mkBox min max (Vec2.multiply (Vec2.add min max) 0.5) (Vec2.subtract max min)
  end.

Definition expandBoundingBox (box : BoundingBox) (margin : R) : BoundingBox :=
  let marginVec := Vec2.mk margin margin in
  mkBox (Vec2.subtract (bb_min box) marginVec) (Vec2.add (bb_max box) marginVec)
        (bb_center box) (Vec2.add (bb_size box) (Vec2.multiply marginVec 2)).

Definition boundingBoxesIntersect (box1 box2 : BoundingBox) : bool :=
  negb ((Vec2.x (bb_max box1) <? Vec2.x (bb_min box2))
        || (Vec2.x (bb_max box2) <? Vec2.x (bb_min box1))
        || (Vec2.y (bb_max box1) <? Vec2.y (bb_min box2))
        || (Vec2.y (bb_max box2) <? Vec2.y (bb_min box1))).

(** ** The rest of [LineSegment] *)

Definition fromPoints (start end_ : Vec2) (w : World) : LineSegment * World :=
  newLineSegment start end_ w.

Definition fromPointAndDirection (start direction : Vec2) (length : R) (w : World)
    : LineSegment * World :=
  let end_ := Vec2.add start (Vec2.multiply (Vec2.normalized direction) length) in
  newLineSegment start end_ w.

Definition fromPointAndAngle (start : Vec2) (angle length : R) (w : World)
    : LineSegment * World :=
  let direction := Vec2.fromAngle angle in
  fromPointAndDirection start direction length w.

Definition line_direction (l : LineSegment) : Vec2 :=
  Vec2.normalized (Vec2.subtract (line_endPoint l) (line_startPoint l)).

Definition line_normal (l : LineSegment) : Vec2 :=
  Vec2.perpendicular (line_direction l).

Definition line_angle (l : LineSegment) : R := Vec2.angle (line_direction l).

Definition line_midpoint (l : LineSegment) : Vec2 :=
  Vec2.lerp (line_startPoint l) (line_endPoint l) 0.5.

(** [computeLength()] *)
Definition line_length (l : LineSegment) : R :=
  Vec2.distanceTo (line_startPoint l) (line_endPoint l).

Record ClosestPoint : Type := mkClosest {
  cp_point : Vec2;
  cp_t : R;
  cp_distance : R
}.

(** [closestPointTo(point)]: the parameter returned is not clamped. *)
Definition line_closestPointTo (l : LineSegment) (point : Vec2) : ClosestPoint :=
  let lineVector := Vec2.subtract (line_endPoint l) (line_startPoint l) in
  let pointVector := Vec2.subtract point (line_startPoint l) in
  if Vec2.lengthSquared lineVector =? 0 then
    let distance := Vec2.distanceTo point (line_startPoint l) in
    mkClosest (line_startPoint l) 0 distance
  else
    let s := Vec2.dot pointVector lineVector / Vec2.lengthSquared lineVector in
    let clampedT := clampParameter s in
    let closestPoint := line_pointAt l clampedT in
    let distance := Vec2.distanceTo point closestPoint in
    mkClosest closestPoint s distance.

Definition signedDistanceToPoint (l : LineSegment) (point : Vec2) : R :=
  let toPoint := Vec2.subtract point (line_startPoint l) in
  Vec2.cross (line_direction l) toPoint.

Definition isPointOnLine (l : LineSegment) (point : Vec2) (tolerance : R) : bool :=
  Rabs (signedDistanceToPoint l point) <=? tolerance.

Definition isPointOnSegment (l : LineSegment) (point : Vec2) (tolerance : R) : bool :=
  if negb (isPointOnLine l point tolerance) then false
  else
    let s := cp_t (line_closestPointTo l point) in
    (s >=? - tolerance) && (s <=? 1 + tolerance).

Definition projectPointOntoLine (l : LineSegment) (point : Vec2) : R :=
  let lineVector := Vec2.subtract (line_endPoint l) (line_startPoint l) in
  let pointVector := Vec2.subtract point (line_startPoint l) in
  if Vec2.lengthSquared lineVector =? 0 then 0
  else Vec2.dot pointVector lineVector / Vec2.lengthSquared lineVector.

Definition mapParameterToOtherLine (l : LineSegment) (s : R) (other : LineSegment) : R :=
  let pointOnThis := line_pointAt l s in
  projectPointOntoLine other pointOnThis.

Definition handleParallelLines (l other : LineSegment) (tolerance : R)
    : option SegmentIntersection :=
  if negb (isPointOnLine l (line_startPoint other) tolerance) then None
  else
    let thisStart := 0 in
    let thisEnd := 1 in
    let otherStartProj := projectPointOntoLine l (line_startPoint other) in
    let otherEndProj := projectPointOntoLine l (line_endPoint other) in
    let otherStart := Rmin otherStartProj otherEndProj in
    let otherEnd := Rmax otherStartProj otherEndProj in
    let overlapStart := Rmax thisStart otherStart in
    let overlapEnd := Rmin thisEnd otherEnd in
    if overlapStart <=? overlapEnd then
      let overlapMidpoint := (overlapStart + overlapEnd) / 2 in
      Some (mkIntersection (line_pointAt l overlapMidpoint) overlapMidpoint
              (Some (mapParameterToOtherLine l overlapMidpoint other)) overlap)
    else None.

(** [intersectWithLine(other, tolerance)] *)
Definition intersectWithLine (l other : LineSegment) (tolerance : R)
    : option SegmentIntersection :=
  let lineVec1 := Vec2.subtract (line_endPoint l) (line_startPoint l) in
  let lineVec2 := Vec2.subtract (line_endPoint other) (line_startPoint other) in
  let startDiff := Vec2.subtract (line_startPoint other) (line_startPoint l) in
  let cross := Vec2.cross lineVec1 lineVec2 in
  if Rabs cross <? tolerance then handleParallelLines l other tolerance
  else
    let s1 := Vec2.cross startDiff lineVec2 / cross in
    let s2 := Vec2.cross startDiff lineVec1 / cross in
    let intersectionPoint := line_pointAt l s1 in
    let isT1Valid := isValidParameter s1 in
    let isT2Valid := isValidParameter s2 in
    let type :=
      if negb isT1Valid || negb isT2Valid then endpoint
      else
        let isT1Endpoint := (s1 <? tolerance) || (s1 >? 1 - tolerance) in
        let isT2Endpoint := (s2 <? tolerance) || (s2 >? 1 - tolerance) in
        if isT1Endpoint || isT2Endpoint then endpoint else interior in
    Some (mkIntersection intersectionPoint s1 (Some s2) type).

(** [transform(matrix)] and [clone()] pass [this.id] on: no id is generated. *)
Definition line_transform (l : LineSegment) (matrix : Mat3.t) : LineSegment :=
  let newStart := Mat3.transformPoint matrix (line_startPoint l) in
  let newEnd := Mat3.transformPoint matrix (line_endPoint l) in
  mkLine (line_id l) newStart newEnd.

Definition line_clone (l : LineSegment) : LineSegment :=
  mkLine (line_id l) (line_startPoint l) (line_endPoint l).

Definition line_subdivide (l : LineSegment) (s : R) (w : World)
    : (LineSegment * LineSegment) * World :=
  let splitPoint := line_pointAt l s in
  let (segment1, w) := newLineSegment (line_startPoint l) splitPoint w in
  let (segment2, w) := newLineSegment splitPoint (line_endPoint l) w in
  ((segment1, segment2), w).

Definition subdivideAtLength (l : LineSegment) (length : R) (w : World)
    : (LineSegment * LineSegment) * World :=
  let s := length / line_length l in
  line_subdivide l s w.

Definition offset (l : LineSegment) (distance : R) (w : World) : LineSegment * World :=
  let offsetVector := Vec2.multiply (line_normal l) distance in
  newLineSegment (Vec2.add (line_startPoint l) offsetVector)
                 (Vec2.add (line_endPoint l) offsetVector) w.

Definition extendStart (l : LineSegment) (distance : R) (w : World)
    : LineSegment * World :=
  let extendVector := Vec2.multiply (line_direction l) (- distance) in
  newLineSegment (Vec2.add (line_startPoint l) extendVector) (line_endPoint l) w.

Definition extendEnd (l : LineSegment) (distance : R) (w : World)
    : LineSegment * World :=
  let extendVector := Vec2.multiply (line_direction l) distance in
  newLineSegment (line_startPoint l) (Vec2.add (line_endPoint l) extendVector) w.

Definition extend (l : LineSegment) (startDistance endDistance : R) (w : World)
    : LineSegment * World :=
  let (extended, w) := extendStart l startDistance w in
  extendEnd extended endDistance w.

Definition line_reverse (l : LineSegment) (w : World) : LineSegment * World :=
  newLineSegment (line_endPoint l) (line_startPoint l) w.

(** [computeBoundingBox()] *)
Definition line_boundingBox (l : LineSegment) : BoundingBox :=
  createBoundingBox [line_startPoint l; line_endPoint l].

(** [isEqual(other, tolerance)]: either orientation. *)
Definition line_isEqual (l : LineSegment) (other : t) (tolerance : R) : bool :=
  match other with
  | Line other =>
      (Vec2.isEqual (line_startPoint l) (line_startPoint other) tolerance
       && Vec2.isEqual (line_endPoint l) (line_endPoint other) tolerance)
      || (Vec2.isEqual (line_startPoint l) (line_endPoint other) tolerance
          && Vec2.isEqual (line_endPoint l) (line_startPoint other) tolerance)
  | _ => false
  end.

Definition isHorizontal (l : LineSegment) (tolerance : R) : bool :=
  Rabs (Vec2.y (line_endPoint l) - Vec2.y (line_startPoint l)) <=? tolerance.

Definition isVertical (l : LineSegment) (tolerance : R) : bool :=
  Rabs (Vec2.x (line_endPoint l) - Vec2.x (line_startPoint l)) <=? tolerance.

Definition isParallelTo (l other : LineSegment) (tolerance : R) : bool :=
  Vec2.isParallel (line_direction l) (line_direction other) tolerance.

Definition isPerpendicularTo (l other : LineSegment) (tolerance : R) : bool :=
  Vec2.isPerpendicular (line_direction l) (line_direction other) tolerance.

(** ** [LineSegmentUtils] *)

Definition createHorizontalLine (y x1 x2 : R) (w : World) : LineSegment * World :=
  newLineSegment (Vec2.mk x1 y) (Vec2.mk x2 y) w.

Definition createVerticalLine (x y1 y2 : R) (w : World) : LineSegment * World :=
  newLineSegment (Vec2.mk x y1) (Vec2.mk x y2) w.

Definition findBestFitLine (points : list Vec2) (w : World)
    : option LineSegment * World :=
  if (List.length points <? 2)%nat then (None, w)
  else
    let n := INR (List.length points) in
    let '(sumX, sumY, sumXY, sumXX) :=
      fold_left
        (fun (acc : R * R * R * R) point =>
           let '(sumX, sumY, sumXY, sumXX) := acc in
           (sumX + Vec2.x point, sumY + Vec2.y point,
            sumXY + Vec2.x point * Vec2.y point,
            sumXX + Vec2.x point * Vec2.x point))
        points (0, 0, 0, 0) in
    let meanX := sumX / n in
    let meanY := sumY / n in
    let denominator := sumXX - n * meanX * meanX in
    if Rabs denominator <? 1e-10 then
      let x := meanX in
      let minY := Math_min_list (map Vec2.y points) in
      let maxY := Math_max_list (map Vec2.y points) in
      let (line, w) := createVerticalLine x minY maxY w in (Some line, w)
    else
      let slope := (sumXY - n * meanX * meanY) / denominator in
      let intercept := meanY - slope * meanX in
      let xMin := Math_min_list (map Vec2.x points) in
      let xMax := Math_max_list (map Vec2.x points) in
      let start := Vec2.mk xMin (slope * xMin + intercept) in
      let end_ := Vec2.mk xMax (slope * xMax + intercept) in
      let (line, w) := newLineSegment start end_ w in (Some line, w).

(** [connectPoints(points)]: one segment per pair of neighbours. *)
Fixpoint connectPoints (points : list Vec2) (w : World) : list LineSegment * World :=
  match points with
  | a :: (b :: _) as rest =>
      let (segment, w) := newLineSegment a b w in
      let (segments, w) := connectPoints rest w in
      (segment :: segments, w)
  | _ => ([], w)
  end.

(** ** The rest of [ArcSegment] *)

(** [new ArcSegment(center, radius, startAngle, sweepAngle, id)] with the id
    given. *)
Definition newArcSegmentWithId (center : Vec2) (radius startAngle sweepAngle : R)
    (id : Id) : Result ArcSegment :=
  let r := Rabs radius in
  if r =? 0 then Throw "Arc radius cannot be zero"
  else Ok (mkArc id center r (normalizeAngle startAngle) sweepAngle).

Definition arc_angleAt (a : ArcSegment) (s : R) : R :=
  arc_startAngle a + arc_sweepAngle a * s.

Definition arc_pointAt (a : ArcSegment) (s : R) : Vec2 :=
  let angle := arc_startAngle a + arc_sweepAngle a * s in
  Vec2.add (arc_center a) (Vec2.fromPolar (arc_radius a) angle).

Definition arc_tangentAt (a : ArcSegment) (s : R) : Vec2 :=
  let angle := arc_startAngle a + arc_sweepAngle a * s in
  let tangentAngle := angle + (if arc_sweepAngle a >? 0 then PI / 2 else - PI / 2) in
  Vec2.fromAngle tangentAngle.

Definition arc_normalAt (a : ArcSegment) (s : R) : Vec2 :=
  let angle := arc_startAngle a + arc_sweepAngle a * s in
  let normalAngle := angle + (if arc_sweepAngle a >? 0 then 0 else PI) in
  Vec2.fromAngle normalAngle.

Definition arc_curvatureAt (a : ArcSegment) (s : R) : R := 1 / arc_radius a.

Definition arc_isClosed (a : ArcSegment) : bool :=
  Rabs (Rabs (arc_sweepAngle a) - PI * 2) <? 1e-6.

Definition arc_isClockwise (a : ArcSegment) : bool := arc_sweepAngle a <? 0.

Definition arc_midpoint (a : ArcSegment) : Vec2 := arc_pointAt a 0.5.

(** [computeLength()] *)
Definition arc_length (a : ArcSegment) : R := arc_radius a * Rabs (arc_sweepAngle a).

(** [subdivide(t)]: two constructor calls, the second not reached if the first
    throws. *)
Definition arc_subdivide (a : ArcSegment) (s : R) (w : World)
    : Result (ArcSegment * ArcSegment) * World :=
  let splitAngle := arc_startAngle a + arc_sweepAngle a * s in
  match newArcSegment (arc_center a) (arc_radius a) (arc_startAngle a)
                      (arc_sweepAngle a * s) w with
  | (Ok arc1, w) =>
      match newArcSegment (arc_center a) (arc_radius a) splitAngle
                          (arc_sweepAngle a * (1 - s)) w with
      | (Ok arc2, w) => (Ok (arc1, arc2), w)
      | (Throw msg, w) => (Throw msg, w)
      | (Diverges, w) => (Diverges, w)
      end
  | (Throw msg, w) => (Throw msg, w)
  | (Diverges, w) => (Diverges, w)
  end.

Definition arc_clone (a : ArcSegment) : Result ArcSegment :=
  newArcSegmentWithId (arc_center a) (arc_radius a) (arc_startAngle a)
                      (arc_sweepAngle a) (arc_id a).

Definition arc_reverse (a : ArcSegment) (w : World) : Result ArcSegment * World :=
  newArcSegment (arc_center a) (arc_radius a) (arc_endAngle a) (- arc_sweepAngle a) w.

(** [transform(matrix)] throws on a non-uniform scale. *)
Definition arc_transform (a : ArcSegment) (matrix : Mat3.t) : Result ArcSegment :=
  let scale := Mat3.get_scale matrix in
  if Rabs (Vec2.x scale - Vec2.y scale) >? 1e-6 then
    Throw "Non-uniform scaling of arcs not supported - would create ellipse"
  else
    let newCenter := Mat3.transformPoint matrix (arc_center a) in
    let newRadius := arc_radius a * Rabs (Vec2.x scale) in
    let rotation := Mat3.get_rotation matrix in
    let newStartAngle := arc_startAngle a + rotation in
    newArcSegmentWithId newCenter newRadius newStartAngle (arc_sweepAngle a) (arc_id a).

(** [computeBoundingBox()] *)
Definition arc_boundingBox (a : ArcSegment) : BoundingBox :=
  let points :=
    if arc_isClosed a then
      [Vec2.add (arc_center a) (Vec2.mk (- arc_radius a) (- arc_radius a));
       Vec2.add (arc_center a) (Vec2.mk (arc_radius a) (arc_radius a))]
    else
      [arc_startPoint a; arc_endPoint a]
      ++ flat_map
           (fun angle =>
              if containsAngle a angle
              then [Vec2.add (arc_center a) (Vec2.fromPolar (arc_radius a) angle)]
              else [])
           [0; PI / 2; PI; - PI / 2] in
  createBoundingBox points.

Definition arc_isEqual (a : ArcSegment) (other : t) (tolerance : R) : bool :=
  match other with
  | Arc other =>
      Vec2.isEqual (arc_center a) (arc_center other) tolerance
      && (Rabs (arc_radius a - arc_radius other) <=? tolerance)
      && (Rabs (arc_startAngle a - arc_startAngle other) <=? tolerance)
      && (Rabs (arc_sweepAngle a - arc_sweepAngle other) <=? tolerance)
  | _ => false
  end.

(** ** [ArcSegmentUtils] *)

Definition createFullCircle (center : Vec2) (radius : R) (w : World)
    : Result ArcSegment * World :=
  newArcSegment center radius 0 (PI * 2) w.

Definition createSemiCircle (center : Vec2) (radius startAngle : R) (w : World)
    : Result ArcSegment * World :=
  newArcSegment center radius startAngle PI w.

Definition createQuarterCircle (center : Vec2) (radius startAngle : R) (w : World)
    : Result ArcSegment * World :=
  newArcSegment center radius startAngle (PI / 2) w.

End Segment.

(** * Corner detector ([corner-detector.ts]) *)

Module CornerDetector.

Inductive SegmentKind : Type := line | curve.

Record SegmentInfo : Type := mkSegmentInfo {
  startIndex : nat;
  endIndex : nat;
  type : SegmentKind;
  quality : R
}.

Record CornerDetectionResult : Type := mkResult {
  cornerIndices : list nat;
  curvatures : list R;
  confidence : list R;
  segments : list SegmentInfo
}.

Record CornerDetectionOptions : Type := mkOptions {
  curvatureThreshold : R;
  minSegmentLength : R;
  smoothingWindow : nat;
  confidenceThreshold : R;
  adaptiveThreshold : bool;
  filterNearbyCorners : bool
}.

(** [Partial<CornerDetectionOptions>] *)
Record PartialOptions : Type := mkPartial {
  curvatureThreshold' : option R;
  minSegmentLength' : option R;
  smoothingWindow' : option nat;
  confidenceThreshold' : option R;
  adaptiveThreshold' : option bool;
  filterNearbyCorners' : option bool
}.

Definition noOptions : PartialOptions := mkPartial None None None None None None.

Definition DEFAULT_CORNER_OPTIONS : CornerDetectionOptions :=
  mkOptions 0.8 15 5 0.6 true true.

(** [{ ...base, ...given }] *)
Definition merge (base : CornerDetectionOptions) (given : PartialOptions)
    : CornerDetectionOptions :=
  mkOptions
    (match curvatureThreshold' given with Some v => v | None => curvatureThreshold base end)
    (match minSegmentLength' given with Some v => v | None => minSegmentLength base end)
    (match smoothingWindow' given with Some v => v | None => smoothingWindow base end)
    (match confidenceThreshold' given with Some v => v | None => confidenceThreshold base end)
    (match adaptiveThreshold' given with Some v => v | None => adaptiveThreshold base end)
    (match filterNearbyCorners' given with Some v => v | None => filterNearbyCorners base end).

(** The object: its only field is [options]. *)
Record CornerDetector : Type := mkDetector { options : CornerDetectionOptions }.

Definition new (given : PartialOptions) : CornerDetector :=
  mkDetector (merge DEFAULT_CORNER_OPTIONS given).

Definition updateOptions (d : CornerDetector) (newOptions : PartialOptions)
    : CornerDetector :=
  mkDetector (merge (options d) newOptions).

Definition pt (points : list Vec2) (i : nat) : Vec2 := at_ Vec2.ZERO points i.
Definition num (xs : list R) (i : nat) : R := at_ 0 xs i.

Definition calculateCircumcircleCurvature (p1 p2 p3 : Vec2) : R :=
  let a := Vec2.distanceTo p2 p3 in
  let b := Vec2.distanceTo p1 p3 in
  let c := Vec2.distanceTo p1 p2 in
  let crossProduct := Vec2.cross (Vec2.subtract p2 p1) (Vec2.subtract p3 p1) in
  let area := Rabs crossProduct / 2 in
  if (area <? 1e-10) || (a * b * c <? 1e-10) then 0
  else (4 * area) / (a * b * c).

Definition calculateCurvatures (o : CornerDetectionOptions) (points : list Vec2)
    : list R :=
  let n := List.length points in
  let windowSize := smoothingWindow o in
  map (fun i =>
         if (i <? windowSize)%nat || (n - windowSize <=? i)%nat then 0
         else calculateCircumcircleCurvature
                (pt points (i - windowSize)) (pt points i) (pt points (i + windowSize)))
      (seq 0 n).

Definition calculateAngleCurvature (points : list Vec2) (index windowSize : nat) : R :=
  if (index <? windowSize)%nat || (List.length points - windowSize <=? index)%nat then 0
  else
    let p1 := pt points (index - windowSize) in
    let p2 := pt points index in
    let p3 := pt points (index + windowSize) in
    let v1 := Vec2.normalized (Vec2.subtract p2 p1) in
    let v2 := Vec2.normalized (Vec2.subtract p3 p2) in
    let dot := Rmax (-1) (Rmin 1 (Vec2.dot v1 v2)) in
    let angle := acos dot in
    PI - angle.

Definition createGaussianKernel (size : nat) : list R :=
  let sigma := INR size / 6 in
  let center := (size / 2)%nat in
  let kernel :=
    map (fun i => let x := INR i - INR center in
                  exp (- (x * x) / (2 * sigma * sigma)))
        (seq 0 size) in
  let sum := fold_left Rplus kernel 0 in
  map (fun k => k / sum) kernel.

(** One step of the inner loop of [smoothCurvatures].  [kernel[j +
    halfWindow]] is [undefined] past the end of the kernel (an even or zero
    window); both sums are then NaN, written [None]. *)
Definition smoothTap (curvatures kernel : list R) (i halfWindow : nat)
    (acc : option (R * R)) (k : nat) : option (R * R) :=
  match acc, nth_error kernel k with
  | Some (sum, weightSum), Some weight =>
      Some (sum + num curvatures (i - halfWindow + k) * weight, weightSum + weight)
  | _, _ => None
  end.

Definition smoothAt (curvatures kernel : list R) (halfWindow i : nat) : R :=
  match fold_left (smoothTap curvatures kernel i halfWindow)
                  (seq 0 (2 * halfWindow + 1)) (Some (0, 0)) with
  | Some (sum, weightSum) =>
      if weightSum >? 0 then sum / weightSum else num curvatures i
  | None => num curvatures i
  end.

Definition smoothCurvatures (o : CornerDetectionOptions) (curvatures : list R)
    : list R :=
  if (List.length curvatures <? 3)%nat then curvatures
  else
    let kernel := createGaussianKernel (smoothingWindow o) in
    let halfWindow := (smoothingWindow o / 2)%nat in
    map (fun i =>
           if (halfWindow <=? i)%nat && (i <? List.length curvatures - halfWindow)%nat
           then smoothAt curvatures kernel halfWindow i
           else num curvatures i)
        (seq 0 (List.length curvatures)).

Definition calculateAdaptiveThreshold (o : CornerDetectionOptions)
    (curvatures : list R) : R :=
  match curvatures with
  | [] => curvatureThreshold o
  | _ =>
      let sortedCurvatures := sort_numbers curvatures in
      let n := List.length sortedCurvatures in
      let median := num sortedCurvatures (n / 2) in
      let q75 := num sortedCurvatures (n * 3 / 4) in
      let max := num sortedCurvatures (n - 1) in
      Math_max3 (median + (q75 - median) * 2) (max * 0.3) (curvatureThreshold o)
  end.

Definition isValidCornerPosition (o : CornerDetectionOptions) (points : list Vec2)
    (existingCorners : list nat) (candidateIndex : nat) : bool :=
  let minDistance := minSegmentLength o in
  forallb (fun cornerIndex =>
             negb (Vec2.distanceTo (pt points candidateIndex) (pt points cornerIndex)
                   <? minDistance))
          existingCorners.

Definition findCornerCandidates (o : CornerDetectionOptions) (points : list Vec2)
    (curvatures : list R) : list nat :=
  let threshold :=
    if adaptiveThreshold o then calculateAdaptiveThreshold o curvatures
    else curvatureThreshold o in
  fold_left
    (fun candidates i =>
       let curvature := num curvatures i in
       if (curvature >? threshold)
          && (curvature >? num curvatures (i - 1))
          && (curvature >? num curvatures (i + 1))
          && isValidCornerPosition o points candidates i
       then candidates ++ [i] else candidates)
    (seq 1 (List.length curvatures - 2)) [].

(** [filterNearbyCorners(points, corners)] *)
Definition filterNearby (o : CornerDetectionOptions) (points : list Vec2)
    (corners : list nat) : list nat :=
  match corners with
  | [] => corners
  | first :: rest =>
      let minDistance := minSegmentLength o in
      fold_left
        (fun filtered currentCorner =>
           let keepCorner :=
             forallb (fun acceptedCorner =>
                        negb (Vec2.distanceTo (pt points currentCorner)
                                              (pt points acceptedCorner)
                              <? minDistance))
                     filtered in
           if keepCorner then filtered ++ [currentCorner] else filtered)
        rest [first]
  end.

Definition refineCornerPosition (points : list Vec2) (initialIndex : nat) : nat :=
  let searchRadius := 3%nat in
  let n := List.length points in
  let start := (initialIndex - searchRadius)%nat in
  let end_ := Nat.min (n - 1) (initialIndex + searchRadius) in
  fst (fold_left
         (fun (best : nat * R) i =>
            let curvature :=
              calculateCircumcircleCurvature
                (pt points (i - 2)) (pt points i) (pt points (Nat.min (n - 1) (i + 2))) in
            if curvature >? snd best then (i, curvature) else best)
         (seq start (S end_ - start)) (initialIndex, 0)).

Definition refineCorners (o : CornerDetectionOptions) (points : list Vec2)
    (candidates : list nat) : list nat :=
  let refined :=
    if filterNearbyCorners o then filterNearby o points candidates else candidates in
  let refined := map (refineCornerPosition points) refined in
  sort_indices (unique refined).

Definition calculateCornerConfidence (points : list Vec2) (curvatures : list R)
    (cornerIndex : nat) : R :=
  if (List.length curvatures <=? cornerIndex)%nat then 0
  else
    let curvature := num curvatures cornerIndex in
    let maxCurvature := Math_max_list curvatures in
    let curvatureScore := if maxCurvature >? 0 then curvature / maxCurvature else 0 in
    let confidence := 1 * curvatureScore in
    let windowSize := 5%nat in
    let lo := (cornerIndex - windowSize)%nat in
    let hi := Nat.min (List.length curvatures - 1) (cornerIndex + windowSize) in
    let '(localAvg, count) :=
      fold_left
        (fun (acc : R * R) i =>
           if (i =? cornerIndex)%nat then acc
           else (fst acc + num curvatures i, snd acc + 1))
        (seq lo (S hi - lo)) (curvature, 1) in
    let localAvg := localAvg / count in
    let prominenceScore := if localAvg >? 0 then curvature / localAvg else 1 in
    let confidence := confidence * Rmin 1 (prominenceScore / 2) in
    let angleCurvature := calculateAngleCurvature points cornerIndex 2 in
    let consistencyScore :=
      Rmin curvature angleCurvature / Math_max3 curvature angleCurvature 1e-10 in
    let confidence := confidence * consistencyScore in
    Rmax 0 (Rmin 1 confidence).

Definition calculateConfidenceScores (points : list Vec2) (curvatures : list R)
    (corners : list nat) : list R :=
  map (calculateCornerConfidence points curvatures) corners.

Definition pointToLineDistance (point lineStart lineEnd : Vec2) : R :=
  let lineVector := Vec2.subtract lineEnd lineStart in
  let pointVector := Vec2.subtract point lineStart in
  if Vec2.lengthSquared lineVector <? 1e-10 then Vec2.length pointVector
  else Rabs (Vec2.cross pointVector lineVector) / Vec2.length lineVector.

Definition calculateLinearityScore (points : list Vec2) (startIndex endIndex : nat) : R :=
  if (endIndex <=? startIndex + 1)%nat then 1
  else
    let startPoint := pt points startIndex in
    let endPoint := pt points endIndex in
    let totalDistance := Vec2.distanceTo startPoint endPoint in
    if totalDistance <? 1e-6 then 1
    else
      let maxDeviation :=
        fold_left
          (fun maxDeviation i =>
             Rmax maxDeviation (pointToLineDistance (pt points i) startPoint endPoint))
          (seq (startIndex + 1) (endIndex - (startIndex + 1))) 0 in
      let deviationRatio := maxDeviation / totalDistance in
      Rmax 0 (1 - deviationRatio * 10).

Definition analyzeSegment (points : list Vec2) (startIndex endIndex : nat) : SegmentInfo :=
  if (endIndex <=? startIndex + 1)%nat then mkSegmentInfo startIndex endIndex line 1
  else
    let linearityScore := calculateLinearityScore points startIndex endIndex in
    let isLine := linearityScore >? 0.8 in
    mkSegmentInfo startIndex endIndex
      (if isLine then line else curve)
      (if isLine then linearityScore else 1 - linearityScore).

Definition generateSegments (points : list Vec2) (corners : list nat)
    : list SegmentInfo :=
  let '(segments, lastIndex) :=
    fold_left
      (fun (acc : list SegmentInfo * nat) cornerIndex =>
         let (segments, lastIndex) := acc in
         if (lastIndex <? cornerIndex)%nat
         then (segments ++ [analyzeSegment points lastIndex cornerIndex], cornerIndex)
         else (segments, cornerIndex))
      corners ([], 0%nat) in
  if (lastIndex <? List.length points - 1)%nat
  then segments ++ [analyzeSegment points lastIndex (List.length points - 1)]
  else segments.

(** [detectCorners(points)]: reads [this.options] and nothing else. *)
Definition detectCorners (d : CornerDetector) (points : list Vec2)
    : CornerDetectionResult :=
  if (List.length points <? 3)%nat then
    mkResult [] [] []
      (if (2 <=? List.length points)%nat
       then [mkSegmentInfo 0 (List.length points - 1) line 1]
       else [])
  else
    let curvatures := calculateCurvatures (options d) points in
    let smoothedCurvatures := smoothCurvatures (options d) curvatures in
    let candidates := findCornerCandidates (options d) points smoothedCurvatures in
    let refinedCorners := refineCorners (options d) points candidates in
    let confidenceScores :=
      calculateConfidenceScores points smoothedCurvatures refinedCorners in
    let segments := generateSegments points refinedCorners in
    mkResult refinedCorners smoothedCurvatures confidenceScores segments.

(** Runs that tile the index range from [from] to [to]: each starts where the
    one before it ended and ends later than it starts. *)
Fixpoint tiles (from to : nat) (runs : list SegmentInfo) : Prop :=
  match runs with
  | [] => from = to
  | run :: rest =>
      startIndex run = from /\ (from < endIndex run)%nat /\ tiles (endIndex run) to rest
  end.

End CornerDetector.

(** * Stroke processor ([stroke-processor.ts]) *)

Module StrokeProcessor.

Record StrokeProcessingOptions : Type := mkOptions {
  targetSpacing : R;
  smoothingFactor : R;
  minCornerAngle : R;
  velocityWindowSize : nat;
  pressureSensitivity : R;
  enableRealTimeSmoothing : bool;
  maxPointsPerStroke : nat
}.

(** [Partial<StrokeProcessingOptions>] *)
Record PartialOptions : Type := mkPartial {
  targetSpacing' : option R;
  smoothingFactor' : option R;
  minCornerAngle' : option R;
  velocityWindowSize' : option nat;
  pressureSensitivity' : option R;
  enableRealTimeSmoothing' : option bool;
  maxPointsPerStroke' : option nat
}.

Definition noOptions : PartialOptions :=
  mkPartial None None None None None None None.

Definition DEFAULT_PROCESSING_OPTIONS : StrokeProcessingOptions :=
  mkOptions 2 0.3 (PI / 6) 3 0.5 true 2000.

Definition merge (base : StrokeProcessingOptions) (given : PartialOptions)
    : StrokeProcessingOptions :=
  mkOptions
    (match targetSpacing' given with Some v => v | None => targetSpacing base end)
    (match smoothingFactor' given with Some v => v | None => smoothingFactor base end)
    (match minCornerAngle' given with Some v => v | None => minCornerAngle base end)
    (match velocityWindowSize' given with Some v => v | None => velocityWindowSize base end)
    (match pressureSensitivity' given with Some v => v | None => pressureSensitivity base end)
    (match enableRealTimeSmoothing' given with Some v => v | None => enableRealTimeSmoothing base end)
    (match maxPointsPerStroke' given with Some v => v | None => maxPointsPerStroke base end).

(** [`Stroke point limit reached (${limit}). Point dropped.`] *)
Inductive Warning : Type := PointLimitReached (limit : nat).

(** The identifier [`stroke_${++counter}_${Date.now()}`]. *)
Record StrokeId : Type := mkStrokeId { id_counter : nat; id_time : R }.

Record BoundingBox : Type := mkBox { box_min : Vec2; box_max : Vec2; box_size : Vec2 }.

Section WithPt.

(** [Pt] ([pt.ts]) is not among the sources: the type of world positions and
    its [lerp] are parameters. *)
Context {Pt : Type}.
Variable Pt_lerp : Pt -> Pt -> R -> Pt.

Record StrokePoint : Type := mkPoint {
  position : Vec2;
  worldPosition : Pt;
  timestamp : R;
  pressure : R;
  tiltX : R;
  tiltY : R;
  velocity : Vec2
}.

Record RawStroke : Type := mkRaw {
  id : StrokeId;
  points : list StrokePoint;
  startTime : R;
  endTime : R;
  boundingBox : BoundingBox;
  totalLength : R;
  averageVelocity : Vec2;
  maxVelocity : R;
  averagePressure : R
}.

Record ProcessedStroke : Type := mkProcessed {
  raw : RawStroke;
  smoothedPoints : list StrokePoint;
  resampledPoints : list StrokePoint;
  cornerIndices : list nat;
  qualityScore : R
}.

Record ActiveStroke : Type := mkActive {
  active_id : StrokeId;
  active_points : list StrokePoint;
  active_startTime : R;
  lastProcessedIndex : nat
}.

(** The object. *)
Record StrokeProcessor : Type := mkProcessor {
  options : StrokeProcessingOptions;
  activeStroke : option ActiveStroke;
  pointPool : list StrokePoint;
  strokeIdCounter : nat
}.

Definition new (given : PartialOptions) : StrokeProcessor :=
  mkProcessor (merge DEFAULT_PROCESSING_OPTIONS given) None [] 0.

Definition updateOptions (sp : StrokeProcessor) (newOptions : PartialOptions)
    : StrokeProcessor :=
  mkProcessor (merge (options sp) newOptions) (activeStroke sp) (pointPool sp)
              (strokeIdCounter sp).

(** [startStroke(initialPoint)]; [Date_now] is the reading of [Date.now()]
    inside [generateStrokeId]. *)
Definition startStroke (sp : StrokeProcessor) (initialPoint : StrokePoint)
    (Date_now : R) : StrokeId * StrokeProcessor :=
  let counter := S (strokeIdCounter sp) in
  let strokeId := mkStrokeId counter Date_now in
  (strokeId,
   mkProcessor (options sp)
     (Some (mkActive strokeId [initialPoint] (timestamp initialPoint) 0))
     (pointPool sp) counter).

Definition calculateVelocity (o : StrokeProcessingOptions) (newPoint : StrokePoint)
    (existingPoints : list StrokePoint) : Result Vec2 :=
  let windowSize := Nat.min (velocityWindowSize o) (List.length existingPoints) in
  if (windowSize =? 0)%nat then Ok Vec2.ZERO
  else
    let recentPoints := slice_last existingPoints windowSize in
    oldestPoint <- get recentPoints 0 ;;
    let timeDelta := timestamp newPoint - timestamp oldestPoint in
    if timeDelta <=? 0 then Ok Vec2.ZERO
    else
      let positionDelta := Vec2.subtract (position newPoint) (position oldestPoint) in
      Vec2.divide positionDelta (timeDelta / 1000).

Definition smoothPointAtIndex (o : StrokeProcessingOptions)
    (points : list StrokePoint) (index : nat) : Result StrokePoint :=
  let windowSize := 2%nat in
  let start := (index - windowSize)%nat in
  let end_ := Nat.min (List.length points - 1) (index + windowSize) in
  sums <- foldM
    (fun (acc : Vec2 * R * R) i =>
       let '(sumPosition, sumPressure, count) := acc in
       p <- get points i ;;
       let weight := 1 - Rabs (INR i - INR index) / (INR windowSize + 1) in
       Ok (Vec2.add sumPosition (Vec2.multiply (position p) weight),
           sumPressure + pressure p * weight,
           count + weight))
    (seq start (S end_ - start)) (Vec2.ZERO, 0, 0) ;;
  let '(sumPosition, sumPressure, count) := sums in
  originalPoint <- get points index ;;
  if count =? 0 then Ok originalPoint
  else
    smoothedPosition <- Vec2.divide sumPosition count ;;
    let smoothedPressure := sumPressure / count in
    let factor := smoothingFactor o in
    let blendedPosition := Vec2.lerp (position originalPoint) smoothedPosition factor in
    let blendedPressure :=
      pressure originalPoint * (1 - factor) + smoothedPressure * factor in
    Ok (mkPoint blendedPosition (worldPosition originalPoint) (timestamp originalPoint)
          blendedPressure (tiltX originalPoint) (tiltY originalPoint)
          (velocity originalPoint)).

(** The loop of [applyRealTimeSmoothing]: [points[i] = smoothPointAtIndex(points, i)]
    in place; a throw leaves the points smoothed so far. *)
Fixpoint smoothRange (o : StrokeProcessingOptions) (indices : list nat)
    (points : list StrokePoint) : Result unit * list StrokePoint :=
  match indices with
  | [] => (Ok tt, points)
  | i :: rest =>
      match smoothPointAtIndex o points i with
      | Ok smoothedPoint => smoothRange o rest (set_at points i smoothedPoint)
      | Throw msg => (Throw msg, points)
      | Diverges => (Diverges, points)
      end
  end.

(** [applyRealTimeSmoothing()] on the active stroke. *)
Definition applyRealTimeSmoothing (o : StrokeProcessingOptions) (a : ActiveStroke)
    : Result unit * ActiveStroke :=
  if (List.length (active_points a) <? 3)%nat then (Ok tt, a)
  else
    let lastIndex := (List.length (active_points a) - 1)%nat in
    let smoothingRadius := 2%nat in
    let startIndex := Nat.max (lastProcessedIndex a) smoothingRadius in
    let endIndex := Nat.max (lastIndex - smoothingRadius) startIndex in
    match smoothRange o (seq startIndex (S endIndex - startIndex)) (active_points a) with
    | (Ok _, points) =>
        (Ok tt, mkActive (active_id a) points (active_startTime a) endIndex)
    | (failure, points) =>
        (failure, mkActive (active_id a) points (active_startTime a) (lastProcessedIndex a))
    end.

(** What a method leaves behind: its outcome, what it wrote with
    [console.warn], and the object afterwards. *)
Record Call (A : Type) : Type := mkCall {
  outcome : Result A;
  warnings : list Warning;
  after : StrokeProcessor
}.
Arguments mkCall {A}.
Arguments outcome {A}.
Arguments warnings {A}.
Arguments after {A}.

(** [addPoint(point)] *)
Definition addPoint (sp : StrokeProcessor) (point : StrokePoint) : Call unit :=
  match activeStroke sp with
  | None => mkCall (Throw "No active stroke. Call startStroke() first.") [] sp
  | Some a =>
      if (maxPointsPerStroke (options sp) <=? List.length (active_points a))%nat then
        mkCall (Ok tt) [PointLimitReached (maxPointsPerStroke (options sp))] sp
      else
        match
          (if (0 <? List.length (active_points a))%nat
           then calculateVelocity (options sp) point (active_points a)
           else Ok Vec2.ZERO)
        with
        | Ok velocity =>
            let enhancedPoint :=
              mkPoint (position point) (worldPosition point) (timestamp point)
                      (pressure point) (tiltX point) (tiltY point) velocity in
            let pushed :=
              mkActive (active_id a) (active_points a ++ [enhancedPoint])
                       (active_startTime a) (lastProcessedIndex a) in
            let with_ (a' : ActiveStroke) :=
              mkProcessor (options sp) (Some a') (pointPool sp) (strokeIdCounter sp) in
            if enableRealTimeSmoothing (options sp) then
              let (result, smoothed) := applyRealTimeSmoothing (options sp) pushed in
              mkCall result [] (with_ smoothed)
            else mkCall (Ok tt) [] (with_ pushed)
        | Throw msg => mkCall (Throw msg) [] sp
        | Diverges => mkCall Diverges [] sp
        end
  end.

(** [recyclePoints(points)] *)
Definition recyclePoints (pool points : list StrokePoint) : list StrokePoint :=
  let pool := pool ++ points in
  if (1000 <? List.length pool)%nat then firstn 500 pool else pool.

(** ** Finishing a stroke *)

Definition calculateBoundingBox (points : list StrokePoint) : BoundingBox :=
  match points with
  | [] => mkBox Vec2.ZERO Vec2.ZERO Vec2.ZERO
  | first :: _ =>
      let x0 := Vec2.x (position first) in
      let y0 := Vec2.y (position first) in
      let '(minX, minY, maxX, maxY) :=
        fold_left
          (fun (acc : R * R * R * R) point =>
             let '(minX, minY, maxX, maxY) := acc in
             (Rmin minX (Vec2.x (position point)),
              Rmin minY (Vec2.y (position point)),
              Rmax maxX (Vec2.x (position point)),
              Rmax maxY (Vec2.y (position point))))
          points (x0, y0, x0, y0) in
      let min := Vec2.mk minX minY in
      let max := Vec2.mk maxX maxY in
      mkBox min max (Vec2.subtract max min)
  end.

Definition calculateTotalLength (points : list StrokePoint) : Result R :=
  foldM
    (fun length i =>
       previous <- get points (i - 1) ;;
       current <- get points i ;;
       Ok (length + Vec2.distanceTo (position previous) (position current)))
    (seq 1 (List.length points - 1)) 0.

Definition calculateAverageVelocity (points : list StrokePoint) : Result Vec2 :=
  match points with
  | [] => Ok Vec2.ZERO
  | _ =>
      let sum := fold_left (fun sum point => Vec2.add sum (velocity point)) points Vec2.ZERO in
      Vec2.divide sum (INR (List.length points))
  end.

Definition calculateMaxVelocity (points : list StrokePoint) : R :=
  fold_left (fun max point => Rmax max (Vec2.length (velocity point))) points 0.

Definition calculateAveragePressure (points : list StrokePoint) : R :=
  match points with
  | [] => 0
  | _ => sum_with pressure points / INR (List.length points)
  end.

Definition createRawStroke (a : ActiveStroke) (endTime : R) : Result RawStroke :=
  let points := active_points a in
  let boundingBox := calculateBoundingBox points in
  totalLength <- calculateTotalLength points ;;
  averageVelocity <- calculateAverageVelocity points ;;
  let maxVelocity := calculateMaxVelocity points in
  let averagePressure := calculateAveragePressure points in
  Ok (mkRaw (active_id a) points (active_startTime a) endTime boundingBox totalLength
        averageVelocity maxVelocity averagePressure).

Definition removeDuplicatePoints (o : StrokeProcessingOptions)
    (points : list StrokePoint) : list StrokePoint :=
  match points with
  | [] => points
  | first :: rest =>
      let minDistance := targetSpacing o * 0.5 in
      fst (fold_left
             (fun (acc : list StrokePoint * StrokePoint) currentPoint =>
                let (result, lastPoint) := acc in
                let distance :=
                  Vec2.distanceTo (position currentPoint) (position lastPoint) in
                if distance >=? minDistance
                then (result ++ [currentPoint], currentPoint)
                else acc)
             rest ([first], first))
  end.

Definition applySmoothingFilter (o : StrokeProcessingOptions)
    (points : list StrokePoint) : Result (list StrokePoint) :=
  if (List.length points <=? 2)%nat then Ok points
  else
    let windowSize := 2%nat in
    let passes := Math_ceil_nat (smoothingFactor o * 3) in
    foldM
      (fun result _ =>
         foldM
           (fun result i =>
              smoothedPoint <- smoothPointAtIndex o result i ;;
              Ok (set_at result i smoothedPoint))
           (seq windowSize (List.length result - windowSize - windowSize)) result)
      (seq 0 passes) points.

Definition interpolateStrokePoints (p1 p2 : StrokePoint) (s : R) : StrokePoint :=
  mkPoint
    (Vec2.lerp (position p1) (position p2) s)
    (Pt_lerp (worldPosition p1) (worldPosition p2) s)
    (timestamp p1 + (timestamp p2 - timestamp p1) * s)
    (pressure p1 + (pressure p2 - pressure p1) * s)
    (tiltX p1 + (tiltX p2 - tiltX p1) * s)
    (tiltY p1 + (tiltY p2 - tiltY p1) * s)
    (Vec2.lerp (velocity p1) (velocity p2) s).

(** [while (accumulatedDistance >= targetSpacing) { ... }].  With a positive
    spacing the loop runs [floor (accumulated / spacing)] times, fewer than
    the bound below; with a spacing of zero or less it never exits once
    entered. *)
Fixpoint resampleWhile (bound : nat) (targetSpacing segmentLength : R)
    (previousPoint currentPoint : StrokePoint) (accumulatedDistance : R)
    (result : list StrokePoint) : Result (list StrokePoint * R) :=
  if accumulatedDistance >=? targetSpacing then
    match bound with
    | O => Diverges
    | S bound' =>
        let excess := accumulatedDistance - targetSpacing in
        let s := 1 - excess / segmentLength in
        let interpolatedPoint := interpolateStrokePoints previousPoint currentPoint s in
        resampleWhile bound' targetSpacing segmentLength previousPoint currentPoint
                      excess (result ++ [interpolatedPoint])
    end
  else Ok (result, accumulatedDistance).

Definition resampleBound (targetSpacing accumulatedDistance : R) : nat :=
  if targetSpacing >? 0 then Z.to_nat (up (accumulatedDistance / targetSpacing)) else 0.

Definition resampleStroke (o : StrokeProcessingOptions) (points : list StrokePoint)
    : Result (list StrokePoint) :=
  match points with
  | [] | [_] => Ok points
  | first :: _ =>
      let targetSpacing := targetSpacing o in
      state <- foldM
        (fun (state : list StrokePoint * R) i =>
           let (result, accumulatedDistance) := state in
           previousPoint <- get points (i - 1) ;;
           currentPoint <- get points i ;;
           let segmentLength :=
             Vec2.distanceTo (position previousPoint) (position currentPoint) in
           let accumulatedDistance := accumulatedDistance + segmentLength in
           resampleWhile (resampleBound targetSpacing accumulatedDistance)
                         targetSpacing segmentLength previousPoint currentPoint
                         accumulatedDistance result)
        (seq 1 (List.length points - 1)) ([first], 0) ;;
      last <- get points (List.length points - 1) ;;
      Ok (fst state ++ [last])
  end.

Definition calculateAngleAtPoint (points : list StrokePoint) (index windowSize : nat)
    : Result R :=
  let afterIndex := (index + windowSize)%nat in
  if (index <? windowSize)%nat || (List.length points <=? afterIndex)%nat then Ok PI
  else
    before <- get points (index - windowSize) ;;
    current <- get points index ;;
    after <- get points afterIndex ;;
    let vec1 := Vec2.normalized (Vec2.subtract (position current) (position before)) in
    let vec2 := Vec2.normalized (Vec2.subtract (position after) (position current)) in
    let dot := Vec2.dot vec1 vec2 in
    Ok (acos (Rmax (-1) (Rmin 1 dot))).

(** The processor's own [detectCorners(points)]. *)
Definition detectCorners (o : StrokeProcessingOptions) (points : list StrokePoint)
    : Result (list nat) :=
  if (List.length points <? 3)%nat then Ok []
  else
    let minAngle := minCornerAngle o in
    let windowSize := 3%nat in
    foldM
      (fun corners i =>
         angle <- calculateAngleAtPoint points i windowSize ;;
         Ok (if angle <? minAngle then corners ++ [i] else corners))
      (seq windowSize (List.length points - windowSize - windowSize)) [].

Definition calculateJitterRatio (points : list StrokePoint) : Result R :=
  if (List.length points <? 3)%nat then Ok 0
  else
    totals <- foldM
      (fun (acc : R * R) i =>
         let (totalDirectionChange, totalLength) := acc in
         prev <- get points (i - 1) ;;
         curr <- get points i ;;
         next <- get points (i + 1) ;;
         let vec1 := Vec2.subtract (position curr) (position prev) in
         let vec2 := Vec2.subtract (position next) (position curr) in
         if (Vec2.lengthSquared vec1 >? 0) && (Vec2.lengthSquared vec2 >? 0) then
           let angle := Vec2.angleTo vec1 vec2 in
           Ok (totalDirectionChange + Rabs angle, totalLength + Vec2.length vec1)
         else Ok acc)
      (seq 1 (List.length points - 2)) (0, 0) ;;
    let (totalDirectionChange, totalLength) := totals in
    Ok (if totalLength >? 0 then totalDirectionChange / totalLength else 0).

Definition calculateVelocityConsistency (points : list StrokePoint) : Result R :=
  if (List.length points <? 2)%nat then Ok 1
  else
    average <- calculateAverageVelocity points ;;
    let avgVelocity := Vec2.length average in
    let velocityVariance :=
      sum_with (fun point =>
                  let diff := Vec2.length (velocity point) - avgVelocity in diff * diff)
               points in
    let velocityVariance := velocityVariance / INR (List.length points) in
    let coefficient :=
      if avgVelocity >? 0 then sqrt velocityVariance / avgVelocity else 0 in
    Ok (Rmax 0 (1 - coefficient)).

Definition calculateQualityScore (raw : RawStroke)
    (smoothed resampled : list StrokePoint) : Result R :=
  let score := 1 in
  let score := if totalLength raw <? 10 then score * 0.5 else score in
  let score := if (List.length (points raw) <? 5)%nat then score * 0.7 else score in
  jitterRatio <- calculateJitterRatio (points raw) ;;
  let score := score * Rmax 0.1 (1 - jitterRatio) in
  velocityConsistency <- calculateVelocityConsistency (points raw) ;;
  let score := score * (0.5 + 0.5 * velocityConsistency) in
  Ok (Rmax 0 (Rmin 1 score)).

Definition processStroke (o : StrokeProcessingOptions) (rawStroke : RawStroke)
    : Result ProcessedStroke :=
  let deduplicated := removeDuplicatePoints o (points rawStroke) in
  smoothed <- applySmoothingFilter o deduplicated ;;
  resampled <- resampleStroke o smoothed ;;
  cornerIndices <- detectCorners o resampled ;;
  qualityScore <- calculateQualityScore rawStroke smoothed resampled ;;
  Ok (mkProcessed rawStroke smoothed resampled cornerIndices qualityScore).

(** [endStroke()]; [performance_now] is the reading of [performance.now()].
    A throw on the way leaves the stroke active: the clean-up comes last. *)
Definition endStroke (sp : StrokeProcessor) (performance_now : R)
    : Call ProcessedStroke :=
  match activeStroke sp with
  | None => mkCall (Throw "No active stroke to end.") [] sp
  | Some a =>
      match (rawStroke <- createRawStroke a performance_now ;;
             processStroke (options sp) rawStroke) with
      | Ok processedStroke =>
          mkCall (Ok processedStroke) []
            (mkProcessor (options sp) None
               (recyclePoints (pointPool sp) (active_points a)) (strokeIdCounter sp))
      | failure => mkCall failure [] sp
      end
  end.

(** [cancelStroke()] *)
Definition cancelStroke (sp : StrokeProcessor) : Call unit :=
  match activeStroke sp with
  | Some a =>
      mkCall (Ok tt) []
        (mkProcessor (options sp) None
           (recyclePoints (pointPool sp) (active_points a)) (strokeIdCounter sp))
  | None => mkCall (Ok tt) [] sp
  end.

(** [get activeStrokePoints()] *)
Definition activeStrokePoints (sp : StrokeProcessor) : list StrokePoint :=
  match activeStroke sp with
  | Some a => active_points a
  | None => []
  end.

(** [get isCapturing()] *)
Definition isCapturing (sp : StrokeProcessor) : bool :=
  match activeStroke sp with
  | Some _ => true
  | None => false
  end.

End WithPt.

Arguments mkCall {Pt A}.
Arguments outcome {Pt A}.
Arguments warnings {Pt A}.
Arguments after {Pt A}.

End StrokeProcessor.

(** * Stroke-to-geometry converter ([stroke-to-geometry.ts]) *)

Module StrokeToGeometry.

Inductive GeometryType : Type := LINE | ARC | CIRCLE | SPLINE | UNKNOWN.

Record Metadata : Type := mkMetadata {
  method : string;
  iterations : option nat;
  parameters : list (string * R)
}.

Record GeometryFitResult : Type := mkFit {
  segment : Segment.t;
  type : GeometryType;
  confidence : R;
  error : R;
  points : list Vec2;
  metadata : Metadata
}.

Record ConversionOptions : Type := mkOptions {
  lineThreshold : R;
  arcThreshold : R;
  circleThreshold : R;
  minSegmentLength : R;
  enableCircleDetection : bool;
  enableSplineGeneration : bool;
  maxFittingIterations : nat;
  confidenceThreshold : R
}.

(** [Partial<ConversionOptions>] *)
Record PartialOptions : Type := mkPartial {
  lineThreshold' : option R;
  arcThreshold' : option R;
  circleThreshold' : option R;
  minSegmentLength' : option R;
  enableCircleDetection' : option bool;
  enableSplineGeneration' : option bool;
  maxFittingIterations' : option nat;
  confidenceThreshold' : option R
}.

Definition noOptions : PartialOptions :=
  mkPartial None None None None None None None None.

Definition DEFAULT_CONVERSION_OPTIONS : ConversionOptions :=
  mkOptions 3 5 8 20 true false 50 0.6.

Definition merge (base : ConversionOptions) (given : PartialOptions) : ConversionOptions :=
  mkOptions
    (match lineThreshold' given with Some v => v | None => lineThreshold base end)
    (match arcThreshold' given with Some v => v | None => arcThreshold base end)
    (match circleThreshold' given with Some v => v | None => circleThreshold base end)
    (match minSegmentLength' given with Some v => v | None => minSegmentLength base end)
    (match enableCircleDetection' given with Some v => v | None => enableCircleDetection base end)
    (match enableSplineGeneration' given with Some v => v | None => enableSplineGeneration base end)
    (match maxFittingIterations' given with Some v => v | None => maxFittingIterations base end)
    (match confidenceThreshold' given with Some v => v | None => confidenceThreshold base end).

(** The object: its options and its private corner detector. *)
Record StrokeToGeometryConverter : Type := mkConverter {
  options : ConversionOptions;
  cornerDetector : CornerDetector.CornerDetector
}.

Definition new (given : PartialOptions) : StrokeToGeometryConverter :=
  mkConverter (merge DEFAULT_CONVERSION_OPTIONS given)
              (CornerDetector.new CornerDetector.noOptions).

Definition updateOptions (c : StrokeToGeometryConverter) (newOptions : PartialOptions)
    : StrokeToGeometryConverter :=
  mkConverter (merge (options c) newOptions) (cornerDetector c).

(** A computation that constructs segments: it reads and advances the
    [World] of identifiers. *)
Definition M (A : Type) : Type := Segment.World -> Result A * Segment.World.

Definition ret {A} (a : A) : M A := fun w => (Ok a, w).

Definition bindM {A B} (m : M A) (k : A -> M B) : M B :=
  fun w =>
    match m w with
    | (Ok a, w') => k a w'
    | (Throw msg, w') => (Throw msg, w')
    | (Diverges, w') => (Diverges, w')
    end.

Notation "x <~ m ;; k" := (bindM m (fun x => k))
  (at level 61, m at next level, right associativity).

Definition pt (points : list Vec2) (i : nat) : Vec2 := at_ Vec2.ZERO points i.

Definition calculateLineError (points : list Vec2) (line : Segment.LineSegment) : R :=
  let sumSquaredError :=
    sum_with (fun point =>
                let distance := Segment.line_distanceToPoint line point in
                distance * distance)
             points in
  sqrt (sumSquaredError / INR (List.length points)).

Definition calculateArcError (points : list Vec2) (arc : Segment.ArcSegment) : R :=
  let sumSquaredError :=
    sum_with (fun point =>
                let distance := Segment.arc_distanceToPoint arc point in
                distance * distance)
             points in
  sqrt (sumSquaredError / INR (List.length points)).

Definition calculateCircleError (points : list Vec2) (center : Vec2) (radius : R) : R :=
  let sumSquaredError :=
    sum_with (fun point =>
                let distance := Rabs (Vec2.distanceTo point center - radius) in
                distance * distance)
             points in
  sqrt (sumSquaredError / INR (List.length points)).

Definition pointToLineDistance (point lineStart lineEnd : Vec2) : R :=
  let lineVector := Vec2.subtract lineEnd lineStart in
  let pointVector := Vec2.subtract point lineStart in
  if Vec2.lengthSquared lineVector <? 1e-10 then Vec2.length pointVector
  else Rabs (Vec2.cross pointVector lineVector) / Vec2.length lineVector.

Definition calculateLinearity (points : list Vec2) : R :=
  if (List.length points <? 3)%nat then 1
  else
    let startPoint := pt points 0 in
    let endPoint := pt points (List.length points - 1) in
    let totalDistance := Vec2.distanceTo startPoint endPoint in
    if totalDistance <? 1e-6 then 1
    else
      let maxDeviation :=
        fold_left
          (fun maxDeviation i =>
             Rmax maxDeviation (pointToLineDistance (pt points i) startPoint endPoint))
          (seq 1 (List.length points - 2)) 0 in
      let deviationRatio := maxDeviation / totalDistance in
      Rmax 0 (1 - deviationRatio * 5).

Definition calculateCurvature (p1 p2 p3 : Vec2) : R :=
  let a := Vec2.distanceTo p1 p2 in
  let b := Vec2.distanceTo p2 p3 in
  let c := Vec2.distanceTo p3 p1 in
  let area := Rabs (Vec2.cross (Vec2.subtract p2 p1) (Vec2.subtract p3 p1)) / 2 in
  if (area <? 1e-10) || (a * b * c <? 1e-10) then 0
  else (4 * area) / (a * b * c).

Definition calculateCurvatureConsistency (points : list Vec2) : R :=
  if (List.length points <? 5)%nat then 1
  else
    let curvatures :=
      map (fun i => calculateCurvature (pt points (i - 2)) (pt points i) (pt points (i + 2)))
          (seq 2 (List.length points - 4)) in
    match curvatures with
    | [] => 1
    | _ =>
        let mean := fold_left Rplus curvatures 0 / INR (List.length curvatures) in
        let variance :=
          fold_left (fun sum c => sum + (c - mean) * (c - mean)) curvatures 0
          / INR (List.length curvatures) in
        let stdDev := sqrt variance in
        let coefficientOfVariation := if mean >? 0 then stdDev / mean else 0 in
        Rmax 0 (1 - coefficientOfVariation)
    end.

Definition calculateRadiusConsistency (points : list Vec2) (center : Vec2)
    (targetRadius : R) : R :=
  let radii := map (fun p => Vec2.distanceTo p center) points in
  let sumSquaredError :=
    sum_with (fun radius => let error := Rabs (radius - targetRadius) in error * error)
             radii in
  let rmsError := sqrt (sumSquaredError / INR (List.length radii)) in
  let relativeError := if targetRadius >? 0 then rmsError / targetRadius else 1 in
  Rmax 0 (1 - relativeError * 2).

Definition fitCircleLeastSquares (points : list Vec2) : option (Vec2 * R) :=
  if (List.length points <? 3)%nat then None
  else
    let n := INR (List.length points) in
    let sumX := sum_with Vec2.x points in
    let sumY := sum_with Vec2.y points in
    let sumXX := sum_with (fun p => Vec2.x p * Vec2.x p) points in
    let sumYY := sum_with (fun p => Vec2.y p * Vec2.y p) points in
    let sumXY := sum_with (fun p => Vec2.x p * Vec2.y p) points in
    let sumXXX := sum_with (fun p => Vec2.x p * Vec2.x p * Vec2.x p) points in
    let sumYYY := sum_with (fun p => Vec2.y p * Vec2.y p * Vec2.y p) points in
    let sumXXY := sum_with (fun p => Vec2.x p * Vec2.x p * Vec2.y p) points in
    let sumXYY := sum_with (fun p => Vec2.x p * (Vec2.y p * Vec2.y p)) points in
    let A := n * sumXX - sumX * sumX in
    let B := n * sumXY - sumX * sumY in
    let C := n * sumYY - sumY * sumY in
    let D := 0.5 * (n * sumXXY - sumX * sumXY + n * sumYYY - sumY * sumYY) in
    let E := 0.5 * (n * sumXXX - sumX * sumXX + n * sumXYY - sumY * sumXY) in
    let denominator := A * C - B * B in
    if Rabs denominator <? 1e-10 then None
    else
      let centerX := (D * C - B * E) / denominator in
      let centerY := (A * E - B * D) / denominator in
      let center := Vec2.mk centerX centerY in
      let sumRadiusSquared := sum_with (fun point => Vec2.distanceToSquared point center) points in
      let radius := sqrt (sumRadiusSquared / n) in
      Some (center, radius).

Definition calculateAverageSpacing (points : list Vec2) : R :=
  if (List.length points <? 2)%nat then 0
  else
    let totalDistance :=
      fold_left (fun total i => total + Vec2.distanceTo (pt points (i - 1)) (pt points i))
                (seq 1 (List.length points - 1)) 0 in
    totalDistance / (INR (List.length points) - 1).

Definition isSegmentTooShort (o : ConversionOptions) (points : list Vec2) : bool :=
  if (List.length points <? 2)%nat then true
  else
    let startPoint := pt points 0 in
    let endPoint := pt points (List.length points - 1) in
    let distance := Vec2.distanceTo startPoint endPoint in
    distance <? minSegmentLength o.

Definition mergeCornerDetection (strokeCorners detectedCorners : list nat) : list nat :=
  sort_indices (unique (strokeCorners ++ detectedCorners)).

(** [complexityBonus[result.type] || 0] *)
Definition complexityBonus (ty : GeometryType) : R :=
  match ty with
  | LINE => 0.1
  | ARC => 0.05
  | CIRCLE => 0
  | SPLINE => -0.05
  | UNKNOWN => -0.1
  end.

Definition calculateFitScore (result : GeometryFitResult) : R :=
  let score := confidence result in
  let score := score + complexityBonus (type result) in
  let errorPenalty := Rmin 0.2 (error result / 10) in
  let score := score - errorPenalty in
  Rmax 0 (Rmin 1 score).

(** The body of the loop of [selectBestFit], on [(bestResult, bestScore)]. *)
Definition consider (best : GeometryFitResult * R) (result : GeometryFitResult)
    : GeometryFitResult * R :=
  let score := calculateFitScore result in
  if score >? snd best then (result, score) else best.

(** [selectBestFit(results)]; on an empty array [calculateFitScore] reads a
    field of [undefined]. *)
Definition selectBestFit (results : list GeometryFitResult) : Result GeometryFitResult :=
  match results with
  | [] => Throw "TypeError: Cannot read properties of undefined"
  | [only] => Ok only
  | first :: rest => Ok (fst (fold_left consider rest (first, calculateFitScore first)))
  end.

Definition fitLine (o : ConversionOptions) (points : list Vec2)
    : M (option GeometryFitResult) :=
  fun w =>
    if (List.length points <? 2)%nat then (Ok None, w)
    else
      let startPoint := pt points 0 in
      let endPoint := pt points (List.length points - 1) in
      let (segment, w') := Segment.newLineSegment startPoint endPoint w in
      let error := calculateLineError points segment in
      let confidence :=
        if error >? lineThreshold o
        then Rmax 0 (1 - (error - lineThreshold o) / lineThreshold o)
        else 1 in
      let linearity := calculateLinearity points in
      let confidence := confidence * linearity in
      (Ok (Some (mkFit (Segment.Line segment) LINE confidence error points
                   (mkMetadata "least_squares_endpoints" None [("linearity", linearity)]))),
       w').

(** [fitArc]: the body is inside [try]; a [null] arc (collinear points)
    makes [calculateArcError] throw a [TypeError], and both that and the
    constructor's error are caught. *)
Definition fitArc (o : ConversionOptions) (points : list Vec2)
    : M (option GeometryFitResult) :=
  fun w =>
    if (List.length points <? 3)%nat then (Ok None, w)
    else
      let startPoint := pt points 0 in
      let middleIndex := (List.length points / 2)%nat in
      let middlePoint := pt points middleIndex in
      let endPoint := pt points (List.length points - 1) in
      match Segment.fromThreePoints startPoint middlePoint endPoint w with
      | (Ok (Some segment), w') =>
          let error := calculateArcError points segment in
          let confidence :=
            if error >? arcThreshold o
            then Rmax 0 (1 - (error - arcThreshold o) / arcThreshold o)
            else 1 in
          let curvatureConsistency := calculateCurvatureConsistency points in
          let confidence := confidence * curvatureConsistency in
          (Ok (Some (mkFit (Segment.Arc segment) ARC confidence error points
                       (mkMetadata "three_point_fit" None
                          [("radius", Segment.arc_radius segment);
                           ("curvatureConsistency", curvatureConsistency)]))),
           w')
      | (Ok None, w') => (Ok None, w')
      | (Throw _, w') => (Ok None, w')
      | (Diverges, w') => (Diverges, w')
      end.

(** [fitCircle]: the constructor's error is not caught here. *)
Definition fitCircle (o : ConversionOptions) (points : list Vec2)
    : M (option GeometryFitResult) :=
  fun w =>
    if (List.length points <? 5)%nat then (Ok None, w)
    else
      let startPoint := pt points 0 in
      let endPoint := pt points (List.length points - 1) in
      let closureDistance := Vec2.distanceTo startPoint endPoint in
      let averageSpacing := calculateAverageSpacing points in
      if closureDistance >? averageSpacing * 3 then (Ok None, w)
      else
        match fitCircleLeastSquares points with
        | None => (Ok None, w)
        | Some (center, radius) =>
            match Segment.newArcSegment center radius 0 (PI * 2) w with
            | (Ok segment, w') =>
                let error := calculateCircleError points center radius in
                let confidence :=
                  if error >? circleThreshold o
                  then Rmax 0 (1 - (error - circleThreshold o) / circleThreshold o)
                  else 1 in
                let closureQuality := 1 - Rmin 1 (closureDistance / (averageSpacing * 3)) in
                let radiusConsistency := calculateRadiusConsistency points center radius in
                let confidence := confidence * (closureQuality * radiusConsistency) in
                (Ok (Some (mkFit (Segment.Arc segment) CIRCLE confidence error points
                             (mkMetadata "least_squares_circle" None
                                [("radius", radius);
                                 ("closureQuality", closureQuality);
                                 ("radiusConsistency", radiusConsistency)]))),
                 w')
            | (Throw msg, w') => (Throw msg, w')
            | (Diverges, w') => (Diverges, w')
            end
        end.

Definition push (results : list GeometryFitResult) (fit : option GeometryFitResult)
    : list GeometryFitResult :=
  match fit with Some f => results ++ [f] | None => results end.

Definition fitSegment (o : ConversionOptions) (points : list Vec2)
    : M (option GeometryFitResult) :=
  if (List.length points <? 2)%nat then ret None
  else if isSegmentTooShort o points then ret None
  else
    lineFit <~ fitLine o points ;;
    let fittingResults := push [] lineFit in
    circleFit <~ (if enableCircleDetection o && (5 <=? List.length points)%nat
                  then fitCircle o points else ret None) ;;
    let fittingResults := push fittingResults circleFit in
    arcFit <~ (if (3 <=? List.length points)%nat then fitArc o points else ret None) ;;
    let fittingResults := push fittingResults arcFit in
    match fittingResults with
    | [] => ret None
    | _ => fun w =>
        match selectBestFit fittingResults with
        | Ok best => (Ok (Some best), w)
        | Throw msg => (Throw msg, w)
        | Diverges => (Diverges, w)
        end
    end.

(** [if (segmentResult && segmentResult.confidence >= threshold) results.push(...)] *)
Definition accept (o : ConversionOptions) (results : list GeometryFitResult)
    (segmentResult : option GeometryFitResult) : list GeometryFitResult :=
  match segmentResult with
  | Some fit =>
      if confidence fit >=? confidenceThreshold o then results ++ [fit] else results
  | None => results
  end.

(** The loop [for (const cornerIndex of corners)] of [convertStroke]. *)
Fixpoint convertRuns (o : ConversionOptions) (points : list Vec2) (corners : list nat)
    (segmentStart : nat) (results : list GeometryFitResult)
    : M (list GeometryFitResult * nat) :=
  match corners with
  | [] => ret (results, segmentStart)
  | cornerIndex :: rest =>
      if (segmentStart <? cornerIndex)%nat then
        let segmentPoints := slice points segmentStart (cornerIndex + 1) in
        segmentResult <~ fitSegment o segmentPoints ;;
        convertRuns o points rest cornerIndex (accept o results segmentResult)
      else convertRuns o points rest cornerIndex results
  end.

Definition postProcessResults (results : list GeometryFitResult)
    : list GeometryFitResult := results.

Section WithPt.
Context {Pt : Type}.

(** [convertStroke(stroke)] *)
Definition convertStroke (c : StrokeToGeometryConverter)
    (stroke : @StrokeProcessor.ProcessedStroke Pt) : M (list GeometryFitResult) :=
  let points := map StrokeProcessor.position (StrokeProcessor.resampledPoints stroke) in
  if (List.length points <? 2)%nat then ret []
  else
    let cornerResult := CornerDetector.detectCorners (cornerDetector c) points in
    let corners :=
      mergeCornerDetection (StrokeProcessor.cornerIndices stroke)
                           (CornerDetector.cornerIndices cornerResult) in
    state <~ convertRuns (options c) points corners 0 [] ;;
    let (results, segmentStart) := state in
    if (segmentStart <? List.length points - 1)%nat then
      let segmentPoints := skipn segmentStart points in
      segmentResult <~ fitSegment (options c) segmentPoints ;;
      ret (postProcessResults (accept (options c) results segmentResult))
    else ret (postProcessResults results).

End WithPt.

(** ** Comparing two runs *)

(** What a fit result says once the identifier of its segment is set
    aside: the kind and parameters of the segment and every other member. *)
Record FitParameters : Type := mkFitParameters {
  fitted : Segment.Parameters;
  fitted_type : GeometryType;
  fitted_confidence : R;
  fitted_error : R;
  fitted_points : list Vec2;
  fitted_metadata : Metadata
}.

Definition fitParameters (r : GeometryFitResult) : FitParameters :=
  mkFitParameters (Segment.parameters (segment r)) (type r) (confidence r) (error r)
                  (points r) (metadata r).

(** The outcome of [convertStroke] as a caller comparing two runs sees it. *)
Definition observe (r : Result (list GeometryFitResult)) : Result (list FitParameters) :=
  match r with
  | Ok results => Ok (map fitParameters results)
  | Throw msg => Throw msg
  | Diverges => Diverges
  end.

Definition sameFit (a b : GeometryFitResult) : Prop := fitParameters a = fitParameters b.

Definition sameOption {A} (same : A -> A -> Prop) (a b : option A) : Prop :=
  match a, b with
  | Some x, Some y => same x y
  | None, None => True
  | _, _ => False
  end.

Inductive sameOutcome {A} (same : A -> A -> Prop) : Result A -> Result A -> Prop :=
| same_Ok (a b : A) : same a b -> sameOutcome same (Ok a) (Ok b)
| same_Throw (msg : string) : sameOutcome same (Throw msg) (Throw msg)
| same_Diverges : sameOutcome same Diverges Diverges.

(** Two computations whose outcomes agree in whatever worlds they run. *)
Definition stable {A} (same : A -> A -> Prop) (m1 m2 : M A) : Prop :=
  forall w1 w2, sameOutcome same (fst (m1 w1)) (fst (m2 w2)).

(** The state of the loop of [convertStroke] in two runs. *)
Definition sameRuns (a b : list GeometryFitResult * nat) : Prop :=
  Forall2 sameFit (fst a) (fst b) /\ snd a = snd b.

(** A converter as the class builds it: [new], then [updateOptions]. *)
Inductive Constructed : StrokeToGeometryConverter -> Prop :=
| constructed_new (given : PartialOptions) : Constructed (new given)
| constructed_update (c : StrokeToGeometryConverter) (newOptions : PartialOptions) :
    Constructed c -> Constructed (updateOptions c newOptions).

End StrokeToGeometry.

(** * Pointer states ([pointer-events.ts]) *)

Module Pointer.

Inductive PointerType : Type := TOUCH | MOUSE | PEN | UNKNOWN.

Inductive PointerButton : Type :=
  NONE | PRIMARY | AUXILIARY | SECONDARY | FOURTH | FIFTH.

Section WithPt.
Context {Pt : Type}.

Record PointerState : Type := mkPointer {
  id : Z;
  type : PointerType;
  position : Vec2;
  worldPosition : Pt;
  pressure : R;
  tangentialPressure : R;
  tiltX : R;
  tiltY : R;
  twist : R;
  width : R;
  height : R;
  timestamp : R;
  button : PointerButton;
  buttons : Z;
  isPrimary : bool
}.

(** [PointerUtils.calculateCentroid] *)
Definition calculateCentroid (pointers : list PointerState) : Result Vec2 :=
  match pointers with
  | [] => Ok Vec2.ZERO
  | _ =>
      let sum := fold_left (fun sum pointer => Vec2.add sum (position pointer))
                           pointers Vec2.ZERO in
      Vec2.divide sum (INR (List.length pointers))
  end.

(** [PointerUtils.calculateSpread] *)
Definition calculateSpread (pointers : list PointerState) : Result R :=
  if (List.length pointers <? 2)%nat then Ok 0
  else
    centroid <- calculateCentroid pointers ;;
    let totalDistance :=
      sum_with (fun pointer => Vec2.distanceTo (position pointer) centroid) pointers in
    Ok (totalDistance / INR (List.length pointers)).

End WithPt.
End Pointer.

(** * Touch state machine ([touch-state.ts]) *)

Module TouchState.

Inductive TouchMode : Type := IDLE | DRAWING | PAN_ZOOM | UNDO | MULTI_TOUCH.

Definition TouchMode_eqb (a b : TouchMode) : bool :=
  match a, b with
  | IDLE, IDLE | DRAWING, DRAWING | PAN_ZOOM, PAN_ZOOM
  | UNDO, UNDO | MULTI_TOUCH, MULTI_TOUCH => true
  | _, _ => false
  end.

Inductive GestureState : Type :=
  NONE | POSSIBLE | BEGAN | CHANGED | ENDED | CANCELLED | FAILED.

(** The [data] of a gesture, by gesture type; [NoData] is [{}]. *)
Inductive GestureData : Type :=
| DrawingData (startPosition currentPosition : Vec2) (totalDistance : R)
              (velocity : Vec2) (strokePoints : list Vec2)
| PanZoomData (initialCentroid : Vec2) (initialSpread : R) (currentCentroid : Vec2)
              (currentSpread : R) (panDelta : Vec2) (zoomFactor rotation : R)
| UndoData (triggerPosition : Vec2) (confirmationTime : R)
| NoData.

(** Which of the optional callbacks of [TouchStateEventHandlers] are set. *)
Record Handlers : Type := mkHandlers {
  onTouchModeChanged : bool;
  onGestureStarted : bool;
  onGestureUpdated : bool;
  onGestureEnded : bool;
  onGestureCancelled : bool
}.

Definition noHandlers : Handlers := mkHandlers false false false false false.
Definition allHandlers : Handlers := mkHandlers true true true true true.

Section WithPt.
Context {Pt : Type}.
Local Abbreviation PointerState := (@Pointer.PointerState Pt).

Record TouchGesture : Type := mkGesture {
  type : TouchMode;
  state : GestureState;
  startTime : R;
  duration : R;
  pointerCount : nat;
  primaryPointer : option PointerState;
  centroid : Vec2;
  data : GestureData
}.

(** A call of one of the callbacks, with its arguments. *)
Inductive Notification : Type :=
| TouchModeChanged (previousMode currentMode : TouchMode)
| GestureStarted (gesture : TouchGesture)
| GestureUpdated (gesture : TouchGesture)
| GestureEnded (gesture : TouchGesture)
| GestureCancelled (gesture : TouchGesture).

(** The object. *)
Record TouchStateManager : Type := mkManager {
  currentMode : TouchMode;
  currentGesture : option TouchGesture;
  activePointers : Map PointerState;
  gestureHistory : list TouchGesture;
  handlers : Handlers;
  lastUpdateTime : R
}.

Definition UNDO_HOLD_TIME : R := 500.
Definition MAX_GESTURE_HISTORY : nat := 50.

Definition new (given : option Handlers) : TouchStateManager :=
  mkManager IDLE None [] []
            (match given with Some h => h | None => noHandlers end) 0.

(** ** Methods: a state, a trace of callback calls, and exceptions *)

Definition T (A : Type) : Type :=
  TouchStateManager -> Result A * list Notification * TouchStateManager.

Definition ret {A} (a : A) : T A := fun m => (Ok a, [], m).

Definition bind {A B} (c : T A) (k : A -> T B) : T B :=
  fun m =>
    match c m with
    | (Ok a, out, m') => let '(r, out', m'') := k a m' in (r, out ++ out', m'')
    | (Throw msg, out, m') => (Throw msg, out, m')
    | (Diverges, out, m') => (Diverges, out, m')
    end.

Notation "x <~ c ;; k" := (bind c (fun x => k))
  (at level 61, c at next level, right associativity).
Notation "c ;;; k" := (bind c (fun _ => k))
  (at level 61, right associativity).

Definition this : T TouchStateManager := fun m => (Ok m, [], m).
Definition lift {A} (r : Result A) : T A := fun m => (r, [], m).

Definition call (installed : Handlers -> bool) (n : Notification) : T unit :=
  fun m => (Ok tt, if installed (handlers m) then [n] else [], m).

Definition set_currentMode (v : TouchMode) : T unit :=
  fun m => (Ok tt, [], mkManager v (currentGesture m) (activePointers m)
                                 (gestureHistory m) (handlers m) (lastUpdateTime m)).
Definition set_currentGesture (v : option TouchGesture) : T unit :=
  fun m => (Ok tt, [], mkManager (currentMode m) v (activePointers m)
                                 (gestureHistory m) (handlers m) (lastUpdateTime m)).
Definition set_activePointers (v : Map PointerState) : T unit :=
  fun m => (Ok tt, [], mkManager (currentMode m) (currentGesture m) v
                                 (gestureHistory m) (handlers m) (lastUpdateTime m)).
Definition set_gestureHistory (v : list TouchGesture) : T unit :=
  fun m => (Ok tt, [], mkManager (currentMode m) (currentGesture m) (activePointers m)
                                 v (handlers m) (lastUpdateTime m)).
Definition set_lastUpdateTime (v : R) : T unit :=
  fun m => (Ok tt, [], mkManager (currentMode m) (currentGesture m) (activePointers m)
                                 (gestureHistory m) (handlers m) v).

(** [setHandlers(handlers)] *)
Definition setHandlers (h : Handlers) : T unit :=
  fun m => (Ok tt, [], mkManager (currentMode m) (currentGesture m) (activePointers m)
                                 (gestureHistory m) h (lastUpdateTime m)).

(** [determineTouchMode()] *)
Definition determineTouchMode (m : TouchStateManager) : TouchMode :=
  let count := Map_size (activePointers m) in
  match count with
  | 0%nat => IDLE
  | 1%nat => DRAWING
  | 2%nat => PAN_ZOOM
  | 3%nat => UNDO
  | _ => MULTI_TOUCH
  end.

Definition getPrimaryPointer (m : TouchStateManager) : option PointerState :=
  match find Pointer.isPrimary (Map_values (activePointers m)) with
  | Some pointer => Some pointer
  | None => nth_error (Map_values (activePointers m)) 0
  end.

Definition calculateCentroid (m : TouchStateManager) : Result Vec2 :=
  Pointer.calculateCentroid (Map_values (activePointers m)).

Definition addToHistory (gesture : TouchGesture) : T unit :=
  m <~ this ;;
  let history := gestureHistory m ++ [gesture] in
  set_gestureHistory
    (if (MAX_GESTURE_HISTORY <? List.length history)%nat then tl history else history).

Definition withState (g : TouchGesture) (s : GestureState) (d : R) : TouchGesture :=
  mkGesture (type g) s (startTime g) d (pointerCount g) (primaryPointer g)
            (centroid g) (data g).

Definition withData (g : TouchGesture) (d : GestureData) : TouchGesture :=
  mkGesture (type g) (state g) (startTime g) (duration g) (pointerCount g)
            (primaryPointer g) (centroid g) d.

(** [endCurrentGesture()] *)
Definition endCurrentGesture : T unit :=
  m <~ this ;;
  match currentGesture m with
  | None => ret tt
  | Some gesture =>
      let endedGesture :=
        withState gesture ENDED (lastUpdateTime m - startTime gesture) in
      addToHistory endedGesture ;;;
      call onGestureEnded (GestureEnded endedGesture) ;;;
      set_currentGesture None
  end.

(** [cancelCurrentGesture()] *)
Definition cancelCurrentGesture : T unit :=
  m <~ this ;;
  match currentGesture m with
  | None => ret tt
  | Some gesture =>
      let cancelledGesture :=
        withState gesture CANCELLED (lastUpdateTime m - startTime gesture) in
      call onGestureCancelled (GestureCancelled cancelledGesture) ;;;
      set_currentGesture None
  end.

Definition createDrawingGesture (base : TouchGesture) (pointer : PointerState)
    : TouchGesture :=
  mkGesture DRAWING (state base) (startTime base) (duration base) (pointerCount base)
            (primaryPointer base) (centroid base)
            (DrawingData (Pointer.position pointer) (Pointer.position pointer) 0
                         Vec2.ZERO [Pointer.position pointer]).

Definition createPanZoomGesture (m : TouchStateManager) (base : TouchGesture)
    : Result TouchGesture :=
  let pointers := Map_values (activePointers m) in
  initial <- Pointer.calculateCentroid pointers ;;
  spread <- Pointer.calculateSpread pointers ;;
  Ok (mkGesture PAN_ZOOM (state base) (startTime base) (duration base)
        (pointerCount base) (primaryPointer base) (centroid base)
        (PanZoomData initial spread initial spread Vec2.ZERO 1 0)).

Definition createUndoGesture (base : TouchGesture) (pointer : PointerState)
    : TouchGesture :=
  mkGesture UNDO (state base) (startTime base) (duration base) (pointerCount base)
            (primaryPointer base) (centroid base)
            (UndoData (Pointer.position pointer)
                      (Pointer.timestamp pointer + UNDO_HOLD_TIME)).

(** [startGesture(mode, triggerPointer)] *)
Definition startGesture (mode : TouchMode) (triggerPointer : PointerState) : T unit :=
  m <~ this ;;
  centroid <~ lift (calculateCentroid m) ;;
  let baseGesture :=
    mkGesture mode BEGAN (Pointer.timestamp triggerPointer) 0
              (Map_size (activePointers m)) (getPrimaryPointer m) centroid NoData in
  gesture <~ (match mode with
              | DRAWING => ret (createDrawingGesture baseGesture triggerPointer)
              | PAN_ZOOM => lift (createPanZoomGesture m baseGesture)
              | UNDO => ret (createUndoGesture baseGesture triggerPointer)
              | _ => ret baseGesture
              end) ;;
  set_currentGesture (Some gesture) ;;;
  call onGestureStarted (GestureStarted gesture).

Definition typeError {A} : Result A :=
  Throw "TypeError: Cannot read properties of undefined".

(** [updateDrawingGesture(gesture, pointer)]; a gesture of type [DRAWING]
    always carries [DrawingData]. *)
Definition updateDrawingGesture (gesture : TouchGesture) (pointer : PointerState)
    : Result TouchGesture :=
  match data gesture with
  | DrawingData startPosition currentPosition totalDistance0 velocity0 strokePoints =>
      let previousPosition := currentPosition in
      let distance := Vec2.distanceTo previousPosition (Pointer.position pointer) in
      let totalDistance := totalDistance0 + distance in
      velocity <-
        (if duration gesture >? 0 then
           let timeDelta := (Pointer.timestamp pointer - startTime gesture) / 1000 in
           let displacement := Vec2.subtract (Pointer.position pointer) startPosition in
           Vec2.divide displacement timeDelta
         else Ok velocity0) ;;
      let newStrokePoints :=
        if distance >? 1 then strokePoints ++ [Pointer.position pointer]
        else strokePoints in
      Ok (withData gesture
            (DrawingData startPosition (Pointer.position pointer) totalDistance
                         velocity newStrokePoints))
  | _ => typeError
  end.

(** [updatePanZoomGesture(gesture)]; the rotation stays 0. *)
Definition updatePanZoomGesture (m : TouchStateManager) (gesture : TouchGesture)
    : Result TouchGesture :=
  let pointers := Map_values (activePointers m) in
  currentCentroid <- Pointer.calculateCentroid pointers ;;
  currentSpread <- Pointer.calculateSpread pointers ;;
  match data gesture with
  | PanZoomData initialCentroid initialSpread _ _ _ _ _ =>
      let panDelta := Vec2.subtract currentCentroid initialCentroid in
      let zoomFactor :=
        if initialSpread >? 0 then currentSpread / initialSpread else 1 in
      let rotation := 0 in
      Ok (withData gesture
            (PanZoomData initialCentroid initialSpread currentCentroid currentSpread
                         panDelta zoomFactor rotation))
  | _ => typeError
  end.

(** [updateUndoGesture(gesture, currentTime)]: a copy. *)
Definition updateUndoGesture (gesture : TouchGesture) (currentTime : R) : TouchGesture :=
  gesture.

(** [updateCurrentGesture(updatedPointer)] *)
Definition updateCurrentGesture (updatedPointer : PointerState) : T unit :=
  m <~ this ;;
  match currentGesture m with
  | None => ret tt
  | Some current =>
      let now := Pointer.timestamp updatedPointer in
      let duration := now - startTime current in
      centroid <~ lift (calculateCentroid m) ;;
      let updatedGesture :=
        mkGesture (type current) CHANGED (startTime current) duration
                  (Map_size (activePointers m)) (getPrimaryPointer m) centroid
                  (data current) in
      updatedGesture <~ (match type current with
                         | DRAWING => lift (updateDrawingGesture updatedGesture updatedPointer)
                         | PAN_ZOOM => lift (updatePanZoomGesture m updatedGesture)
                         | UNDO => ret (updateUndoGesture updatedGesture now)
                         | _ => ret updatedGesture
                         end) ;;
      set_currentGesture (Some updatedGesture) ;;;
      call onGestureUpdated (GestureUpdated updatedGesture)
  end.

(** [transitionToMode(newMode, triggerPointer)] *)
Definition transitionToMode (newMode : TouchMode) (triggerPointer : PointerState)
    : T unit :=
  m <~ this ;;
  let previousMode := currentMode m in
  (match currentGesture m with
   | Some _ => if negb (TouchMode_eqb newMode previousMode) then endCurrentGesture
               else ret tt
   | None => ret tt
   end) ;;;
  set_currentMode newMode ;;;
  (if negb (TouchMode_eqb newMode IDLE) then startGesture newMode triggerPointer
   else ret tt) ;;;
  call onTouchModeChanged (TouchModeChanged previousMode newMode).

(** [handlePointerDown(event)] *)
Definition handlePointerDown (pointer : PointerState) : T unit :=
  m <~ this ;;
  set_activePointers (Map_set (activePointers m) (Pointer.id pointer) pointer) ;;;
  set_lastUpdateTime (Pointer.timestamp pointer) ;;;
  m <~ this ;;
  let newMode := determineTouchMode m in
  if negb (TouchMode_eqb newMode (currentMode m))
  then transitionToMode newMode pointer
  else updateCurrentGesture pointer.

(** [handlePointerMove(event)] *)
Definition handlePointerMove (pointer : PointerState) : T unit :=
  m <~ this ;;
  match Map_get (activePointers m) (Pointer.id pointer) with
  | None => ret tt
  | Some existingPointer =>
      set_activePointers (Map_set (activePointers m) (Pointer.id pointer) pointer) ;;;
      set_lastUpdateTime (Pointer.timestamp pointer) ;;;
      updateCurrentGesture pointer
  end.

(** [handlePointerUp(event)] *)
Definition handlePointerUp (pointer : PointerState) : T unit :=
  m <~ this ;;
  set_activePointers (Map_delete (activePointers m) (Pointer.id pointer)) ;;;
  set_lastUpdateTime (Pointer.timestamp pointer) ;;;
  m <~ this ;;
  let newMode := determineTouchMode m in
  if negb (TouchMode_eqb newMode (currentMode m))
  then endCurrentGesture ;;; transitionToMode newMode pointer
  else updateCurrentGesture pointer.

(** [handlePointerCancel(event)] *)
Definition handlePointerCancel (pointer : PointerState) : T unit :=
  m <~ this ;;
  set_activePointers (Map_delete (activePointers m) (Pointer.id pointer)) ;;;
  cancelCurrentGesture ;;;
  m <~ this ;;
  let newMode := determineTouchMode m in
  transitionToMode newMode pointer.

(** [reset()] *)
Definition reset : T unit :=
  endCurrentGesture ;;;
  set_activePointers [] ;;;
  set_currentMode IDLE ;;;
  set_currentGesture None.

(** [get touchMode()], [get activeGesture()], [get activePointerCount()] *)
Definition touchMode (m : TouchStateManager) : TouchMode := currentMode m.
Definition activeGesture (m : TouchStateManager) : option TouchGesture := currentGesture m.
Definition activePointerCount (m : TouchStateManager) : nat := Map_size (activePointers m).

(** [get recentGestures()], a copy of the history. *)
Definition recentGestures (m : TouchStateManager) : list TouchGesture := gestureHistory m.

(** ** Driving the manager *)

Inductive Event : Type :=
| PointerDown (pointer : PointerState)
| PointerMove (pointer : PointerState)
| PointerUp (pointer : PointerState)
| PointerCancel (pointer : PointerState)
| Reset
| SetHandlers (h : Handlers).

Definition isPointerEvent (e : Event) : bool :=
  match e with
  | PointerDown _ | PointerMove _ | PointerUp _ | PointerCancel _ => true
  | _ => false
  end.

Definition dispatch (e : Event) : T unit :=
  match e with
  | PointerDown pointer => handlePointerDown pointer
  | PointerMove pointer => handlePointerMove pointer
  | PointerUp pointer => handlePointerUp pointer
  | PointerCancel pointer => handlePointerCancel pointer
  | Reset => reset
  | SetHandlers h => setHandlers h
  end.

Definition stateAfter (e : Event) (m : TouchStateManager) : TouchStateManager :=
  snd (dispatch e m).

Definition notificationsOf (e : Event) (m : TouchStateManager) : list Notification :=
  snd (fst (dispatch e m)).

(** The manager after a sequence of calls on a fresh object. *)
Definition run (given : option Handlers) (events : list Event) : TouchStateManager :=
  fold_left (fun m e => stateAfter e m) events (new given).

Definition isModeChange (n : Notification) : bool :=
  match n with TouchModeChanged _ _ => true | _ => false end.

(** The call that closes the gesture that was live when a pointer event
    arrived: [onGestureCancelled] on a cancel and [onGestureEnded] on a down
    or an up (the duration runs to the event's timestamp), if that handler
    is set. *)
Definition closing (e : Event) (m : TouchStateManager) : list Notification :=
  match currentGesture m with
  | None => []
  | Some gesture =>
      match e with
      | PointerDown pointer | PointerUp pointer =>
          if onGestureEnded (handlers m)
          then [GestureEnded
                  (withState gesture ENDED
                             (Pointer.timestamp pointer - startTime gesture))]
          else []
      | PointerCancel _ =>
          if onGestureCancelled (handlers m)
          then [GestureCancelled
                  (withState gesture CANCELLED
                             (lastUpdateTime m - startTime gesture))]
          else []
      | _ => []
      end
  end.

(** The call that opens the gesture that is live afterwards, if
    [onGestureStarted] is set. *)
Definition opening (h : Handlers) (live : option TouchGesture) : list Notification :=
  match live with
  | Some gesture => if onGestureStarted h then [GestureStarted gesture] else []
  | None => []
  end.

(** What a pointer event that changes the mode returns and calls. *)
Definition transition_calls (e : Event) (m : TouchStateManager)
    (result : Result unit * list Notification * TouchStateManager) : Prop :=
  fst (fst result) = Ok tt
  /\ snd (fst result)
     = closing e m
       ++ opening (handlers m) (currentGesture (snd result))
       ++ (if onTouchModeChanged (handlers m)
           then [TouchModeChanged (currentMode m) (currentMode (snd result))]
           else [])
  /\ match currentGesture (snd result) with
     | None => currentMode (snd result) = IDLE
     | Some gesture =>
         type gesture = currentMode (snd result)
         /\ state gesture = BEGAN
         /\ currentMode (snd result) <> IDLE
     end.

(** A step that never throws. *)
Definition total {A} (c : T A) : Prop :=
  forall m, exists a out m', c m = (Ok a, out, m').

(** A step that, whatever its outcome, leaves the mode, the pointer map and
    the handlers alone and calls no mode-change handler. *)
Definition quiet {A} (c : T A) : Prop :=
  forall m,
    filter isModeChange (snd (fst (c m))) = []
    /\ currentMode (snd (c m)) = currentMode m
    /\ activePointers (snd (c m)) = activePointers m
    /\ handlers (snd (c m)) = handlers m.

(** What a handler leaves behind: the mode agrees with the pointer map, and
    if the mode changed the mode-change handler was called once (if set). *)
Definition settled (m : TouchStateManager) (result : Result unit * list Notification * TouchStateManager)
    (pointers : Map PointerState) : Prop :=
  let '(_, out, m') := result in
  activePointers m' = pointers
  /\ handlers m' = handlers m
  /\ currentMode m' = determineTouchMode m'
  /\ (currentMode m' <> currentMode m ->
      filter isModeChange out
      = if onTouchModeChanged (handlers m)
        then [TouchModeChanged (currentMode m) (currentMode m')] else []).

(** The [data] a gesture of each type carries. *)
Definition dataMatches (mode : TouchMode) (d : GestureData) : Prop :=
  match mode, d with
  | DRAWING, DrawingData _ _ _ _ _ => True
  | PAN_ZOOM, PanZoomData _ _ _ _ _ _ _ => True
  | UNDO, UndoData _ _ => True
  | IDLE, NoData => True
  | MULTI_TOUCH, NoData => True
  | _, _ => False
  end.

(** The live gesture, if any, carries the data of its type, and the history
    is within its limit. *)
Definition wellFormed (m : TouchStateManager) : Prop :=
  (List.length (gestureHistory m) <= MAX_GESTURE_HISTORY)%nat
  /\ match currentGesture m with
     | None => True
     | Some gesture => dataMatches (type gesture) (data gesture)
     end.

(** The mode is the one of the pointer count, and there is a live gesture, of
    the mode's type, exactly when the mode is not idle. *)
Definition coherent (m : TouchStateManager) : Prop :=
  wellFormed m
  /\ currentMode m = determineTouchMode m
  /\ match currentGesture m with
     | None => currentMode m = IDLE
     | Some gesture => type gesture = currentMode m /\ currentMode m <> IDLE
     end.

(** A step that, started where [P] holds, returns normally where [Q] holds. *)
Definition returns {A} (P : TouchStateManager -> Prop) (c : T A)
    (Q : A -> TouchStateManager -> Prop) : Prop :=
  forall m, P m -> exists a out m', c m = (Ok a, out, m') /\ Q a m'.

End WithPt.

(** ** [TouchStateUtils] *)

Section Utils.
Context {Pt : Type}.
Local Abbreviation TouchGesture := (@TouchGesture Pt).

(** A field missing from [gesture.data] reads [undefined], and a comparison
    with [undefined] is false. *)
Definition isQuickTap (gesture : TouchGesture) : bool :=
  if negb (TouchMode_eqb (type gesture) DRAWING) then false
  else
    (duration gesture <? 200)
    && match data gesture with
       | DrawingData _ _ totalDistance _ _ => totalDistance <? 10
       | _ => false
       end.

Definition isIntentionalDrawing (gesture : TouchGesture) : bool :=
  (duration gesture >? 100)
  || match data gesture with
     | DrawingData _ _ totalDistance _ _ => totalDistance >? 20
     | _ => false
     end.

(** [gesture.data.panDelta.length] throws when [data] has no [panDelta]. *)
Definition isPanningGesture (gesture : TouchGesture) : Result bool :=
  match data gesture with
  | PanZoomData _ _ _ _ panDelta zoomFactor _ =>
      let panDistance := Vec2.length panDelta in
      let zoomChange := Rabs (zoomFactor - 1) in
      Ok ((panDistance >? 20) && (zoomChange <? 0.1))
  | _ => typeError
  end.

Definition isZoomingGesture (gesture : TouchGesture) : Result bool :=
  match data gesture with
  | PanZoomData _ _ _ _ panDelta zoomFactor _ =>
      let panDistance := Vec2.length panDelta in
      let zoomChange := Rabs (zoomFactor - 1) in
      Ok ((zoomChange >? 0.1) && (panDistance <? 20))
  | _ => typeError
  end.

Definition shouldTriggerUndo (gesture : TouchGesture) (currentTime : R) : bool :=
  match data gesture with
  | UndoData _ confirmationTime => currentTime >=? confirmationTime
  | _ => false
  end.

End Utils.
End TouchState.

(** * Gesture recognizer ([gesture-recognizer.ts]) *)

Module GestureRecognizer.

Inductive GestureType : Type := PAN | ZOOM | ROTATE | UNDO | TAP | LONG_PRESS | SWIPE.

Definition GestureType_eqb (a b : GestureType) : bool :=
  match a, b with
  | PAN, PAN | ZOOM, ZOOM | ROTATE, ROTATE | UNDO, UNDO
  | TAP, TAP | LONG_PRESS, LONG_PRESS | SWIPE, SWIPE => true
  | _, _ => false
  end.

Inductive GesturePhase : Type :=
  POSSIBLE | BEGAN | CHANGED | ENDED | CANCELLED | FAILED.

(** [GestureData]: at most one of the optional members is ever set. *)
Inductive GestureData : Type :=
| PanData (translation velocity : Vec2) (totalDistance : R)
| ZoomData (scale velocity : R) (center : Vec2)
| RotationData (angle velocity : R) (center : Vec2)
| TapData (position : Vec2) (tapCount : nat)
| SwipeData (direction : Vec2) (velocity distance : R)
| UndoData (holdDuration confirmationProgress : R)
| NoData.

Record GestureRecognitionOptions : Type := mkOptions {
  panThreshold : R;
  zoomThreshold : R;
  rotationThreshold : R;
  tapTimeout : R;
  tapRadius : R;
  longPressTimeout : R;
  undoHoldTime : R;
  swipeMinVelocity : R;
  swipeMinDistance : R;
  simultaneousRecognition : bool
}.

(** [Partial<GestureRecognitionOptions>] *)
Record PartialOptions : Type := mkPartial {
  panThreshold' : option R;
  zoomThreshold' : option R;
  rotationThreshold' : option R;
  tapTimeout' : option R;
  tapRadius' : option R;
  longPressTimeout' : option R;
  undoHoldTime' : option R;
  swipeMinVelocity' : option R;
  swipeMinDistance' : option R;
  simultaneousRecognition' : option bool
}.

Definition noOptions : PartialOptions :=
  mkPartial None None None None None None None None None None.

Definition DEFAULT_GESTURE_OPTIONS : GestureRecognitionOptions :=
  mkOptions 10 0.1 (PI / 18) 300 20 500 800 100 50 true.

Definition merge (base : GestureRecognitionOptions) (given : PartialOptions)
    : GestureRecognitionOptions :=
  mkOptions
    (match panThreshold' given with Some v => v | None => panThreshold base end)
    (match zoomThreshold' given with Some v => v | None => zoomThreshold base end)
    (match rotationThreshold' given with Some v => v | None => rotationThreshold base end)
    (match tapTimeout' given with Some v => v | None => tapTimeout base end)
    (match tapRadius' given with Some v => v | None => tapRadius base end)
    (match longPressTimeout' given with Some v => v | None => longPressTimeout base end)
    (match undoHoldTime' given with Some v => v | None => undoHoldTime base end)
    (match swipeMinVelocity' given with Some v => v | None => swipeMinVelocity base end)
    (match swipeMinDistance' given with Some v => v | None => swipeMinDistance base end)
    (match simultaneousRecognition' given with Some v => v | None => simultaneousRecognition base end).

(** The accumulators.  [panState], [zoomState], [rotationState] and
    [undoState] are [{}] ([None]) or have every member set; [tapState] has
    members cleared one at a time. *)
Record PanState : Type := mkPan {
  pan_initialCentroid : Vec2;
  pan_lastCentroid : Vec2;
  pan_totalTranslation : Vec2;
  pan_velocity : Vec2;
  pan_startTime : R
}.

Record ZoomState : Type := mkZoom {
  zoom_initialSpread : R;
  zoom_lastSpread : R;
  zoom_scale : R;
  zoom_velocity : R;
  zoom_startTime : R
}.

Record RotationState : Type := mkRotation {
  rotation_initialAngle : R;
  rotation_lastAngle : R;
  rotation_totalRotation : R;
  rotation_velocity : R;
  rotation_startTime : R
}.

Record TapState : Type := mkTap {
  tap_startTime : option R;
  tap_startPosition : option Vec2;
  tap_tapCount : option nat;
  tap_lastTapTime : option R
}.

Record UndoState : Type := mkUndo {
  undo_startTime : R;
  undo_requiredHoldTime : R;
  undo_isConfirmed : bool
}.

(** [!x] for an optional number: [undefined] and [0] are falsy. *)
Definition falsy (x : option R) : bool :=
  match x with
  | None => true
  | Some v => v =? 0
  end.

Section WithPt.
Context {Pt : Type}.
Local Abbreviation PointerState := (@Pointer.PointerState Pt).

Record RecognizedGesture : Type := mkGesture {
  type : GestureType;
  phase : GesturePhase;
  timestamp : R;
  duration : R;
  pointers : list PointerState;
  centroid : Vec2;
  confidence : R;
  data : GestureData
}.

(** The object.  [activeGestures] is a [Map] keyed by gesture type, in
    insertion order. *)
Record GestureRecognizer : Type := mkRecognizer {
  options : GestureRecognitionOptions;
  activeGestures : list (GestureType * RecognizedGesture);
  gestureHistory : list RecognizedGesture;
  panState : option PanState;
  zoomState : option ZoomState;
  rotationState : option RotationState;
  tapState : TapState;
  undoState : option UndoState
}.

Definition emptyTap : TapState := mkTap None None None None.

Definition new (given : PartialOptions) : GestureRecognizer :=
  mkRecognizer (merge DEFAULT_GESTURE_OPTIONS given) [] [] None None None emptyTap None.

Definition updateOptions (g : GestureRecognizer) (newOptions : PartialOptions)
    : GestureRecognizer :=
  mkRecognizer (merge (options g) newOptions) (activeGestures g) (gestureHistory g)
               (panState g) (zoomState g) (rotationState g) (tapState g) (undoState g).

Definition set_activeGestures (g : GestureRecognizer)
    (v : list (GestureType * RecognizedGesture)) : GestureRecognizer :=
  mkRecognizer (options g) v (gestureHistory g) (panState g) (zoomState g)
               (rotationState g) (tapState g) (undoState g).
Definition set_gestureHistory (g : GestureRecognizer) (v : list RecognizedGesture)
    : GestureRecognizer :=
  mkRecognizer (options g) (activeGestures g) v (panState g) (zoomState g)
               (rotationState g) (tapState g) (undoState g).
Definition set_panState (g : GestureRecognizer) (v : option PanState) : GestureRecognizer :=
  mkRecognizer (options g) (activeGestures g) (gestureHistory g) v (zoomState g)
               (rotationState g) (tapState g) (undoState g).
Definition set_zoomState (g : GestureRecognizer) (v : option ZoomState) : GestureRecognizer :=
  mkRecognizer (options g) (activeGestures g) (gestureHistory g) (panState g) v
               (rotationState g) (tapState g) (undoState g).
Definition set_rotationState (g : GestureRecognizer) (v : option RotationState)
    : GestureRecognizer :=
  mkRecognizer (options g) (activeGestures g) (gestureHistory g) (panState g)
               (zoomState g) v (tapState g) (undoState g).
Definition set_tapState (g : GestureRecognizer) (v : TapState) : GestureRecognizer :=
  mkRecognizer (options g) (activeGestures g) (gestureHistory g) (panState g)
               (zoomState g) (rotationState g) v (undoState g).
Definition set_undoState (g : GestureRecognizer) (v : option UndoState) : GestureRecognizer :=
  mkRecognizer (options g) (activeGestures g) (gestureHistory g) (panState g)
               (zoomState g) (rotationState g) (tapState g) v.

(** [reset()] *)
Definition reset (g : GestureRecognizer) : GestureRecognizer :=
  mkRecognizer (options g) [] (gestureHistory g) None None None emptyTap None.

(** A recognizer method: the gesture it returns ([null] is [None]) and the
    object afterwards. *)
Definition Recognition : Type := Result (option RecognizedGesture) * GestureRecognizer.

Definition typeError {A} : Result A :=
  Throw "TypeError: Cannot read properties of undefined".

Fixpoint lookup (active : list (GestureType * RecognizedGesture)) (ty : GestureType)
    : option RecognizedGesture :=
  match active with
  | [] => None
  | (k, v) :: rest => if GestureType_eqb k ty then Some v else lookup rest ty
  end.

Fixpoint store (active : list (GestureType * RecognizedGesture)) (ty : GestureType)
    (gesture : RecognizedGesture) : list (GestureType * RecognizedGesture) :=
  match active with
  | [] => [(ty, gesture)]
  | (k, v) :: rest =>
      if GestureType_eqb k ty then (ty, gesture) :: rest
      else (k, v) :: store rest ty gesture
  end.

Definition isFinished (p : GesturePhase) : bool :=
  match p with ENDED | CANCELLED => true | _ => false end.

(** [cleanupFinishedGestures()] *)
Definition cleanupFinishedGestures (g : GestureRecognizer) : GestureRecognizer :=
  set_activeGestures g
    (filter (fun entry => negb (isFinished (phase (snd entry)))) (activeGestures g)).

(** [addToHistory(gesture)] *)
Definition addToHistory (g : GestureRecognizer) (gesture : RecognizedGesture)
    : GestureRecognizer :=
  let history := gestureHistory g ++ [gesture] in
  let maxHistorySize := 100%nat in
  set_gestureHistory g
    (if (maxHistorySize <? List.length history)%nat then tl history else history).

(** [getGesturePhase(gestureType, isActive)] *)
Definition getGesturePhase (g : GestureRecognizer) (gestureType : GestureType)
    (isActive : bool) : GesturePhase :=
  match lookup (activeGestures g) gestureType with
  | None => if isActive then BEGAN else POSSIBLE
  | Some existingGesture =>
      if isActive then
        match phase existingGesture with
        | BEGAN | CHANGED => CHANGED
        | _ => BEGAN
        end
      else ENDED
  end.

(** [calculateTapCount(currentTime)] *)
Definition calculateTapCount (g : GestureRecognizer) (currentTime : R) : nat :=
  let maxMultiTapInterval := 400 in
  match tap_lastTapTime (tapState g), tap_tapCount (tapState g) with
  | Some lastTapTime, Some tapCount =>
      if (lastTapTime =? 0) || (tapCount =? 0)%nat then 1%nat
      else
        let timeSinceLastTap := currentTime - lastTapTime in
        if timeSinceLastTap <=? maxMultiTapInterval then (tapCount + 1)%nat else 1%nat
  | _, _ => 1%nat
  end.

Definition clearTapStart (g : GestureRecognizer) : GestureRecognizer :=
  set_tapState g (mkTap None (tap_startPosition (tapState g))
                        (tap_tapCount (tapState g)) (tap_lastTapTime (tapState g))).

(** [recognizeTap(pointers, currentTime)] *)
Definition recognizeTap (g : GestureRecognizer) (pointers : list PointerState)
    (currentTime : R) : Recognition :=
  match pointers with
  | [pointer] =>
      if falsy (tap_startTime (tapState g)) then
        (Ok None,
         set_tapState g (mkTap (Some currentTime) (Some (Pointer.position pointer))
                               (tap_tapCount (tapState g))
                               (tap_lastTapTime (tapState g))))
      else
        match tap_startTime (tapState g), tap_startPosition (tapState g) with
        | Some startTime, Some startPosition =>
            let duration := currentTime - startTime in
            let movement := Vec2.distanceTo (Pointer.position pointer) startPosition in
            if (duration <=? tapTimeout (options g)) && (movement <=? tapRadius (options g))
            then
              let tapCount := calculateTapCount g currentTime in
              let gesture :=
                mkGesture TAP ENDED currentTime duration pointers
                          (Pointer.position pointer)
                          (1 - (movement / tapRadius (options g)) * 0.3)
                          (TapData (Pointer.position pointer) tapCount) in
              (Ok (Some gesture),
               set_tapState g (mkTap None (tap_startPosition (tapState g))
                                     (Some tapCount) (Some currentTime)))
            else if (duration >? tapTimeout (options g))
                    || (movement >? tapRadius (options g))
            then (Ok None, clearTapStart g)
            else (Ok None, g)
        | _, _ => (typeError, g)
        end
  | _ => (Ok None, g)
  end.

(** [recognizeLongPress(pointers, currentTime)] *)
Definition recognizeLongPress (g : GestureRecognizer) (pointers : list PointerState)
    (currentTime : R) : Recognition :=
  match pointers with
  | [pointer] =>
      match tap_startTime (tapState g), tap_startPosition (tapState g) with
      | Some startTime, Some startPosition =>
          if startTime =? 0 then (Ok None, g)
          else
            let duration := currentTime - startTime in
            let movement := Vec2.distanceTo (Pointer.position pointer) startPosition in
            if (duration >=? longPressTimeout (options g))
               && (movement <=? tapRadius (options g))
            then
              let gesture :=
                mkGesture LONG_PRESS BEGAN currentTime duration pointers
                          (Pointer.position pointer)
                          (1 - (movement / tapRadius (options g)) * 0.2) NoData in
              (Ok (Some gesture), clearTapStart g)
            else (Ok None, g)
      | _, _ => (Ok None, g)
      end
  | _ => (Ok None, g)
  end.

(** [recognizeSwipe(pointers, currentTime)] *)
Definition recognizeSwipe (g : GestureRecognizer) (pointers : list PointerState)
    (currentTime : R) : Recognition :=
  match pointers with
  | [pointer] =>
      match tap_startTime (tapState g), tap_startPosition (tapState g) with
      | Some startTime, Some startPosition =>
          if startTime =? 0 then (Ok None, g)
          else
            let duration := currentTime - startTime in
            let displacement := Vec2.subtract (Pointer.position pointer) startPosition in
            let distance := Vec2.length displacement in
            let velocity := if duration >? 0 then (distance / duration) * 1000 else 0 in
            if (velocity >=? swipeMinVelocity (options g))
               && (distance >=? swipeMinDistance (options g))
            then
              let direction := Vec2.normalized displacement in
              let gesture :=
                mkGesture SWIPE ENDED currentTime duration pointers
                          (Pointer.position pointer)
                          (Rmin 1 (velocity / (swipeMinVelocity (options g) * 3)))
                          (SwipeData direction velocity distance) in
              (Ok (Some gesture), clearTapStart g)
            else (Ok None, g)
      | _, _ => (Ok None, g)
      end
  | _ => (Ok None, g)
  end.

(** [recognizePan(pointers, currentTime)] *)
Definition recognizePan (g : GestureRecognizer) (pointers : list PointerState)
    (currentTime : R) : Recognition :=
  if negb (List.length pointers =? 2)%nat then (Ok None, g)
  else
    match Pointer.calculateCentroid pointers with
    | Ok centroid =>
        match panState g with
        | None =>
            (Ok None,
             set_panState g (Some (mkPan centroid centroid Vec2.ZERO Vec2.ZERO currentTime)))
        | Some pan =>
            let translation := Vec2.subtract centroid (pan_initialCentroid pan) in
            let instantTranslation := Vec2.subtract centroid (pan_lastCentroid pan) in
            let duration := currentTime - pan_startTime pan in
            let timeDelta := 16 in
            let velocity := Vec2.multiply instantTranslation (1000 / timeDelta) in
            let g' :=
              set_panState g (Some (mkPan (pan_initialCentroid pan) centroid translation
                                          velocity (pan_startTime pan))) in
            if Vec2.length translation >=? panThreshold (options g) then
              let phase :=
                getGesturePhase g' PAN (Vec2.length translation >? panThreshold (options g)) in
              let gesture :=
                mkGesture PAN phase currentTime duration pointers centroid
                          (Rmin 1 (Vec2.length translation / (panThreshold (options g) * 2)))
                          (PanData translation velocity (Vec2.length translation)) in
              (Ok (Some gesture), g')
            else (Ok None, g')
        end
    | Throw msg => (Throw msg, g)
    | Diverges => (Diverges, g)
    end.

(** [recognizeZoom(pointers, currentTime)] *)
Definition recognizeZoom (g : GestureRecognizer) (pointers : list PointerState)
    (currentTime : R) : Recognition :=
  if negb (List.length pointers =? 2)%nat then (Ok None, g)
  else
    match (currentSpread <- Pointer.calculateSpread pointers ;;
           centroid <- Pointer.calculateCentroid pointers ;;
           Ok (currentSpread, centroid)) with
    | Ok (currentSpread, centroid) =>
        let initialise :=
          (Ok None,
           set_zoomState g (Some (mkZoom currentSpread currentSpread 1 0 currentTime))) in
        match zoomState g with
        | None => initialise
        | Some zoom =>
            if zoom_initialSpread zoom =? 0 then initialise
            else
              let scale :=
                if zoom_initialSpread zoom >? 0
                then currentSpread / zoom_initialSpread zoom else 1 in
              let scaleChange := Rabs (scale - 1) in
              let timeDelta := 16 in
              let spreadDelta := currentSpread - zoom_lastSpread zoom in
              let velocity := (spreadDelta / timeDelta) * 1000 in
              let g' :=
                set_zoomState g (Some (mkZoom (zoom_initialSpread zoom) currentSpread scale
                                              velocity (zoom_startTime zoom))) in
              if scaleChange >=? zoomThreshold (options g) then
                let duration := currentTime - zoom_startTime zoom in
                let phase :=
                  getGesturePhase g' ZOOM (scaleChange >? zoomThreshold (options g)) in
                let gesture :=
                  mkGesture ZOOM phase currentTime duration pointers centroid
                            (Rmin 1 (scaleChange / (zoomThreshold (options g) * 2)))
                            (ZoomData scale velocity centroid) in
                (Ok (Some gesture), g')
              else (Ok None, g')
        end
    | Throw msg => (Throw msg, g)
    | Diverges => (Diverges, g)
    end.

(** [recognizeRotation(pointers, currentTime)] *)
Definition recognizeRotation (g : GestureRecognizer) (pointers : list PointerState)
    (currentTime : R) : Recognition :=
  match pointers with
  | [first; second] =>
      let p1 := Pointer.position first in
      let p2 := Pointer.position second in
      let vector := Vec2.subtract p2 p1 in
      let currentAngle := Math_atan2 (Vec2.y vector) (Vec2.x vector) in
      let centroid := Vec2.multiply (Vec2.add p1 p2) 0.5 in
      match rotationState g with
      | None =>
          (Ok None,
           set_rotationState g
             (Some (mkRotation currentAngle currentAngle 0 0 currentTime)))
      | Some rotation =>
          let angleDelta := currentAngle - rotation_lastAngle rotation in
          let angleDelta := if angleDelta >? PI then angleDelta - 2 * PI else angleDelta in
          let angleDelta := if angleDelta <? - PI then angleDelta + 2 * PI else angleDelta in
          let totalRotation := rotation_totalRotation rotation + angleDelta in
          let timeDelta := 16 in
          let velocity := (angleDelta / timeDelta) * 1000 in
          let g' :=
            set_rotationState g
              (Some (mkRotation (rotation_initialAngle rotation) currentAngle
                                totalRotation velocity (rotation_startTime rotation))) in
          if Rabs totalRotation >=? rotationThreshold (options g) then
            let duration := currentTime - rotation_startTime rotation in
            let phase :=
              getGesturePhase g' ROTATE
                (Rabs totalRotation >? rotationThreshold (options g)) in
            let gesture :=
              mkGesture ROTATE phase currentTime duration pointers centroid
                        (Rmin 1 (Rabs totalRotation / (rotationThreshold (options g) * 2)))
                        (RotationData totalRotation velocity centroid) in
            (Ok (Some gesture), g')
          else (Ok None, g')
      end
  | _ => (Ok None, g)
  end.

(** [recognizeUndo(pointers, currentTime)] *)
Definition recognizeUndo (g : GestureRecognizer) (pointers : list PointerState)
    (currentTime : R) : Recognition :=
  if (List.length pointers <? 3)%nat then (Ok None, g)
  else
    match Pointer.calculateCentroid pointers with
    | Ok centroid =>
        let initialise :=
          (Ok None,
           set_undoState g (Some (mkUndo currentTime (undoHoldTime (options g)) false))) in
        match undoState g with
        | None => initialise
        | Some undo =>
            if undo_startTime undo =? 0 then initialise
            else
              let holdDuration := currentTime - undo_startTime undo in
              let confirmationProgress :=
                Rmin 1 (holdDuration / undo_requiredHoldTime undo) in
              let confirmed := holdDuration >=? undo_requiredHoldTime undo in
              let phase :=
                if confirmed
                then (if undo_isConfirmed undo then ENDED else CHANGED)
                else BEGAN in
              let g' :=
                if confirmed
                then set_undoState g (Some (mkUndo (undo_startTime undo)
                                                   (undo_requiredHoldTime undo) true))
                else g in
              let gesture :=
                mkGesture UNDO phase currentTime holdDuration pointers centroid
                          confirmationProgress
                          (UndoData holdDuration confirmationProgress) in
              (Ok (Some gesture), g')
        end
    | Throw msg => (Throw msg, g)
    | Diverges => (Diverges, g)
    end.

(** One recognizer after another, collecting what they return. *)
Definition andThen (step : GestureRecognizer -> Recognition)
    (acc : Result (list RecognizedGesture) * GestureRecognizer)
    : Result (list RecognizedGesture) * GestureRecognizer :=
  match acc with
  | (Ok recognized, g) =>
      match step g with
      | (Ok (Some gesture), g') => (Ok (recognized ++ [gesture]), g')
      | (Ok None, g') => (Ok recognized, g')
      | (Throw msg, g') => (Throw msg, g')
      | (Diverges, g') => (Diverges, g')
      end
  | failed => failed
  end.

(** The closing loop of [recognizeGestures]. *)
Definition record (g : GestureRecognizer) (gesture : RecognizedGesture)
    : GestureRecognizer :=
  let g := set_activeGestures g (store (activeGestures g) (type gesture) gesture) in
  if isFinished (phase gesture) then addToHistory g gesture else g.

(** [recognizeGestures(pointers, touchMode)]; [performance_now] is the
    reading of [performance.now()] at its first line. *)
Definition recognizeGestures (g : GestureRecognizer) (pointers : list PointerState)
    (touchMode : TouchState.TouchMode) (performance_now : R)
    : Result (list RecognizedGesture) * GestureRecognizer :=
  let currentTime := performance_now in
  let g := cleanupFinishedGestures g in
  let recognition :=
    match touchMode with
    | TouchState.DRAWING =>
        if (List.length pointers =? 1)%nat then
          andThen (fun g => recognizeSwipe g pointers currentTime)
            (andThen (fun g => recognizeLongPress g pointers currentTime)
               (andThen (fun g => recognizeTap g pointers currentTime) (Ok [], g)))
        else (Ok [], g)
    | TouchState.PAN_ZOOM =>
        if (List.length pointers =? 2)%nat then
          andThen (fun g => recognizeRotation g pointers currentTime)
            (andThen (fun g => recognizeZoom g pointers currentTime)
               (andThen (fun g => recognizePan g pointers currentTime) (Ok [], g)))
        else (Ok [], g)
    | TouchState.UNDO =>
        if (3 <=? List.length pointers)%nat then
          andThen (fun g => recognizeUndo g pointers currentTime) (Ok [], g)
        else (Ok [], g)
    | _ => (Ok [], g)
    end in
  match recognition with
  | (Ok recognizedGestures, g) => (Ok recognizedGestures, fold_left record recognizedGestures g)
  | failed => failed
  end.

(** [getActiveGestures()] *)
Definition getActiveGestures (g : GestureRecognizer)
    : list (GestureType * RecognizedGesture) := activeGestures g.

(** A sequence of evaluations in one touch mode with the same pointers
    held, at the given clock readings: what each evaluation returned. *)
Fixpoint evaluations (g : GestureRecognizer) (pointers : list PointerState)
    (touchMode : TouchState.TouchMode) (clock : list R)
    : list (Result (list RecognizedGesture)) * GestureRecognizer :=
  match clock with
  | [] => ([], g)
  | now :: later =>
      let (returned, g') := recognizeGestures g pointers touchMode now in
      let (rest, g'') := evaluations g' pointers touchMode later in
      (returned :: rest, g'')
  end.

(** What a caller does with a recognizer: the public methods that change
    it. *)
Inductive Call : Type :=
| Recognize (pointers : list PointerState) (touchMode : TouchState.TouchMode)
            (performance_now : R)
| UpdateOptions (newOptions : PartialOptions)
| Reset.

Definition perform (g : GestureRecognizer) (c : Call) : GestureRecognizer :=
  match c with
  | Recognize pointers touchMode performance_now =>
      snd (recognizeGestures g pointers touchMode performance_now)
  | UpdateOptions newOptions => updateOptions g newOptions
  | Reset => reset g
  end.

(** A step that leaves the history and the active gestures alone. *)
Definition keeps_records (step : GestureRecognizer -> Recognition) : Prop :=
  forall g, gestureHistory (snd (step g)) = gestureHistory g
            /\ activeGestures (snd (step g)) = activeGestures g.

(** The history holds at most 100 gestures, all of them finished, and every
    active gesture is filed under its own type. *)
Definition consistent (g : GestureRecognizer) : Prop :=
  (List.length (gestureHistory g) <= 100)%nat
  /\ Forall (fun gesture => isFinished (phase gesture) = true) (gestureHistory g)
  /\ Forall (fun entry => fst entry = type (snd entry)) (activeGestures g).

End WithPt.

(** Whether one of the [earlier] clock readings already lay a full hold
    time after [start]. *)
Definition confirmedBy (start required : R) (earlier : list R) : bool :=
  existsb (fun reading => reading - start >=? required) earlier.

End GestureRecognizer.

(** * Points in three coordinate systems ([pt.ts]) *)

Module Pt.

Inductive CoordinateSystem : Type := SCREEN | VIEWPORT | WORLD.

Record CoordinateTransforms : Type := mkTransforms {
  screenToViewport : Mat3.t;
  viewportToWorld : Mat3.t;
  worldToViewport : Mat3.t;
  viewportToScreen : Mat3.t
}.

(** The object: the world coordinates, the two lazily filled caches and the
    transforms. *)
Record t : Type := mkPt {
  worldCoordinates : Vec2;
  screenCoordinates : option Vec2;
  viewportCoordinates : option Vec2;
  transforms : CoordinateTransforms
}.

(** The constructor. *)
Definition new (coordinates : Vec2) (system : CoordinateSystem)
    (transforms : CoordinateTransforms) : t :=
  match system with
  | WORLD => mkPt coordinates None None transforms
  | VIEWPORT =>
      mkPt (Mat3.transformPoint (viewportToWorld transforms) coordinates)
           None (Some coordinates) transforms
  | SCREEN =>
      let viewport := Mat3.transformPoint (screenToViewport transforms) coordinates in
      mkPt (Mat3.transformPoint (viewportToWorld transforms) viewport)
           (Some coordinates) None transforms
  end.

Definition fromScreen (screenCoords : Vec2) (transforms : CoordinateTransforms) : t :=
  new screenCoords SCREEN transforms.

Definition fromViewport (viewportCoords : Vec2) (transforms : CoordinateTransforms) : t :=
  new viewportCoords VIEWPORT transforms.

Definition fromWorld (worldCoords : Vec2) (transforms : CoordinateTransforms) : t :=
  new worldCoords WORLD transforms.

(** The getters; [viewport] and [screen] fill their cache, so they return the
    object next to the value. *)
Definition world (p : t) : Vec2 := worldCoordinates p.

Definition viewport (p : t) : Vec2 * t :=
  match viewportCoordinates p with
  | Some v => (v, p)
  | None =>
      let v := Mat3.transformPoint (worldToViewport (transforms p)) (worldCoordinates p) in
      (v, mkPt (worldCoordinates p) (screenCoordinates p) (Some v) (transforms p))
  end.

Definition screen (p : t) : Vec2 * t :=
  match screenCoordinates p with
  | Some s => (s, p)
  | None =>
      let (v, p) := viewport p in
      let s := Mat3.transformPoint (viewportToScreen (transforms p)) v in
      (s, mkPt (worldCoordinates p) (Some s) (viewportCoordinates p) (transforms p))
  end.

Definition inSystem (p : t) (system : CoordinateSystem) : Vec2 * t :=
  match system with
  | WORLD => (world p, p)
  | VIEWPORT => viewport p
  | SCREEN => screen p
  end.

(** The methods below read [this] and then [other]; each returns the two
    objects after the reads. *)
Definition distanceTo (p other : t) (system : CoordinateSystem) : R * (t * t) :=
  let (a, p) := inSystem p system in
  let (b, other) := inSystem other system in
  (Vec2.distanceTo a b, (p, other)).

Definition distanceToSquared (p other : t) (system : CoordinateSystem) : R * (t * t) :=
  let (a, p) := inSystem p system in
  let (b, other) := inSystem other system in
  (Vec2.distanceToSquared a b, (p, other)).

Definition add (p : t) (vector : Vec2) (system : CoordinateSystem) : t * t :=
  let (a, p) := inSystem p system in
  let coords := Vec2.add a vector in
  (new coords system (transforms p), p).

Definition subtract (p other : t) (system : CoordinateSystem) : Vec2 * (t * t) :=
  let (a, p) := inSystem p system in
  let (b, other) := inSystem other system in
  (Vec2.subtract a b, (p, other)).

Definition lerp (p other : t) (s : R) (system : CoordinateSystem) : t * (t * t) :=
  let (a, p) := inSystem p system in
  let (b, other) := inSystem other system in
  let coords := Vec2.lerp a b s in
  (new coords system (transforms p), (p, other)).

Definition withTransforms (p : t) (newTransforms : CoordinateTransforms) : t :=
  new (worldCoordinates p) WORLD newTransforms.

Definition isEqual (p other : t) (system : CoordinateSystem) (epsilon : R)
    : bool * (t * t) :=
  let (a, p) := inSystem p system in
  let (b, other) := inSystem other system in
  (Vec2.isEqual a b epsilon, (p, other)).

Definition isNearTouch (p other : t) (tolerancePixels : R) : bool * (t * t) :=
  let (d, objects) := distanceTo p other SCREEN in
  (d <=? tolerancePixels, objects).

Definition snapToGrid (p : t) (gridSize : R) (system : CoordinateSystem) : t * t :=
  let (coords, p) := inSystem p system in
  let snappedCoords :=
    Vec2.mk (Math_round (Vec2.x coords / gridSize) * gridSize)
            (Math_round (Vec2.y coords / gridSize) * gridSize) in
  (new snappedCoords system (transforms p), p).

(** [snapToPoint] returns one of the two objects themselves. *)
Definition snapToPoint (p other : t) (snapDistance : R) (system : CoordinateSystem)
    : t :=
  let '(d, (p, other)) := distanceTo p other system in
  if d <=? snapDistance then other else p.

(** ** TransformContext *)

Record TransformContext : Type := mkContext { ctx_transforms : CoordinateTransforms }.

(** The default of the constructor's third parameter,
    [window.devicePixelRatio || 1]. *)
Definition defaultDevicePixelRatio (window_devicePixelRatio : R) : R :=
  if window_devicePixelRatio =? 0 then 1 else window_devicePixelRatio.

(** [new TransformContext(viewportSize, worldTransform, devicePixelRatio)]:
    [worldTransform.inverse] can throw. *)
Definition newTransformContext (viewportSize : Vec2) (worldTransform : Mat3.t)
    (devicePixelRatio : R) : Result TransformContext :=
  let screenToViewport := Mat3.scale (1 / devicePixelRatio) None in
  let viewportToScreen := Mat3.scale devicePixelRatio None in
  let worldToViewport := worldTransform in
  viewportToWorld <- Mat3.inverse worldTransform ;;
  Ok (mkContext (mkTransforms screenToViewport viewportToWorld
                              worldToViewport viewportToScreen)).

Definition createPointFromScreen (c : TransformContext) (screenCoords : Vec2) : t :=
  fromScreen screenCoords (ctx_transforms c).

Definition createPointFromViewport (c : TransformContext) (viewportCoords : Vec2) : t :=
  fromViewport viewportCoords (ctx_transforms c).

Definition createPointFromWorld (c : TransformContext) (worldCoords : Vec2) : t :=
  fromWorld worldCoords (ctx_transforms c).

Definition withWorldTransform (c : TransformContext) (newWorldTransform : Mat3.t)
    : Result TransformContext :=
  let screenToViewport := screenToViewport (ctx_transforms c) in
  newTransformContext Vec2.ZERO newWorldTransform
    (1 / Vec2.x (Mat3.get_scale screenToViewport)).

Definition adoptPoint (c : TransformContext) (point : t) : t :=
  withTransforms point (ctx_transforms c).

(** [Pt.createTransformContext(canvasSize, panOffset, zoomLevel,
    devicePixelRatio)] *)
Definition createTransformContext (canvasSize panOffset : Vec2) (zoomLevel : R)
    (devicePixelRatio : R) : Result TransformContext :=
  let worldTransform :=
    Mat3.translate_vec
      (Mat3.scaleBy (Mat3.translate_vec Mat3.IDENTITY (Vec2.multiply canvasSize 0.5))
                    zoomLevel None)
      panOffset in
  newTransformContext canvasSize worldTransform devicePixelRatio.

End Pt.

(** * The specification's readings that the code does not bear out

    Each is stated here as the specification words it, to be compared with
    what the embedded code does. *)

Module AsSpecified.

(** Modelled from the spec: "fewer than 3 points: no corners, one
    degenerate line run." *)
Definition degenerate_line_run (d : CornerDetector.CornerDetector)
    (points : list Vec2) : Prop :=
  (List.length points < 3)%nat ->
  let result := CornerDetector.detectCorners d points in
  CornerDetector.cornerIndices result = []
  /\ exists run, CornerDetector.segments result = [run]
                 /\ CornerDetector.type run = CornerDetector.line.

(** Modelled from the spec: "a two-point run always fits as a line with
    zero error." *)
Definition two_point_run_fits_line (o : StrokeToGeometry.ConversionOptions)
    (p q : Vec2) (w : Segment.World) : Prop :=
  exists fit id,
    fst (StrokeToGeometry.fitSegment o [p; q] w) = Ok (Some fit)
    /\ StrokeToGeometry.type fit = StrokeToGeometry.LINE
    /\ StrokeToGeometry.segment fit = Segment.Line (Segment.mkLine id p q)
    /\ StrokeToGeometry.error fit = 0.

(** Modelled from the spec: "the new sample is dropped and the stroke
    continues rather than failing outright": at the cap [addPoint] returns
    normally, the stored points are unchanged, the stroke stays active, and the
    operations that follow on the stroke, a further [addPoint] and
    [endStroke], still succeed. *)
Definition drop_at_cap_keeps_stroke_usable {Pt : Type} (Pt_lerp : Pt -> Pt -> R -> Pt)
    (sp : @StrokeProcessor.StrokeProcessor Pt) (point : @StrokeProcessor.StrokePoint Pt)
    (now : R) : Prop :=
  forall a,
    StrokeProcessor.activeStroke sp = Some a ->
    (StrokeProcessor.maxPointsPerStroke (StrokeProcessor.options sp)
     <= List.length (StrokeProcessor.active_points a))%nat ->
    let sp' := StrokeProcessor.after (StrokeProcessor.addPoint sp point) in
    StrokeProcessor.outcome (StrokeProcessor.addPoint sp point) = Ok tt
    /\ StrokeProcessor.activeStrokePoints sp' = StrokeProcessor.active_points a
    /\ StrokeProcessor.isCapturing sp' = true
    /\ (forall next,
          StrokeProcessor.outcome (StrokeProcessor.addPoint sp' next) = Ok tt)
    /\ exists stroke,
          StrokeProcessor.outcome (StrokeProcessor.endStroke Pt_lerp sp' now) = Ok stroke.

(** Modelled from the spec: "exactly one notification fires per pointer
    event that causes a transition." *)
Definition one_notification_per_transition {Pt : Type}
    (m : @TouchState.TouchStateManager Pt) (e : @TouchState.Event Pt) : Prop :=
  TouchState.isPointerEvent e = true ->
  TouchState.currentMode (TouchState.stateAfter e m) <> TouchState.currentMode m ->
  List.length (TouchState.notificationsOf e m) = 1%nat.

(** Modelled from the spec: "three or more pointers held continuously past
    a fixed hold duration: ended, with confirmation 1".  If the hold duration has elapsed at one of the
    evaluations, some evaluation of the sequence returns the undo gesture in
    phase ended with progress 1. *)
Definition undo_ends_once_held {Pt : Type}
    (g : @GestureRecognizer.GestureRecognizer Pt)
    (pointers : list (@Pointer.PointerState Pt)) (start : R) (clock : list R) : Prop :=
  forall i now,
    nth_error clock i = Some now ->
    GestureRecognizer.undoHoldTime (GestureRecognizer.options g) <= now - start ->
    exists j gesture,
      nth_error (fst (GestureRecognizer.evaluations g pointers TouchState.UNDO
                        (start :: clock))) j
      = Some (Ok [gesture])
      /\ GestureRecognizer.phase gesture = GestureRecognizer.ENDED
      /\ GestureRecognizer.confidence gesture = 1.

End AsSpecified.

(** * Sample inputs *)

Module Sample.

Definition world : Segment.World := Segment.mkWorld (fun _ => 0) (fun _ => 0) 0.

Definition id : Segment.Id := Segment.mkId Segment.LINE 0 0.

Definition line_fit : StrokeToGeometry.GeometryFitResult :=
  StrokeToGeometry.mkFit
    (Segment.Line (Segment.mkLine id (Vec2.mk 0 0) (Vec2.mk 30 0)))
    StrokeToGeometry.LINE 0.7 1 [Vec2.mk 0 0; Vec2.mk 30 0]
    (StrokeToGeometry.mkMetadata "least_squares_endpoints" None [("linearity", 0.7)]).

Definition arc_fit : StrokeToGeometry.GeometryFitResult :=
  StrokeToGeometry.mkFit
    (Segment.Arc (Segment.mkArc id (Vec2.mk 15 0) 15 PI (- PI)))
    StrokeToGeometry.ARC 0.9 0 [Vec2.mk 0 0; Vec2.mk 30 0]
    (StrokeToGeometry.mkMetadata "three_point_fit" None [("radius", 15)]).

(** A stylus sample at [(x, 0)] taken at time [t]; world positions are [unit]. *)
Definition point (x t : R) : @StrokeProcessor.StrokePoint unit :=
  StrokeProcessor.mkPoint (Vec2.mk x 0) tt t 0.5 0 0 Vec2.ZERO.

Definition unit_lerp (a b : unit) (s : R) : unit := tt.

(** A processor whose stroke may hold a single point. *)
Definition capped : @StrokeProcessor.StrokeProcessor unit :=
  snd (StrokeProcessor.startStroke
         (StrokeProcessor.new
            (StrokeProcessor.mkPartial None None None None None None (Some 1%nat)))
         (point 0 1) 1).

(** A processor configured with a target spacing of 0 and a cap of two
    points, after [startStroke] and one [addPoint]: its stroke is full. *)
Definition capped_unspaced : @StrokeProcessor.StrokeProcessor unit :=
  StrokeProcessor.after
    (StrokeProcessor.addPoint
       (snd (StrokeProcessor.startStroke
               (StrokeProcessor.new
                  (StrokeProcessor.mkPartial (Some 0) None None None None None
                                             (Some 2%nat)))
               (point 0 1) 1))
       (point 10 2)).

(** A finger with the given identifier at [(x, y)] at time [t]. *)
Definition finger (id : Z) (x y t : R) : @Pointer.PointerState unit :=
  Pointer.mkPointer id Pointer.TOUCH (Vec2.mk x y) tt 0.5 0 0 0 0 1 1 t
                    Pointer.PRIMARY 1 (id =? 1)%Z.

Definition three_fingers : list (@Pointer.PointerState unit) :=
  [finger 1 0 0 1; finger 2 10 0 1; finger 3 20 0 1].

(** A second world, whose clock and random source read differently. *)
Definition later_world : Segment.World :=
  Segment.mkWorld (fun _ => 5) (fun _ => 0.5) 0.

(** A processed stroke of two resampled points, 30 apart. *)
Definition stroke : @StrokeProcessor.ProcessedStroke unit :=
  StrokeProcessor.mkProcessed
    (StrokeProcessor.mkRaw (StrokeProcessor.mkStrokeId 1 1) [point 0 1; point 30 2] 1 2
       (StrokeProcessor.mkBox (Vec2.mk 0 0) (Vec2.mk 30 0) (Vec2.mk 30 0))
       30 Vec2.ZERO 0 0.5)
    [point 0 1; point 30 2] [point 0 1; point 30 2] [] 1.

End Sample.

(** * Properties *)

(** ** Comparisons *)

Lemma ltb_iff (a b : R) : (a <? b) = true <-> a < b.
Proof. unfold JS.ltb. destruct (Rlt_dec a b); split; intros; try lra; discriminate. Qed.

Lemma ltb_false_iff (a b : R) : (a <? b) = false <-> b <= a.
Proof. unfold JS.ltb. destruct (Rlt_dec a b); split; intros; try lra; discriminate. Qed.

Lemma leb_iff (a b : R) : (a <=? b) = true <-> a <= b.
Proof. unfold JS.leb. destruct (Rle_dec a b); split; intros; try lra; discriminate. Qed.

Lemma leb_false_iff (a b : R) : (a <=? b) = false <-> b < a.
Proof. unfold JS.leb. destruct (Rle_dec a b); split; intros; try lra; discriminate. Qed.

Lemma eqb_iff (a b : R) : (a =? b) = true <-> a = b.
Proof. unfold JS.eqb. destruct (Req_dec_T a b); split; intros; try lra; discriminate. Qed.

Lemma eqb_false_iff (a b : R) : (a =? b) = false <-> a <> b.
Proof.
  unfold JS.eqb. destruct (Req_dec_T a b); split; intros; try congruence; try discriminate.
Qed.

(** Decide the comparisons of a goal whose operands are numerals. *)
Ltac js_compare :=
  unfold JS.gtb, JS.geb in *;
  repeat match goal with
    | |- context [JS.ltb ?a ?b] =>
        first [ rewrite (proj2 (ltb_iff a b)) by lra
              | rewrite (proj2 (ltb_false_iff a b)) by lra ]
    | |- context [JS.leb ?a ?b] =>
        first [ rewrite (proj2 (leb_iff a b)) by lra
              | rewrite (proj2 (leb_false_iff a b)) by lra ]
    | |- context [JS.eqb ?a ?b] =>
        first [ rewrite (proj2 (eqb_iff a b)) by lra
              | rewrite (proj2 (eqb_false_iff a b)) by lra ]
    end.

Lemma Rmax_0_Rmin_1_bounds (s : R) : 0 <= Rmax 0 (Rmin 1 s) <= 1.
Proof.
  unfold Rmax, Rmin.
  destruct (Rle_dec 1 s); destruct (Rle_dec 0 _); lra.
Qed.

(** ** The loops on numbers leave on their computed bounds

    The bounds are for real numbers.  In double arithmetic a subtraction can
    be absorbed ([1e17 - 2] is [1e17]) and such a loop then makes no
    progress; nothing below states that the loops end in the code. *)

Section LoopBounds.
Import Segment.

Lemma lt_INR_to_nat_up (x : R) : x < INR (Z.to_nat (up x)).
Proof.
  destruct (archimed x) as [Hup _].
  destruct (Z_lt_le_dec (up x) 0) as [Hneg | Hpos].
  - replace (Z.to_nat (up x)) with 0%nat by lia.
    apply IZR_lt in Hneg. cbn. lra.
  - rewrite INR_IZR_INZ, Z2Nat.id by exact Hpos. lra.
Qed.

Lemma lt_turns (angle : R) : Rabs angle < INR (turns angle) * (PI * 2).
Proof.
  unfold turns. pose proof PI_RGT_0 as Hpi.
  pose proof (lt_INR_to_nat_up (Rabs angle / (PI * 2))) as H.
  apply (Rmult_lt_compat_r (PI * 2)) in H; [|lra].
  unfold Rdiv in H. rewrite Rmult_assoc, Rinv_l, Rmult_1_r in H by lra. exact H.
Qed.

Lemma subtract_turns_spec (n : nat) :
  forall angle,
    angle <= PI + INR n * (PI * 2) ->
    subtract_turns n angle <= PI
    /\ (angle <= PI -> subtract_turns n angle = angle)
    /\ (PI < angle -> - PI < subtract_turns n angle).
Proof.
  pose proof PI_RGT_0 as Hpi.
  induction n as [|n IH]; intros angle H.
  - cbn in *. repeat split; intros; lra.
  - rewrite S_INR in H. cbn [subtract_turns]. unfold JS.gtb.
    destruct (PI <? angle) eqn:E.
    + apply ltb_iff in E.
      destruct (IH (angle - PI * 2)) as [H1 [H2 H3]]; [lra|].
      repeat split; [exact H1 | intros; lra |].
      intros _. destruct (Rle_dec (angle - PI * 2) PI) as [Hle | Hgt].
      * rewrite H2 by exact Hle. lra.
      * apply H3. lra.
    + apply ltb_false_iff in E. repeat split; intros; lra.
Qed.

Lemma add_turns_spec (n : nat) :
  forall angle,
    - PI - INR n * (PI * 2) <= angle ->
    - PI <= add_turns n angle
    /\ (- PI <= angle -> add_turns n angle = angle)
    /\ (angle < - PI -> add_turns n angle < PI).
Proof.
  pose proof PI_RGT_0 as Hpi.
  induction n as [|n IH]; intros angle H.
  - cbn in *. repeat split; intros; lra.
  - rewrite S_INR in H. cbn [add_turns].
    destruct (angle <? - PI) eqn:E.
    + apply ltb_iff in E.
      destruct (IH (angle + PI * 2)) as [H1 [H2 H3]]; [lra|].
      repeat split; [exact H1 | intros; lra |].
      intros _. destruct (Rle_dec (- PI) (angle + PI * 2)) as [Hle | Hgt].
      * rewrite H2 by exact Hle. lra.
      * apply H3. lra.
    + apply ltb_false_iff in E. repeat split; intros; lra.
Qed.

(** Both loops of [normalizeAngle] end on their guards: the result lies
    between -PI and PI, and an angle already there is returned as it is. *)
Lemma normalizeAngle_range (angle : R) :
  - PI <= normalizeAngle angle <= PI
  /\ (- PI <= angle <= PI -> normalizeAngle angle = angle).
Proof.
  pose proof PI_RGT_0 as Hpi.
  unfold normalizeAngle.
  set (a1 := subtract_turns (turns angle) angle).
  destruct (subtract_turns_spec (turns angle) angle) as [H1 [H2 H3]].
  { pose proof (lt_turns angle). pose proof (Rle_abs angle). lra. }
  fold a1 in H1, H2, H3.
  destruct (add_turns_spec (turns a1) a1) as [K1 [K2 K3]].
  { pose proof (lt_turns a1). pose proof (Rle_abs (- a1)).
    rewrite Rabs_Ropp in *. lra. }
  split.
  - split; [exact K1|].
    destruct (Rle_dec (- PI) a1) as [Hle | Hgt].
    + rewrite K2 by exact Hle. exact H1.
    + apply Rlt_le, K3. lra.
  - intros [Hlo Hhi]. rewrite K2; rewrite H2 by exact Hhi; auto.
Qed.

(** With a positive spacing the resampling loop returns. *)
Lemma resampleWhile_returns {Pt : Type} (Pt_lerp : Pt -> Pt -> R -> Pt)
    (targetSpacing segmentLength : R)
    (previousPoint currentPoint : @StrokeProcessor.StrokePoint Pt) (bound : nat) :
  forall accumulatedDistance result,
    0 < targetSpacing ->
    accumulatedDistance < INR bound * targetSpacing ->
    exists r,
      StrokeProcessor.resampleWhile Pt_lerp bound targetSpacing segmentLength
        previousPoint currentPoint accumulatedDistance result = Ok r.
Proof.
  induction bound as [|bound IH]; intros acc result Hpos Hlt.
  - cbn in *. unfold JS.geb.
    destruct (targetSpacing <=? acc) eqn:E; [|eauto].
    apply leb_iff in E. lra.
  - rewrite S_INR in Hlt. cbn [StrokeProcessor.resampleWhile]. unfold JS.geb.
    destruct (targetSpacing <=? acc) eqn:E; [|eauto].
    apply IH; [exact Hpos | lra].
Qed.

Lemma resampleWhile_returns_on_its_bound {Pt : Type} (Pt_lerp : Pt -> Pt -> R -> Pt)
    (targetSpacing segmentLength : R)
    (previousPoint currentPoint : @StrokeProcessor.StrokePoint Pt)
    (accumulatedDistance : R) (result : list StrokeProcessor.StrokePoint) :
  0 < targetSpacing ->
  exists r,
    StrokeProcessor.resampleWhile Pt_lerp
      (StrokeProcessor.resampleBound targetSpacing accumulatedDistance)
      targetSpacing segmentLength previousPoint currentPoint accumulatedDistance result
    = Ok r.
Proof.
  intros Hpos. apply resampleWhile_returns; [exact Hpos|].
  unfold StrokeProcessor.resampleBound, JS.gtb.
  rewrite (proj2 (ltb_iff 0 targetSpacing)) by exact Hpos.
  pose proof (lt_INR_to_nat_up (accumulatedDistance / targetSpacing)) as H.
  apply (Rmult_lt_compat_r targetSpacing) in H; [|exact Hpos].
  unfold Rdiv in H. rewrite Rmult_assoc, Rinv_l, Rmult_1_r in H by lra. exact H.
Qed.

(** With a spacing of zero the loop never exits once entered. *)
Lemma resampleWhile_zero_spacing {Pt : Type} (Pt_lerp : Pt -> Pt -> R -> Pt)
    (segmentLength : R)
    (previousPoint currentPoint : @StrokeProcessor.StrokePoint Pt) (bound : nat) :
  forall accumulatedDistance result,
    0 <= accumulatedDistance ->
    StrokeProcessor.resampleWhile Pt_lerp bound 0 segmentLength
      previousPoint currentPoint accumulatedDistance result = Diverges.
Proof.
  induction bound as [|bound IH]; intros acc result Hacc.
  - cbn. unfold JS.geb. rewrite (proj2 (leb_iff 0 acc)) by exact Hacc. reflexivity.
  - cbn [StrokeProcessor.resampleWhile]. unfold JS.geb.
    rewrite (proj2 (leb_iff 0 acc)) by exact Hacc.
    apply IH. lra.
Qed.

End LoopBounds.

(** ** Best-fit selection *)

Section Selection.
Import StrokeToGeometry.

Lemma calculateFitScore_bounds (r : GeometryFitResult) :
  0 <= calculateFitScore r <= 1.
Proof. unfold calculateFitScore. apply Rmax_0_Rmin_1_bounds. Qed.

Lemma best_of_fold_from (rest : list GeometryFitResult) :
  forall b seen,
    In b seen ->
    (forall r, In r seen -> calculateFitScore r <= calculateFitScore b) ->
    In (fst (fold_left consider rest (b, calculateFitScore b))) (seen ++ rest)
    /\ forall r, In r (seen ++ rest) ->
                 calculateFitScore r
                 <= calculateFitScore (fst (fold_left consider rest (b, calculateFitScore b))).
Proof.
  induction rest as [|x rest IH]; intros b seen Hin Hmax; cbn [fold_left].
  - rewrite app_nil_r. cbn. auto.
  - replace (seen ++ x :: rest) with ((seen ++ [x]) ++ rest)
      by (rewrite <- app_assoc; reflexivity).
    unfold consider at 2 4. cbn [snd].
    destruct (calculateFitScore x >? calculateFitScore b) eqn:E.
    + apply ltb_iff in E.
      apply (IH x (seen ++ [x])).
      * apply in_or_app. right. left. reflexivity.
      * intros r Hr. apply in_app_or in Hr. destruct Hr as [Hr|[Hr|[]]].
        -- specialize (Hmax r Hr). lra.
        -- subst r. lra.
    + apply ltb_false_iff in E.
      apply (IH b (seen ++ [x])).
      * apply in_or_app. left. assumption.
      * intros r Hr. apply in_app_or in Hr. destruct Hr as [Hr|[Hr|[]]].
        -- apply Hmax. assumption.
        -- subst r. assumption.
Qed.

Lemma best_of_fold (rest : list GeometryFitResult) (first : GeometryFitResult) :
  In (fst (fold_left consider rest (first, calculateFitScore first))) (first :: rest)
  /\ forall r, In r (first :: rest) ->
               calculateFitScore r
               <= calculateFitScore (fst (fold_left consider rest (first, calculateFitScore first))).
Proof.
  apply (best_of_fold_from rest first [first]).
  - left. reflexivity.
  - intros r [Hr|[]]. subst r. lra.
Qed.

(** C3: for every non-empty list of candidate fits, [selectBestFit] returns a
    candidate of the list whose score is at least that of every candidate;
    the score is confidence plus the simplicity bonus minus the error
    penalty, clipped to the interval from 0 to 1, and the bonus orders
    line above arc above circle above unknown. *)
Theorem selectBestFit_maximizes_clipped_score :
  forall results : list GeometryFitResult,
    results <> [] ->
    exists best,
      selectBestFit results = Ok best
      /\ In best results
      /\ (forall r, In r results -> calculateFitScore r <= calculateFitScore best)
      /\ (forall r,
             calculateFitScore r
             = Rmax 0 (Rmin 1 (confidence r + complexityBonus (type r)
                               - Rmin 0.2 (error r / 10)))
             /\ 0 <= calculateFitScore r <= 1)
      /\ complexityBonus LINE > complexityBonus ARC
      /\ complexityBonus ARC > complexityBonus CIRCLE
      /\ complexityBonus CIRCLE > complexityBonus UNKNOWN.
Proof.
  intros results Hne.
  assert (Hscore : forall r,
             calculateFitScore r
             = Rmax 0 (Rmin 1 (confidence r + complexityBonus (type r)
                               - Rmin 0.2 (error r / 10)))
             /\ 0 <= calculateFitScore r <= 1).
  { intros r. split; [reflexivity | apply calculateFitScore_bounds]. }
  assert (Hbonus : complexityBonus LINE > complexityBonus ARC
                   /\ complexityBonus ARC > complexityBonus CIRCLE
                   /\ complexityBonus CIRCLE > complexityBonus UNKNOWN).
  { cbn. repeat split; lra. }
  destruct results as [|first [|second rest]]; [congruence | |].
  - exists first. repeat split; try apply Hscore; try apply Hbonus.
    + left. reflexivity.
    + intros r [Hr|[]]. subst r. lra.
  - pose proof (best_of_fold (second :: rest) first) as [Hin Hmax].
    eexists. split; [reflexivity|].
    split; [exact Hin|]. split; [exact Hmax|].
    split; [exact Hscore | exact Hbonus].
Qed.

Lemma selectBestFit_maximizes_clipped_score_witness :
  [Sample.line_fit; Sample.arc_fit] <> []
  /\ exists best,
      selectBestFit [Sample.line_fit; Sample.arc_fit] = Ok best
      /\ In best [Sample.line_fit; Sample.arc_fit]
      /\ (forall r, In r [Sample.line_fit; Sample.arc_fit] ->
                    calculateFitScore r <= calculateFitScore best)
      /\ (forall r,
             calculateFitScore r
             = Rmax 0 (Rmin 1 (confidence r + complexityBonus (type r)
                               - Rmin 0.2 (error r / 10)))
             /\ 0 <= calculateFitScore r <= 1)
      /\ complexityBonus LINE > complexityBonus ARC
      /\ complexityBonus ARC > complexityBonus CIRCLE
      /\ complexityBonus CIRCLE > complexityBonus UNKNOWN.
Proof.
  split.
  - discriminate.
  - apply (selectBestFit_maximizes_clipped_score [Sample.line_fit; Sample.arc_fit]).
    discriminate.
Defined.

End Selection.

(** ** Corner detection on fewer than three points *)

Section DegenerateDetection.
Import CornerDetector.

(** The specification's reading fails on the empty list: no run is returned. *)
Lemma degenerate_line_run_fails_on_empty :
  ~ AsSpecified.degenerate_line_run (new noOptions) [].
Proof.
  unfold AsSpecified.degenerate_line_run. cbn. intros H.
  destruct H as [_ [run [Hrun _]]]; [lia | discriminate].
Qed.

(** C4 (amended): for every list of fewer than 3 points [detectCorners]
    returns a result with no corner indices, no curvatures and no
    confidences; with exactly 2 points its segments are the single run from
    index 0 to index 1, labeled line, of quality 1; with 0 or 1 points it has
    no segment.  The embedded function is total and in this branch reads no
    element of the list. *)
Theorem detectCorners_on_fewer_than_three_points :
  forall (d : CornerDetector) (points : list Vec2),
    (List.length points < 3)%nat ->
    cornerIndices (detectCorners d points) = []
    /\ curvatures (detectCorners d points) = []
    /\ confidence (detectCorners d points) = []
    /\ ((List.length points = 2)%nat ->
        segments (detectCorners d points) = [mkSegmentInfo 0 1 line 1])
    /\ ((List.length points < 2)%nat -> segments (detectCorners d points) = []).
Proof.
  intros d points Hlen. unfold detectCorners.
  apply Nat.ltb_lt in Hlen. rewrite Hlen. cbn [cornerIndices curvatures confidence segments].
  repeat split.
  - intros H2. rewrite H2. reflexivity.
  - intros H1. apply Nat.leb_gt in H1. rewrite H1. reflexivity.
Qed.

Lemma detectCorners_on_fewer_than_three_points_witness :
  (List.length [Vec2.mk 0 0; Vec2.mk 30 0] < 3)%nat
  /\ cornerIndices (detectCorners (new noOptions) [Vec2.mk 0 0; Vec2.mk 30 0]) = []
  /\ segments (detectCorners (new noOptions) [Vec2.mk 0 0; Vec2.mk 30 0])
     = [mkSegmentInfo 0 1 line 1].
Proof.
  split; [cbn; lia|].
  pose proof (detectCorners_on_fewer_than_three_points
                (new noOptions) [Vec2.mk 0 0; Vec2.mk 30 0]) as H.
  destruct H as [Hc [_ [_ [Hs _]]]]; [cbn; lia|].
  split; [exact Hc | apply Hs; reflexivity].
Defined.

End DegenerateDetection.

(** ** Stroke capture *)

Section Capture.
Import StrokeProcessor.
Context {Pt : Type} (Pt_lerp : Pt -> Pt -> R -> Pt).
Local Abbreviation Processor := (@StrokeProcessor Pt).
Local Abbreviation Point := (@StrokePoint Pt).

(** No stroke is active on a fresh processor, after [cancelStroke], and after
    an [endStroke] that returned. *)
Lemma not_capturing_when_new (given : PartialOptions) :
  isCapturing (new given : Processor) = false.
Proof. reflexivity. Qed.

Lemma not_capturing_after_cancel (sp : Processor) :
  isCapturing (after (cancelStroke sp)) = false.
Proof.
  unfold cancelStroke, isCapturing.
  destruct (activeStroke sp) eqn:E; cbn; rewrite ?E; reflexivity.
Qed.

Lemma not_capturing_after_end (sp : Processor) (now : R) (stroke : ProcessedStroke) :
  outcome (endStroke Pt_lerp sp now) = Ok stroke ->
  isCapturing (after (endStroke Pt_lerp sp now)) = false.
Proof.
  unfold endStroke, isCapturing. destruct (activeStroke sp) eqn:E; cbn.
  - destruct (bind _ _); cbn; intros H; try discriminate. reflexivity.
  - discriminate.
Qed.

(** C6: with no active stroke [addPoint] and [endStroke] throw, each with its
    own message, and leave the processor as it was; nothing is swallowed. *)
Theorem addPoint_and_endStroke_throw_without_active_stroke :
  forall (sp : Processor) (point : Point) (now : R),
    isCapturing sp = false ->
    outcome (addPoint sp point) = Throw "No active stroke. Call startStroke() first."
    /\ after (addPoint sp point) = sp
    /\ outcome (endStroke Pt_lerp sp now) = Throw "No active stroke to end."
    /\ after (endStroke Pt_lerp sp now) = sp.
Proof.
  intros sp point now H. unfold isCapturing in H.
  unfold addPoint, endStroke.
  destruct (activeStroke sp); [discriminate|]. cbn. auto.
Qed.

(** [resampleStroke] with a target spacing of zero or less: the condition of
    its [while] loop holds from the first segment on and stays true, as each
    turn subtracts the spacing from a distance that is not below it. *)
Lemma resampleStroke_never_ends_without_positive_spacing
    (o : StrokeProcessingOptions) (points : list Point) :
  targetSpacing o <= 0 ->
  (2 <= List.length points)%nat ->
  resampleStroke Pt_lerp o points = Diverges.
Proof.
  intros Hneg Hlen. destruct points as [|first [|second rest]]; cbn in Hlen; try lia.
  unfold resampleStroke. cbn [List.length Nat.sub seq foldM].
  unfold get. cbn [nth_error Nat.sub JS.bind].
  unfold resampleBound, JS.gtb.
  rewrite (proj2 (ltb_false_iff 0 (targetSpacing o)) Hneg).
  cbn [resampleWhile]. unfold JS.geb.
  assert (Hd : 0 <= Vec2.distanceTo (position first) (position second)).
  { unfold Vec2.distanceTo, Vec2.length. apply sqrt_pos. }
  rewrite (proj2 (leb_iff _ _)); [reflexivity | lra].
Qed.

(** With a target spacing of zero or less [endStroke] on a stroke of two
    points does not return. *)
Lemma endStroke_never_ends_without_positive_spacing
    (sp : Processor) (a : ActiveStroke) (p q : Point) (now : R) :
  activeStroke sp = Some a ->
  active_points a = [p; q] ->
  targetSpacing (options sp) <= 0 ->
  outcome (endStroke Pt_lerp sp now) = Diverges.
Proof.
  intros Ha Hpts Hneg. unfold endStroke. rewrite Ha.
  assert (Hd : 0 <= Vec2.distanceTo (position q) (position p)).
  { unfold Vec2.distanceTo, Vec2.length. apply sqrt_pos. }
  assert (E : (rawStroke <- createRawStroke a now ;;
               processStroke Pt_lerp (options sp) rawStroke) = Diverges).
  { unfold createRawStroke. rewrite Hpts.
    unfold calculateTotalLength. cbn [List.length Nat.sub seq foldM].
    unfold get. cbn [nth_error Nat.sub JS.bind].
    unfold calculateAverageVelocity, Vec2.divide. cbn [List.length INR].
    rewrite (proj2 (eqb_false_iff (1 + 1) 0)) by lra. cbn [JS.bind].
    unfold processStroke. cbn [points].
    unfold removeDuplicatePoints. cbn [fold_left]. unfold JS.geb.
    rewrite (proj2 (leb_iff _ _)) by lra. cbn [fst app].
    unfold applySmoothingFilter. cbn [List.length Nat.leb JS.bind].
    rewrite resampleStroke_never_ends_without_positive_spacing;
      [reflexivity | exact Hneg | cbn; lia]. }
  rewrite E. reflexivity.
Qed.

(** C7 (amended): when the active stroke already holds [maxPointsPerStroke]
    points or more, [addPoint] returns normally with a warning and leaves the
    processor exactly as it was: the stored points are unchanged and the
    stroke is still active; a further [addPoint] is dropped in the same way,
    [cancelStroke] returns normally, and [endStroke] does whatever it would
    have done before the dropped sample, which need not be to return. *)
Theorem addPoint_drops_sample_at_cap :
  forall (sp : Processor) (a : ActiveStroke) (point : Point),
    activeStroke sp = Some a ->
    (maxPointsPerStroke (options sp) <= List.length (active_points a))%nat ->
    outcome (addPoint sp point) = Ok tt
    /\ warnings (addPoint sp point) = [PointLimitReached (maxPointsPerStroke (options sp))]
    /\ after (addPoint sp point) = sp
    /\ activeStrokePoints (after (addPoint sp point)) = active_points a
    /\ isCapturing (after (addPoint sp point)) = true
    /\ (forall next,
           outcome (addPoint (after (addPoint sp point)) next) = Ok tt
           /\ after (addPoint (after (addPoint sp point)) next) = sp)
    /\ outcome (cancelStroke (after (addPoint sp point))) = Ok tt
    /\ isCapturing (after (cancelStroke (after (addPoint sp point)))) = false
    /\ (forall now,
           endStroke Pt_lerp (after (addPoint sp point)) now = endStroke Pt_lerp sp now).
Proof.
  intros sp a point Ha Hcap.
  assert (Hadd : forall p,
             addPoint sp p
             = mkCall (Ok tt) [PointLimitReached (maxPointsPerStroke (options sp))] sp).
  { intros p. unfold addPoint. rewrite Ha.
    apply Nat.leb_le in Hcap. rewrite Hcap. reflexivity. }
  rewrite Hadd. cbn [outcome warnings after].
  repeat split.
  - unfold activeStrokePoints. rewrite Ha. reflexivity.
  - unfold isCapturing. rewrite Ha. reflexivity.
  - rewrite Hadd. reflexivity.
  - rewrite Hadd. reflexivity.
  - unfold cancelStroke. rewrite Ha. reflexivity.
  - apply not_capturing_after_cancel.
Qed.

(** C10: [cancelStroke] returns normally in every state, also with no active
    stroke, where it changes nothing; afterwards [isCapturing] is false and
    [activeStrokePoints] is empty. *)
Theorem cancelStroke_never_throws :
  forall sp : Processor,
    outcome (cancelStroke sp) = Ok tt
    /\ warnings (cancelStroke sp) = []
    /\ (isCapturing sp = false -> after (cancelStroke sp) = sp)
    /\ isCapturing (after (cancelStroke sp)) = false
    /\ activeStrokePoints (after (cancelStroke sp)) = [].
Proof.
  intros sp. unfold cancelStroke, isCapturing, activeStrokePoints.
  destruct (activeStroke sp) eqn:E; cbn; rewrite ?E; repeat split; auto; discriminate.
Qed.

End Capture.

Section CaptureWitnesses.
Import StrokeProcessor.

Lemma addPoint_and_endStroke_throw_without_active_stroke_witness :
  isCapturing (new noOptions : @StrokeProcessor unit) = false
  /\ outcome (addPoint (new noOptions) (Sample.point 0 1))
     = Throw "No active stroke. Call startStroke() first."
  /\ outcome (endStroke Sample.unit_lerp (new noOptions) 1)
     = Throw "No active stroke to end.".
Proof.
  split; [reflexivity|].
  pose proof (addPoint_and_endStroke_throw_without_active_stroke Sample.unit_lerp
                (new noOptions) (Sample.point 0 1) 1 eq_refl) as H.
  destruct H as [H1 [_ [H3 _]]].
  split; [exact H1 | exact H3].
Defined.

Lemma addPoint_drops_sample_at_cap_witness :
  activeStroke Sample.capped
  = Some (mkActive (mkStrokeId 1 1) [Sample.point 0 1] 1 0)
  /\ (maxPointsPerStroke (options Sample.capped) <= 1)%nat
  /\ outcome (addPoint Sample.capped (Sample.point 5 2)) = Ok tt
  /\ after (addPoint Sample.capped (Sample.point 5 2)) = Sample.capped
  /\ activeStrokePoints (after (addPoint Sample.capped (Sample.point 5 2)))
     = [Sample.point 0 1].
Proof.
  split; [reflexivity|]. split; [cbn; lia|].
  pose proof (addPoint_drops_sample_at_cap Sample.unit_lerp Sample.capped
                (mkActive (mkStrokeId 1 1) [Sample.point 0 1] 1 0) (Sample.point 5 2)
                eq_refl) as H.
  destruct H as [H1 [_ [H3 [H4 _]]]]; [cbn; lia|].
  split; [exact H1|]. split; [exact H3 | exact H4].
Defined.

(** The processor with no spacing holds two points, its cap, and the
    spacing it was given. *)
Lemma capped_unspaced_is_full :
  exists p q,
    activeStroke Sample.capped_unspaced = Some (mkActive (mkStrokeId 1 1) [p; q] 1 0)
    /\ maxPointsPerStroke (options Sample.capped_unspaced) = 2%nat
    /\ targetSpacing (options Sample.capped_unspaced) = 0.
Proof.
  unfold Sample.capped_unspaced. cbn. unfold addPoint. cbn.
  unfold calculateVelocity. cbn. js_compare. unfold Vec2.divide. cbn. js_compare. cbn.
  eexists _, _. repeat split.
Qed.

(** With a target spacing of 0 a sample is dropped at the cap as everywhere,
    but the [endStroke] that follows does not return. *)
Lemma drop_at_cap_keeps_stroke_usable_fails :
  ~ AsSpecified.drop_at_cap_keeps_stroke_usable
      Sample.unit_lerp Sample.capped_unspaced (Sample.point 20 3) 3.
Proof.
  unfold AsSpecified.drop_at_cap_keeps_stroke_usable. intros H.
  destruct capped_unspaced_is_full as [p [q [Ha [Hcap Hspacing]]]].
  specialize (H _ Ha). cbn [active_points List.length] in H. rewrite Hcap in H.
  destruct (H (Nat.le_refl 2)) as [_ [_ [_ [_ [stroke Hend]]]]].
  assert (Hsame : after (addPoint Sample.capped_unspaced (Sample.point 20 3))
                  = Sample.capped_unspaced).
  { unfold addPoint. rewrite Ha, Hcap. reflexivity. }
  rewrite Hsame in Hend.
  rewrite (endStroke_never_ends_without_positive_spacing Sample.unit_lerp
             Sample.capped_unspaced _ p q 3 Ha eq_refl) in Hend;
    [discriminate | rewrite Hspacing; lra].
Qed.

Lemma cancelStroke_never_throws_witness :
  isCapturing (new noOptions : @StrokeProcessor unit) = false
  /\ outcome (cancelStroke (new noOptions : @StrokeProcessor unit)) = Ok tt
  /\ after (cancelStroke (new noOptions : @StrokeProcessor unit)) = new noOptions
  /\ isCapturing (after (cancelStroke Sample.capped)) = false
  /\ activeStrokePoints (after (cancelStroke Sample.capped)) = [].
Proof.
  split; [reflexivity|].
  pose proof (cancelStroke_never_throws (new noOptions : @StrokeProcessor unit)) as H.
  destruct H as [H1 [_ [H3 _]]].
  split; [exact H1|]. split; [apply H3; reflexivity|].
  pose proof (cancelStroke_never_throws Sample.capped) as H.
  destruct H as [_ [_ [_ [H4 H5]]]].
  split; [exact H4 | exact H5].
Defined.

(** Below the cap the sample is stored, with the velocity computed for it:
    10 units in 1 ms is 10000 units per second. *)
Example addPoint_below_cap_appends :
  let sp := snd (startStroke (new noOptions) (Sample.point 0 1) 1) in
  outcome (addPoint sp (Sample.point 10 2)) = Ok tt
  /\ warnings (addPoint sp (Sample.point 10 2)) = []
  /\ List.length (activeStrokePoints (after (addPoint sp (Sample.point 10 2)))) = 2%nat
  /\ map velocity (activeStrokePoints (after (addPoint sp (Sample.point 10 2))))
     = [Vec2.ZERO; Vec2.mk ((10 - 0) / ((2 - 1) / 1000)) ((0 - 0) / ((2 - 1) / 1000))].
Proof.
  cbn. unfold addPoint. cbn. unfold calculateVelocity. cbn.
  js_compare. unfold Vec2.divide. cbn.
  js_compare. cbn. repeat split; reflexivity.
Qed.

End CaptureWitnesses.

(** ** Touch state machine *)

Section TouchProperties.
Import TouchState.
Context {Pt : Type}.
Local Abbreviation PointerState := (@Pointer.PointerState Pt).
Local Abbreviation Manager := (@TouchStateManager Pt).
Local Abbreviation Step := (@T Pt).

Lemma bind_ok {A B} (c : Step A) (k : A -> Step B) m a out m' :
  c m = (Ok a, out, m') ->
  bind c k m = (fst (fst (k a m')), out ++ snd (fst (k a m')), snd (k a m')).
Proof. intros H. unfold bind. rewrite H. destruct (k a m') as [[r o] mm]. reflexivity. Qed.

Lemma total_bind {A B} (c : Step A) (k : A -> Step B) :
  total c -> (forall a, total (k a)) -> total (bind c k).
Proof.
  intros Hc Hk m. destruct (Hc m) as [a [out [m' E]]].
  destruct (Hk a m') as [b [out' [m'' E']]].
  exists b, (out ++ out'), m''. rewrite (bind_ok _ _ _ _ _ _ E), E'. reflexivity.
Qed.

Lemma quiet_bind {A B} (c : Step A) (k : A -> Step B) :
  quiet c -> (forall a, quiet (k a)) -> quiet (bind c k).
Proof.
  intros Hc Hk m. specialize (Hc m). unfold bind.
  destruct (c m) as [[r out] m'] eqn:E. cbn in Hc.
  destruct r as [a| |]; try exact Hc.
  specialize (Hk a m'). destruct (k a m') as [[r' out'] m'']. cbn in *.
  destruct Hc as [Ho [Hm [Hp Hh]]]. destruct Hk as [Ho' [Hm' [Hp' Hh']]].
  rewrite filter_app, Ho, Ho'. repeat split; congruence.
Qed.

Lemma total_ret {A} (a : A) : total (ret a : Step A).
Proof. intros m. repeat eexists. Qed.
Lemma quiet_ret {A} (a : A) : quiet (ret a : Step A).
Proof. intros m. cbn. auto. Qed.
Lemma total_this : total (this : Step Manager).
Proof. intros m. repeat eexists. Qed.
Lemma quiet_this : quiet (this : Step Manager).
Proof. intros m. cbn. auto. Qed.
Lemma quiet_lift {A} (r : Result A) : quiet (lift r : Step A).
Proof. intros m. cbn. auto. Qed.
Lemma total_lift {A} (a : A) : total (lift (Ok a) : Step A).
Proof. intros m. repeat eexists. Qed.
Lemma total_call installed (n : @Notification Pt) : total (call installed n).
Proof. intros m. repeat eexists. Qed.
Lemma quiet_call installed (n : @Notification Pt) :
  isModeChange n = false -> quiet (call installed n).
Proof. intros H m. cbn. destruct (installed (handlers m)); cbn; rewrite ?H; auto. Qed.
Lemma total_set_currentGesture v : total (set_currentGesture v : Step unit).
Proof. intros m. repeat eexists. Qed.
Lemma quiet_set_currentGesture v : quiet (set_currentGesture v : Step unit).
Proof. intros m. cbn. auto. Qed.
Lemma total_set_gestureHistory v : total (set_gestureHistory v : Step unit).
Proof. intros m. repeat eexists. Qed.
Lemma quiet_set_gestureHistory v : quiet (set_gestureHistory v : Step unit).
Proof. intros m. cbn. auto. Qed.
Lemma total_set_lastUpdateTime v : total (set_lastUpdateTime v : Step unit).
Proof. intros m. repeat eexists. Qed.
Lemma quiet_set_lastUpdateTime v : quiet (set_lastUpdateTime v : Step unit).
Proof. intros m. cbn. auto. Qed.

Create HintDb touch.
#[local] Hint Resolve total_ret quiet_ret total_this quiet_this quiet_lift total_lift
  total_call total_set_currentGesture quiet_set_currentGesture
  total_set_gestureHistory quiet_set_gestureHistory
  total_set_lastUpdateTime quiet_set_lastUpdateTime : touch.

Ltac touch_steps :=
  repeat first
    [ apply total_bind; [|intros ?]
    | apply quiet_bind; [|intros ?]
    | apply quiet_call; reflexivity
    | solve [auto with touch] ].

Lemma total_addToHistory g : total (addToHistory g : Step unit).
Proof. unfold addToHistory. touch_steps. Qed.
Lemma quiet_addToHistory g : quiet (addToHistory g : Step unit).
Proof. unfold addToHistory. touch_steps. Qed.

Lemma total_endCurrentGesture : total (endCurrentGesture : Step unit).
Proof.
  unfold endCurrentGesture. touch_steps.
  destruct (currentGesture a); touch_steps.
Qed.
Lemma quiet_endCurrentGesture : quiet (endCurrentGesture : Step unit).
Proof.
  unfold endCurrentGesture. touch_steps.
  destruct (currentGesture a); touch_steps.
Qed.

Lemma total_cancelCurrentGesture : total (cancelCurrentGesture : Step unit).
Proof.
  unfold cancelCurrentGesture. touch_steps. destruct (currentGesture a); touch_steps.
Qed.
Lemma quiet_cancelCurrentGesture : quiet (cancelCurrentGesture : Step unit).
Proof.
  unfold cancelCurrentGesture. touch_steps. destruct (currentGesture a); touch_steps.
Qed.

(** The centroid and the spread of a pointer list never divide by zero. *)
Lemma calculateCentroid_returns (pointers : list PointerState) :
  exists c, Pointer.calculateCentroid pointers = Ok c.
Proof.
  unfold Pointer.calculateCentroid. destruct pointers as [|p rest]; [eauto|].
  unfold Vec2.divide.
  rewrite (proj2 (eqb_false_iff _ 0)); [eauto|].
  apply not_0_INR. cbn. lia.
Qed.

Lemma calculateSpread_returns (pointers : list PointerState) :
  exists s, Pointer.calculateSpread pointers = Ok s.
Proof.
  unfold Pointer.calculateSpread. destruct (_ <? 2)%nat; [eauto|].
  destruct (calculateCentroid_returns pointers) as [c E]. rewrite E. cbn. eauto.
Qed.

Lemma total_startGesture mode (p : PointerState) : total (startGesture mode p).
Proof.
  unfold startGesture. touch_steps.
  - unfold calculateCentroid.
    destruct (calculateCentroid_returns (Map_values (activePointers a))) as [c E].
    rewrite E. auto with touch.
  - destruct mode; touch_steps.
    unfold createPanZoomGesture.
    destruct (calculateCentroid_returns (Map_values (activePointers a))) as [c E].
    destruct (calculateSpread_returns (Map_values (activePointers a))) as [s E'].
    rewrite E, E'. cbn. auto with touch.
Qed.

Lemma quiet_startGesture mode (p : PointerState) : quiet (startGesture mode p).
Proof. unfold startGesture. touch_steps. destruct mode; touch_steps. Qed.

Lemma quiet_updateCurrentGesture (p : PointerState) : quiet (updateCurrentGesture p).
Proof.
  unfold updateCurrentGesture. touch_steps.
  destruct (currentGesture a); touch_steps.
  destruct (type t); touch_steps.
Qed.

Lemma total_unit_step (c : Step unit) (m : Manager) :
  total c -> exists out m', c m = (Ok tt, out, m').
Proof. intros H. destruct (H m) as [[] [out [m' E]]]. eauto. Qed.

(** What [transitionToMode] does: it returns, sets the mode, and calls the
    mode-change handler once if it is set. *)
Lemma transitionToMode_spec (newMode : TouchMode) (p : PointerState) (m : Manager) :
  exists out m',
    transitionToMode newMode p m = (Ok tt, out, m')
    /\ currentMode m' = newMode
    /\ activePointers m' = activePointers m
    /\ handlers m' = handlers m
    /\ filter isModeChange out
       = if onTouchModeChanged (handlers m)
         then [TouchModeChanged (currentMode m) newMode] else [].
Proof.
  unfold transitionToMode.
  rewrite (bind_ok this _ m m [] m eq_refl). cbn [app fst snd].
  set (X := match currentGesture m with
            | Some _ =>
                if negb (TouchMode_eqb newMode (currentMode m))
                then endCurrentGesture else ret tt
            | None => ret tt
            end).
  assert (HtX : total X).
  { subst X. destruct (currentGesture m); [destruct (negb _)|];
      auto using total_endCurrentGesture with touch. }
  assert (HqX : quiet X).
  { subst X. destruct (currentGesture m); [destruct (negb _)|];
      auto using quiet_endCurrentGesture with touch. }
  clearbody X.
  destruct (total_unit_step X m HtX) as [oX [mX EX]].
  specialize (HqX m). rewrite EX in HqX. cbn in HqX.
  destruct HqX as [HoX [HmX [HpX HhX]]].
  rewrite (bind_ok X _ m tt oX mX EX).
  rewrite (bind_ok (set_currentMode newMode) _ mX tt [] _ eq_refl). cbn [app fst snd].
  set (mS := mkManager newMode (currentGesture mX) (activePointers mX)
                       (gestureHistory mX) (handlers mX) (lastUpdateTime mX)).
  set (Y := if negb (TouchMode_eqb newMode IDLE) then startGesture newMode p else ret tt).
  assert (HtY : total Y).
  { subst Y. destruct (negb (TouchMode_eqb newMode IDLE));
      auto using total_startGesture with touch. }
  assert (HqY : quiet Y).
  { subst Y. destruct (negb (TouchMode_eqb newMode IDLE));
      auto using quiet_startGesture with touch. }
  clearbody Y.
  destruct (total_unit_step Y mS HtY) as [oY [mY EY]].
  specialize (HqY mS). rewrite EY in HqY. cbn in HqY.
  destruct HqY as [HoY [HmY [HpY HhY]]].
  rewrite (bind_ok Y _ mS tt oY mY EY).
  cbn. eexists. eexists. split; [reflexivity|].
  repeat split; try congruence.
  rewrite !filter_app, HoX, HoY. cbn.
  rewrite HhY, HhX.
  destruct (onTouchModeChanged (handlers m)); reflexivity.
Qed.

Lemma TouchMode_eqb_eq (a b : TouchMode) : TouchMode_eqb a b = true <-> a = b.
Proof. destruct a, b; cbn; split; intros; congruence. Qed.

Lemma determineTouchMode_ext (m1 m2 : Manager) :
  activePointers m1 = activePointers m2 -> determineTouchMode m1 = determineTouchMode m2.
Proof. intros H. unfold determineTouchMode. rewrite H. reflexivity. Qed.

Lemma handlePointerDown_settled (p : PointerState) (m : Manager) :
  settled m (handlePointerDown p m) (Map_set (activePointers m) (Pointer.id p) p).
Proof.
  unfold handlePointerDown.
  rewrite (bind_ok this _ m m [] m eq_refl). cbn [app fst snd].
  rewrite (bind_ok (set_activePointers _) _ m tt [] _ eq_refl). cbn [app fst snd].
  rewrite (bind_ok (set_lastUpdateTime _) _ _ tt [] _ eq_refl). cbn [app fst snd].
  rewrite (bind_ok this _ _ _ [] _ eq_refl). cbn [app fst snd].
  set (m2 := mkManager _ _ _ _ _ _).
  assert (Hp2 : activePointers m2 = Map_set (activePointers m) (Pointer.id p) p)
    by reflexivity.
  assert (Hm2 : currentMode m2 = currentMode m) by reflexivity.
  assert (Hh2 : handlers m2 = handlers m) by reflexivity.
  clearbody m2.
  destruct (TouchMode_eqb (determineTouchMode m2) (currentMode m2)) eqn:E; cbn [negb].
  - apply TouchMode_eqb_eq in E.
    pose proof (quiet_updateCurrentGesture p m2) as [Ho [Hm [Hp Hh]]].
    destruct (updateCurrentGesture p m2) as [[r out] m']. cbn in *.
    repeat split; try congruence.
    rewrite Hm, <- E. apply determineTouchMode_ext. congruence.
  - destruct (transitionToMode_spec (determineTouchMode m2) p m2)
      as [out [m' [Et [Hm [Hp [Hh Ho]]]]]].
    rewrite Et. cbn.
    repeat split; try congruence.
    + rewrite Hm. apply determineTouchMode_ext. congruence.
    + intros _. rewrite Ho, Hh2, Hm2, Hm. reflexivity.
Qed.

Lemma handlePointerUp_settled (p : PointerState) (m : Manager) :
  settled m (handlePointerUp p m) (Map_delete (activePointers m) (Pointer.id p)).
Proof.
  unfold handlePointerUp.
  rewrite (bind_ok this _ m m [] m eq_refl). cbn [app fst snd].
  rewrite (bind_ok (set_activePointers _) _ m tt [] _ eq_refl). cbn [app fst snd].
  rewrite (bind_ok (set_lastUpdateTime _) _ _ tt [] _ eq_refl). cbn [app fst snd].
  rewrite (bind_ok this _ _ _ [] _ eq_refl). cbn [app fst snd].
  set (m2 := mkManager _ _ _ _ _ _).
  assert (Hp2 : activePointers m2 = Map_delete (activePointers m) (Pointer.id p))
    by reflexivity.
  assert (Hm2 : currentMode m2 = currentMode m) by reflexivity.
  assert (Hh2 : handlers m2 = handlers m) by reflexivity.
  clearbody m2.
  destruct (TouchMode_eqb (determineTouchMode m2) (currentMode m2)) eqn:E; cbn [negb].
  - apply TouchMode_eqb_eq in E.
    pose proof (quiet_updateCurrentGesture p m2) as [Ho [Hm [Hp Hh]]].
    destruct (updateCurrentGesture p m2) as [[r out] m']. cbn in *.
    repeat split; try congruence.
    rewrite Hm, <- E. apply determineTouchMode_ext. congruence.
  - destruct (total_unit_step _ m2 total_endCurrentGesture) as [oE [mE EE]].
    pose proof (quiet_endCurrentGesture m2) as HqE. rewrite EE in HqE. cbn in HqE.
    destruct HqE as [HoE [HmE [HpE HhE]]].
    rewrite (bind_ok endCurrentGesture _ m2 tt oE mE EE).
    destruct (transitionToMode_spec (determineTouchMode m2) p mE)
      as [out [m' [Et [Hm [Hp [Hh Ho]]]]]].
    rewrite Et. cbn.
    repeat split; try congruence.
    + rewrite Hm. apply determineTouchMode_ext. congruence.
    + intros _. rewrite filter_app, HoE, Ho, HhE, Hh2, HmE, Hm2, Hm. reflexivity.
Qed.

Lemma handlePointerCancel_settled (p : PointerState) (m : Manager) :
  settled m (handlePointerCancel p m) (Map_delete (activePointers m) (Pointer.id p)).
Proof.
  unfold handlePointerCancel.
  rewrite (bind_ok this _ m m [] m eq_refl). cbn [app fst snd].
  rewrite (bind_ok (set_activePointers _) _ m tt [] _ eq_refl). cbn [app fst snd].
  set (m2 := mkManager _ _ _ _ _ _).
  assert (Hp2 : activePointers m2 = Map_delete (activePointers m) (Pointer.id p))
    by reflexivity.
  assert (Hm2 : currentMode m2 = currentMode m) by reflexivity.
  assert (Hh2 : handlers m2 = handlers m) by reflexivity.
  clearbody m2.
  destruct (total_unit_step _ m2 total_cancelCurrentGesture) as [oE [mE EE]].
  pose proof (quiet_cancelCurrentGesture m2) as HqE. rewrite EE in HqE. cbn in HqE.
  destruct HqE as [HoE [HmE [HpE HhE]]].
  rewrite (bind_ok cancelCurrentGesture _ m2 tt oE mE EE).
  rewrite (bind_ok this _ _ _ [] _ eq_refl). cbn [app fst snd].
  destruct (transitionToMode_spec (determineTouchMode mE) p mE)
    as [out [m' [Et [Hm [Hp [Hh Ho]]]]]].
  rewrite Et. cbn.
  repeat split; try congruence.
  - rewrite Hm. apply determineTouchMode_ext. congruence.
  - intros _. rewrite ?app_nil_r, filter_app, HoE, Ho, HhE, Hh2, HmE, Hm2, Hm. reflexivity.
Qed.

Lemma Map_set_size_present {V} (m : Map V) (key : Z) (v v' : V) :
  Map_get m key = Some v -> Map_size (Map_set m key v') = Map_size m.
Proof.
  unfold Map_size. induction m as [|[k x] rest IH]; cbn; [discriminate|].
  destruct (k =? key)%Z; cbn; auto.
Qed.

(** A move leaves the mode and the number of pointers alone and calls no
    mode-change handler. *)
Lemma handlePointerMove_keeps_mode (p : PointerState) (m : Manager) :
  currentMode (snd (handlePointerMove p m)) = currentMode m
  /\ Map_size (activePointers (snd (handlePointerMove p m))) = Map_size (activePointers m)
  /\ filter isModeChange (snd (fst (handlePointerMove p m))) = [].
Proof.
  unfold handlePointerMove.
  rewrite (bind_ok this _ m m [] m eq_refl). cbn [app fst snd].
  destruct (Map_get (activePointers m) (Pointer.id p)) as [existing|] eqn:G.
  - rewrite (bind_ok (set_activePointers _) _ m tt [] _ eq_refl). cbn [app fst snd].
    rewrite (bind_ok (set_lastUpdateTime _) _ _ tt [] _ eq_refl). cbn [app fst snd].
    set (m2 := mkManager _ _ _ _ _ _).
    pose proof (quiet_updateCurrentGesture p m2) as [Ho [Hm [Hp Hh]]].
    destruct (updateCurrentGesture p m2) as [[r out] m']. cbn in *.
    repeat split; try assumption.
    rewrite Hp. apply (Map_set_size_present _ _ existing). assumption.
  - cbn. auto.
Qed.

Lemma reset_settles (m : Manager) :
  currentMode (snd (reset m)) = IDLE /\ activePointers (snd (reset m)) = [].
Proof.
  unfold reset.
  destruct (total_unit_step _ m total_endCurrentGesture) as [oE [mE EE]].
  rewrite (bind_ok endCurrentGesture _ m tt oE mE EE). cbn. auto.
Qed.

Lemma dispatch_keeps_mode_settled (e : Event) (m : Manager) :
  currentMode m = determineTouchMode m ->
  currentMode (stateAfter e m) = determineTouchMode (stateAfter e m).
Proof.
  intros Inv. unfold stateAfter. destruct e as [p|p|p|p| |h]; cbn [dispatch].
  - pose proof (handlePointerDown_settled p m) as H.
    destruct (handlePointerDown p m) as [[r out] m']. cbn in *. tauto.
  - pose proof (handlePointerMove_keeps_mode p m) as [Hm [Hs _]].
    rewrite Hm, Inv. unfold determineTouchMode. rewrite Hs. reflexivity.
  - pose proof (handlePointerUp_settled p m) as H.
    destruct (handlePointerUp p m) as [[r out] m']. cbn in *. tauto.
  - pose proof (handlePointerCancel_settled p m) as H.
    destruct (handlePointerCancel p m) as [[r out] m']. cbn in *. tauto.
  - destruct (reset_settles m) as [Hm Hp].
    rewrite Hm. unfold determineTouchMode. rewrite Hp. reflexivity.
  - cbn. exact Inv.
Qed.

(** The pointer map after a down, up or cancel event. *)
Lemma activePointers_after (e : Event) (m : Manager) :
  activePointers (stateAfter e m)
  = match e with
    | PointerDown p => Map_set (activePointers m) (Pointer.id p) p
    | PointerUp p | PointerCancel p => Map_delete (activePointers m) (Pointer.id p)
    | _ => activePointers (stateAfter e m)
    end.
Proof.
  unfold stateAfter. destruct e as [p|p|p|p| |h]; cbn [dispatch]; try reflexivity.
  - pose proof (handlePointerDown_settled p m) as H.
    destruct (handlePointerDown p m) as [[r out] m']. cbn in *. tauto.
  - pose proof (handlePointerUp_settled p m) as H.
    destruct (handlePointerUp p m) as [[r out] m']. cbn in *. tauto.
  - pose proof (handlePointerCancel_settled p m) as H.
    destruct (handlePointerCancel p m) as [[r out] m']. cbn in *. tauto.
Qed.

Lemma run_from_keeps_mode_settled (events : list Event) :
  forall m : Manager,
    currentMode m = determineTouchMode m ->
    currentMode (fold_left (fun m e => stateAfter e m) events m)
    = determineTouchMode (fold_left (fun m e => stateAfter e m) events m).
Proof.
  induction events as [|e events IH]; intros m Inv; cbn [fold_left]; [exact Inv|].
  apply IH. apply dispatch_keeps_mode_settled. exact Inv.
Qed.

(** C1: in every state the manager reaches from a fresh object through any
    sequence of pointer events, resets and handler changes, the touch mode is
    the one the table gives for the number of active pointers (0 idle, 1
    drawing, 2 pan-zoom, 3 undo, more multi-touch); a move event changes
    neither the mode nor the number of pointers. *)
Theorem touch_mode_is_function_of_pointer_count :
  forall (given : option Handlers) (events : list Event),
    touchMode (run given events : Manager)
    = match activePointerCount (run given events : Manager) with
      | 0%nat => IDLE
      | 1%nat => DRAWING
      | 2%nat => PAN_ZOOM
      | 3%nat => UNDO
      | _ => MULTI_TOUCH
      end
    /\ forall pointer,
        touchMode (stateAfter (PointerMove pointer) (run given events))
        = touchMode (run given events : Manager)
        /\ activePointerCount (stateAfter (PointerMove pointer) (run given events))
           = activePointerCount (run given events : Manager).
Proof.
  intros given events. split.
  - unfold run. apply (run_from_keeps_mode_settled events (new given)). reflexivity.
  - intros pointer.
    pose proof (handlePointerMove_keeps_mode pointer (run given events)) as [Hm [Hs _]].
    split; [exact Hm | exact Hs].
Qed.

(** What the three steps of a transition leave behind, calls included. *)
Lemma endCurrentGesture_calls (m : Manager) :
  exists m',
    endCurrentGesture m
    = (Ok tt,
       match currentGesture m with
       | None => []
       | Some gesture =>
           if onGestureEnded (handlers m)
           then [GestureEnded
                   (withState gesture ENDED (lastUpdateTime m - startTime gesture))]
           else []
       end,
       m')
    /\ currentGesture m' = None
    /\ currentMode m' = currentMode m
    /\ activePointers m' = activePointers m
    /\ handlers m' = handlers m
    /\ lastUpdateTime m' = lastUpdateTime m.
Proof.
  unfold endCurrentGesture, bind, this, addToHistory, call, set_currentGesture,
    set_gestureHistory, ret.
  destruct (currentGesture m) as [g|] eqn:E; cbn -[Nat.ltb MAX_GESTURE_HISTORY].
  - eexists. split; [rewrite app_nil_r; reflexivity|]. cbn. auto.
  - eexists. split; [reflexivity|]. auto.
Qed.

Lemma cancelCurrentGesture_calls (m : Manager) :
  exists m',
    cancelCurrentGesture m
    = (Ok tt,
       match currentGesture m with
       | None => []
       | Some gesture =>
           if onGestureCancelled (handlers m)
           then [GestureCancelled
                   (withState gesture CANCELLED (lastUpdateTime m - startTime gesture))]
           else []
       end,
       m')
    /\ currentGesture m' = None
    /\ currentMode m' = currentMode m
    /\ activePointers m' = activePointers m
    /\ handlers m' = handlers m
    /\ lastUpdateTime m' = lastUpdateTime m.
Proof.
  unfold cancelCurrentGesture, bind, this, call, set_currentGesture, ret.
  destruct (currentGesture m) as [g|] eqn:E; cbn.
  - eexists. split; [rewrite app_nil_r; reflexivity|]. cbn. auto.
  - eexists. split; [reflexivity|]. auto.
Qed.

Lemma startGesture_calls (mode : TouchMode) (p : PointerState) (m : Manager) :
  exists gesture m',
    startGesture mode p m = (Ok tt, opening (handlers m) (Some gesture), m')
    /\ currentGesture m' = Some gesture
    /\ type gesture = mode
    /\ state gesture = BEGAN
    /\ currentMode m' = currentMode m
    /\ activePointers m' = activePointers m
    /\ handlers m' = handlers m.
Proof.
  unfold startGesture, bind, this, lift, calculateCentroid, call, set_currentGesture,
    ret, opening.
  destruct (calculateCentroid_returns (Map_values (activePointers m))) as [c Ec].
  rewrite Ec.
  destruct mode; cbn.
  - eexists _, _. split; [reflexivity|]. cbn. auto 10.
  - eexists _, _. split; [reflexivity|]. cbn. auto 10.
  - unfold createPanZoomGesture. rewrite Ec.
    destruct (calculateSpread_returns (Map_values (activePointers m))) as [sp Es].
    rewrite Es. cbn.
    eexists _, _. split; [reflexivity|]. cbn. auto 10.
  - eexists _, _. split; [reflexivity|]. cbn. auto 10.
  - eexists _, _. split; [reflexivity|]. cbn. auto 10.
Qed.

(** [transitionToMode] to another mode, or with no gesture live. *)
Lemma transitionToMode_calls (newMode : TouchMode) (p : PointerState) (m : Manager) :
  currentGesture m = None \/ newMode <> currentMode m ->
  exists m',
    transitionToMode newMode p m
    = (Ok tt,
       match currentGesture m with
       | None => []
       | Some gesture =>
           if onGestureEnded (handlers m)
           then [GestureEnded
                   (withState gesture ENDED (lastUpdateTime m - startTime gesture))]
           else []
       end
       ++ opening (handlers m) (currentGesture m')
       ++ (if onTouchModeChanged (handlers m)
           then [TouchModeChanged (currentMode m) newMode] else []),
       m')
    /\ currentMode m' = newMode
    /\ match currentGesture m' with
       | None => newMode = IDLE
       | Some gesture =>
           type gesture = newMode /\ state gesture = BEGAN /\ newMode <> IDLE
       end.
Proof.
  intros Hpre. unfold transitionToMode.
  rewrite (bind_ok this _ m m [] m eq_refl). cbn [app fst snd].
  assert (Hend : exists m1,
             (match currentGesture m with
              | Some _ => if negb (TouchMode_eqb newMode (currentMode m))
                          then endCurrentGesture else ret tt
              | None => ret tt
              end) m
             = (Ok tt,
                match currentGesture m with
                | None => []
                | Some gesture =>
                    if onGestureEnded (handlers m)
                    then [GestureEnded
                            (withState gesture ENDED
                                       (lastUpdateTime m - startTime gesture))]
                    else []
                end,
                m1)
             /\ currentGesture m1 = None
             /\ currentMode m1 = currentMode m
             /\ activePointers m1 = activePointers m
             /\ handlers m1 = handlers m).
  { destruct (currentGesture m) as [g|] eqn:E.
    - destruct (TouchMode_eqb newMode (currentMode m)) eqn:Eq.
      + apply TouchMode_eqb_eq in Eq. destruct Hpre as [Hpre | Hpre];
          [discriminate | contradiction].
      + cbn [negb]. destruct (endCurrentGesture_calls m) as [m1 [E1 H1]].
        rewrite E in E1. exists m1. split; [exact E1 | tauto].
    - exists m. split; [reflexivity | auto]. }
  destruct Hend as [m1 [E1 [Hg1 [Hm1 [Hp1 Hh1]]]]].
  rewrite (bind_ok _ _ m tt _ m1 E1).
  rewrite (bind_ok (set_currentMode newMode) _ m1 tt [] _ eq_refl). cbn [app fst snd].
  set (mS := mkManager newMode (currentGesture m1) (activePointers m1)
                       (gestureHistory m1) (handlers m1) (lastUpdateTime m1)).
  destruct (TouchMode_eqb newMode IDLE) eqn:Eidle; cbn [negb].
  - apply TouchMode_eqb_eq in Eidle.
    rewrite (bind_ok (ret tt) _ mS tt [] mS eq_refl). cbn [app fst snd].
    unfold call. cbn [handlers mS]. rewrite Hh1.
    exists mS. cbn [currentGesture currentMode mS]. rewrite Hg1. cbn [opening app].
    split; [reflexivity|]. split; [reflexivity | exact Eidle].
  - destruct (startGesture_calls newMode p mS) as [g [m2 [E2 [Hg2 [Ht2 [Hs2 [Hm2 [Hp2 Hh2]]]]]]]].
    rewrite (bind_ok _ _ mS tt _ m2 E2). cbn [app fst snd].
    unfold call. rewrite Hh2. cbn [handlers mS]. rewrite Hh1.
    exists m2. rewrite Hg2. split; [reflexivity|].
    split; [rewrite Hm2; reflexivity|].
    split; [exact Ht2|]. split; [exact Hs2|].
    intros ->. discriminate.
Qed.

Lemma handlePointerDown_calls (p : PointerState) (m : Manager) :
  currentMode (snd (handlePointerDown p m)) <> currentMode m ->
  transition_calls (PointerDown p) m (handlePointerDown p m).
Proof.
  unfold transition_calls, handlePointerDown.
  rewrite (bind_ok this _ m m [] m eq_refl). cbn [app fst snd].
  rewrite (bind_ok (set_activePointers _) _ m tt [] _ eq_refl). cbn [app fst snd].
  rewrite (bind_ok (set_lastUpdateTime _) _ _ tt [] _ eq_refl). cbn [app fst snd].
  rewrite (bind_ok this _ _ _ [] _ eq_refl). cbn [app fst snd].
  set (m2 := mkManager _ _ _ _ _ _).
  assert (Hg2 : currentGesture m2 = currentGesture m) by reflexivity.
  assert (Hm2 : currentMode m2 = currentMode m) by reflexivity.
  assert (Hh2 : handlers m2 = handlers m) by reflexivity.
  assert (Hl2 : lastUpdateTime m2 = Pointer.timestamp p) by reflexivity.
  clearbody m2.
  destruct (TouchMode_eqb (determineTouchMode m2) (currentMode m2)) eqn:E; cbn [negb].
  - intros Hne. exfalso. apply Hne.
    pose proof (quiet_updateCurrentGesture p m2) as [_ [Hm _]]. congruence.
  - intros _.
    assert (Hd : determineTouchMode m2 <> currentMode m2).
    { intros Eq. apply TouchMode_eqb_eq in Eq. congruence. }
    destruct (transitionToMode_calls (determineTouchMode m2) p m2 (or_intror Hd))
      as [m' [E' [Hm' Hg']]].
    rewrite E'. cbn [fst snd]. rewrite Hm'.
    split; [reflexivity|]. split; [|exact Hg'].
    unfold closing. rewrite Hg2, Hh2, Hl2, Hm2. reflexivity.
Qed.

Lemma handlePointerUp_calls (p : PointerState) (m : Manager) :
  currentMode (snd (handlePointerUp p m)) <> currentMode m ->
  transition_calls (PointerUp p) m (handlePointerUp p m).
Proof.
  unfold transition_calls, handlePointerUp.
  rewrite (bind_ok this _ m m [] m eq_refl). cbn [app fst snd].
  rewrite (bind_ok (set_activePointers _) _ m tt [] _ eq_refl). cbn [app fst snd].
  rewrite (bind_ok (set_lastUpdateTime _) _ _ tt [] _ eq_refl). cbn [app fst snd].
  rewrite (bind_ok this _ _ _ [] _ eq_refl). cbn [app fst snd].
  set (m2 := mkManager _ _ _ _ _ _).
  assert (Hg2 : currentGesture m2 = currentGesture m) by reflexivity.
  assert (Hm2 : currentMode m2 = currentMode m) by reflexivity.
  assert (Hh2 : handlers m2 = handlers m) by reflexivity.
  assert (Hl2 : lastUpdateTime m2 = Pointer.timestamp p) by reflexivity.
  clearbody m2.
  destruct (TouchMode_eqb (determineTouchMode m2) (currentMode m2)) eqn:E; cbn [negb].
  - intros Hne. exfalso. apply Hne.
    pose proof (quiet_updateCurrentGesture p m2) as [_ [Hm _]]. congruence.
  - intros _.
    destruct (endCurrentGesture_calls m2) as [m1 [E1 [Hg1 [Hm1 [Hp1 [Hh1 Hl1]]]]]].
    rewrite (bind_ok endCurrentGesture _ m2 tt _ m1 E1).
    destruct (transitionToMode_calls (determineTouchMode m2) p m1 (or_introl Hg1))
      as [m' [E' [Hm' Hg']]].
    rewrite E'. cbn [fst snd]. rewrite Hm', Hg1. cbn [app].
    split; [reflexivity|]. split; [|exact Hg'].
    unfold closing. rewrite Hh1, Hm1, Hg2, Hh2, Hl2, Hm2. reflexivity.
Qed.

Lemma handlePointerCancel_calls (p : PointerState) (m : Manager) :
  transition_calls (PointerCancel p) m (handlePointerCancel p m).
Proof.
  unfold transition_calls, handlePointerCancel.
  rewrite (bind_ok this _ m m [] m eq_refl). cbn [app fst snd].
  rewrite (bind_ok (set_activePointers _) _ m tt [] _ eq_refl). cbn [app fst snd].
  set (m2 := mkManager _ _ _ _ _ _).
  assert (Hg2 : currentGesture m2 = currentGesture m) by reflexivity.
  assert (Hm2 : currentMode m2 = currentMode m) by reflexivity.
  assert (Hh2 : handlers m2 = handlers m) by reflexivity.
  assert (Hl2 : lastUpdateTime m2 = lastUpdateTime m) by reflexivity.
  clearbody m2.
  destruct (cancelCurrentGesture_calls m2) as [m1 [E1 [Hg1 [Hm1 [Hp1 [Hh1 Hl1]]]]]].
  rewrite (bind_ok cancelCurrentGesture _ m2 tt _ m1 E1).
  rewrite (bind_ok this _ _ _ [] _ eq_refl). cbn [app fst snd].
  destruct (transitionToMode_calls (determineTouchMode m1) p m1 (or_introl Hg1))
    as [m' [E' [Hm' Hg']]].
  rewrite E'. cbn [fst snd]. rewrite Hm', Hg1. cbn [app].
  split; [reflexivity|]. split; [|exact Hg'].
  unfold closing. rewrite Hh1, Hm1, Hg2, Hh2, Hl2, Hm2. reflexivity.
Qed.

(** C9 (amended): a pointer event that changes the mode returns normally and
    calls, in this order and each only if it is set: the handler that closes
    the gesture that was live ([onGestureEnded], or [onGestureCancelled] on a
    cancel), if there was one; [onGestureStarted] with the gesture that is
    live afterwards, if the new mode is not idle; and [onTouchModeChanged],
    once, with the old and the new mode.  Nothing else is called.  A move
    event on a pointer id absent from the pointer map returns at once: no
    handler is called and the manager is unchanged. *)
Theorem notifications_of_a_mode_transition :
  forall (m : Manager) (e : Event),
    (isPointerEvent e = true ->
     currentMode (stateAfter e m) <> currentMode m ->
     fst (fst (dispatch e m)) = Ok tt
     /\ notificationsOf e m
        = closing e m
          ++ opening (handlers m) (currentGesture (stateAfter e m))
          ++ (if onTouchModeChanged (handlers m)
              then [TouchModeChanged (currentMode m) (currentMode (stateAfter e m))]
              else [])
     /\ match currentGesture (stateAfter e m) with
        | None => currentMode (stateAfter e m) = IDLE
        | Some gesture =>
            type gesture = currentMode (stateAfter e m)
            /\ state gesture = BEGAN
            /\ currentMode (stateAfter e m) <> IDLE
        end)
    /\ (forall pointer,
          e = PointerMove pointer ->
          Map_get (activePointers m) (Pointer.id pointer) = None ->
          dispatch e m = (Ok tt, [], m)).
Proof.
  intros m e. split.
  - intros He Hne. unfold stateAfter, notificationsOf in *.
    destruct e as [p|p|p|p| |h]; cbn [dispatch] in *; try discriminate.
    + exact (handlePointerDown_calls p m Hne).
    + exfalso. apply Hne. apply (handlePointerMove_keeps_mode p m).
    + exact (handlePointerUp_calls p m Hne).
    + exact (handlePointerCancel_calls p m).
  - intros pointer -> Hget. cbn [dispatch]. unfold handlePointerMove.
    rewrite (bind_ok this _ m m [] m eq_refl). rewrite Hget. reflexivity.
Qed.

End TouchProperties.

Section TouchWitnesses.
Import TouchState.

(** The first finger down on a fresh manager with every handler set calls
    two handlers: gesture-started and mode-changed. *)
Lemma first_pointer_down_notifies_twice :
  List.length (notificationsOf (PointerDown (Sample.finger 1 0 0 1))
                               (new (Some allHandlers)))
  = 2%nat
  /\ currentMode (stateAfter (PointerDown (Sample.finger 1 0 0 1))
                             (new (Some allHandlers)))
     = DRAWING.
Proof.
  unfold notificationsOf, stateAfter. cbn.
  unfold startGesture, bind, this, lift, calculateCentroid, Pointer.calculateCentroid.
  cbn. unfold Vec2.divide. js_compare. cbn. auto.
Qed.

Lemma one_notification_per_transition_fails :
  ~ AsSpecified.one_notification_per_transition
      (new (Some allHandlers)) (PointerDown (Sample.finger 1 0 0 1)).
Proof.
  unfold AsSpecified.one_notification_per_transition. intros H.
  destruct first_pointer_down_notifies_twice as [Hlen Hmode].
  rewrite Hlen in H. rewrite Hmode in H.
  assert (E : 2%nat = 1%nat) by (apply H; [reflexivity | discriminate]).
  discriminate.
Qed.

Lemma notifications_of_a_mode_transition_witness :
  exists gesture,
    currentGesture (stateAfter (PointerDown (Sample.finger 1 0 0 1))
                               (new (Some allHandlers)))
    = Some gesture
    /\ type gesture = DRAWING
    /\ notificationsOf (PointerDown (Sample.finger 1 0 0 1)) (new (Some allHandlers))
       = [GestureStarted gesture; TouchModeChanged IDLE DRAWING]
    /\ dispatch (PointerMove (Sample.finger 7 0 0 1)) (new (Some allHandlers))
       = (Ok tt, [], new (Some allHandlers)).
Proof.
  destruct (notifications_of_a_mode_transition
              (new (Some allHandlers)) (PointerDown (Sample.finger 1 0 0 1))) as [H _].
  destruct (notifications_of_a_mode_transition
              (new (Some allHandlers)) (PointerMove (Sample.finger 7 0 0 1))) as [_ H'].
  destruct first_pointer_down_notifies_twice as [_ Hmode].
  destruct H as [_ [Hout Hlive]];
    [reflexivity | rewrite Hmode; discriminate|].
  rewrite Hmode in Hout, Hlive.
  destruct (currentGesture (stateAfter (PointerDown (Sample.finger 1 0 0 1))
                                       (new (Some allHandlers)))) as [gesture|];
    [|discriminate].
  exists gesture. split; [reflexivity|]. split; [apply Hlive|].
  split; [exact Hout|].
  apply (H' (Sample.finger 7 0 0 1)); reflexivity.
Defined.

(** Two fingers go down and are lifted again: drawing, pan-zoom, drawing,
    idle. *)
Example two_fingers_down_and_up :
  let down1 := PointerDown (Sample.finger 1 0 0 1) in
  let down2 := PointerDown (Sample.finger 2 10 0 2) in
  let up1 := PointerUp (Sample.finger 1 0 0 3) in
  let up2 := PointerUp (Sample.finger 2 10 0 4) in
  map (fun events => (activePointerCount (run None events), touchMode (run None events)))
      [[down1]; [down1; down2]; [down1; down2; up1]; [down1; down2; up1; up2]]
  = [(1%nat, DRAWING); (2%nat, PAN_ZOOM); (1%nat, DRAWING); (0%nat, IDLE)].
Proof.
  intros down1 down2 up1 up2. unfold touchMode, run. cbn [map].
  rewrite !run_from_keeps_mode_settled by reflexivity.
  unfold determineTouchMode, activePointerCount. cbn [fold_left].
  subst down1 down2 up1 up2.
  repeat (rewrite activePointers_after; cbn [Pointer.id Sample.finger]).
  reflexivity.
Qed.

End TouchWitnesses.

(** ** Undo hold *)

Section UndoProperties.
Import GestureRecognizer.
Context {Pt : Type}.
Local Abbreviation PointerState := (@Pointer.PointerState Pt).
Local Abbreviation Recognizer := (@GestureRecognizer Pt).

Lemma record_keeps_undoState (recognized : list RecognizedGesture) :
  forall g : Recognizer,
    undoState (fold_left record recognized g) = undoState g
    /\ options (fold_left record recognized g) = options g.
Proof.
  induction recognized as [|x rest IH]; intros g; cbn [fold_left]; [auto|].
  destruct (IH (record g x)) as [Hu Ho]. rewrite Hu, Ho.
  unfold record. destruct (isFinished (phase x)); cbn; auto.
Qed.

(** The first evaluation starts the tracking and returns nothing. *)
Lemma recognizeGestures_undo_starts (g : Recognizer) (pointers : list PointerState)
    (now : R) :
  undoState g = None ->
  (3 <= List.length pointers)%nat ->
  exists g',
    recognizeGestures g pointers TouchState.UNDO now = (Ok [], g')
    /\ undoState g' = Some (mkUndo now (undoHoldTime (options g)) false)
    /\ options g' = options g.
Proof.
  intros Hu Hlen. unfold recognizeGestures.
  apply Nat.leb_le in Hlen. rewrite Hlen.
  unfold andThen, recognizeUndo. cbn [cleanupFinishedGestures set_activeGestures undoState options].
  apply Nat.leb_le in Hlen.
  replace (List.length pointers <? 3)%nat with false
    by (symmetry; apply Nat.ltb_ge; exact Hlen).
  destruct (calculateCentroid_returns pointers) as [c Ec]. rewrite Ec.
  rewrite Hu. cbn. eexists. split; [reflexivity|]. cbn. auto.
Qed.

(** A later evaluation, with the tracking started at [start]. *)
Lemma recognizeGestures_undo_tracks (g : Recognizer) (pointers : list PointerState)
    (start required now : R) (confirmed : bool) :
  undoState g = Some (mkUndo start required confirmed) ->
  start <> 0 ->
  (3 <= List.length pointers)%nat ->
  exists gesture g',
    recognizeGestures g pointers TouchState.UNDO now = (Ok [gesture], g')
    /\ type gesture = UNDO
    /\ duration gesture = now - start
    /\ confidence gesture = Rmin 1 ((now - start) / required)
    /\ data gesture = UndoData (now - start) (Rmin 1 ((now - start) / required))
    /\ phase gesture
       = (if now - start >=? required
          then (if confirmed then ENDED else CHANGED) else BEGAN)
    /\ undoState g'
       = Some (mkUndo start required (confirmed || (now - start >=? required)))
    /\ options g' = options g.
Proof.
  intros Hu Hstart Hlen. unfold recognizeGestures.
  apply Nat.leb_le in Hlen. rewrite Hlen.
  unfold andThen, recognizeUndo. cbn [cleanupFinishedGestures set_activeGestures undoState options].
  apply Nat.leb_le in Hlen.
  replace (List.length pointers <? 3)%nat with false
    by (symmetry; apply Nat.ltb_ge; exact Hlen).
  destruct (calculateCentroid_returns pointers) as [c Ec]. rewrite Ec.
  rewrite Hu. cbn [undo_startTime undo_requiredHoldTime undo_isConfirmed].
  rewrite (proj2 (eqb_false_iff start 0) Hstart).
  cbn [app].
  match goal with
  | |- context [fold_left record [?x] ?g0] =>
      destruct (record_keeps_undoState [x] g0) as [Hu' Ho']
  end.
  eexists. eexists. split; [reflexivity|].
  rewrite Hu', Ho'. cbn.
  repeat split.
  - destruct (now - start >=? required); cbn.
    + rewrite orb_true_r. reflexivity.
    + rewrite orb_false_r. rewrite Hu. reflexivity.
  - destruct (now - start >=? required); reflexivity.
Qed.

Lemma evaluations_cons (g : Recognizer) (pointers : list PointerState)
    (mode : TouchState.TouchMode) (now : R) (later : list R) :
  fst (evaluations g pointers mode (now :: later))
  = fst (recognizeGestures g pointers mode now)
    :: fst (evaluations (snd (recognizeGestures g pointers mode now)) pointers mode later).
Proof.
  cbn [evaluations]. destruct (recognizeGestures g pointers mode now) as [r g'].
  cbn [fst snd]. destruct (evaluations g' pointers mode later) as [rest g''].
  reflexivity.
Qed.

Lemma evaluations_undo_tracking (pointers : list PointerState) (start required : R)
    (clock : list R) :
  start <> 0 ->
  (3 <= List.length pointers)%nat ->
  forall (g : Recognizer) (confirmed : bool) (i : nat) (now : R),
    undoState g = Some (mkUndo start required confirmed) ->
    nth_error clock i = Some now ->
    exists gesture,
      nth_error (fst (evaluations g pointers TouchState.UNDO clock)) i
      = Some (Ok [gesture])
      /\ type gesture = UNDO
      /\ duration gesture = now - start
      /\ confidence gesture = Rmin 1 ((now - start) / required)
      /\ data gesture = UndoData (now - start) (Rmin 1 ((now - start) / required))
      /\ phase gesture
         = (if now - start >=? required
            then (if confirmed || confirmedBy start required (firstn i clock)
                  then ENDED else CHANGED)
            else BEGAN).
Proof.
  intros Hstart Hlen.
  induction clock as [|t later IH]; intros g confirmed i now Hu Hi.
  - destruct i; discriminate.
  - rewrite evaluations_cons.
    destruct (recognizeGestures_undo_tracks g pointers start required t confirmed
                Hu Hstart Hlen)
      as [gesture [g' [E [Hty [Hd [Hc [Hdata [Hph [Hu' Ho']]]]]]]]].
    rewrite E. cbn [fst snd].
    destruct i as [|i]; cbn [nth_error firstn] in *.
    + inversion Hi. subst t. exists gesture.
      unfold confirmedBy. cbn [existsb]. rewrite orb_false_r. auto 10.
    + destruct (IH g' _ i now Hu' Hi) as [gesture' [En H]].
      exists gesture'. split; [exact En|].
      unfold confirmedBy in *. cbn [existsb].
      rewrite orb_assoc. exact H.
Qed.

(** The recognizer's reports along a hold that starts the tracking. *)
Lemma undo_reports_along_hold :
  forall (g : Recognizer) (pointers : list PointerState) (start : R)
         (clock : list R) (i : nat) (now : R),
    undoState g = None ->
    0 < undoHoldTime (options g) ->
    (3 <= List.length pointers)%nat ->
    start <> 0 ->
    nth_error clock i = Some now ->
    nth_error (fst (evaluations g pointers TouchState.UNDO (start :: clock))) 0
    = Some (Ok [])
    /\ exists gesture,
        nth_error (fst (evaluations g pointers TouchState.UNDO (start :: clock))) (S i)
        = Some (Ok [gesture])
        /\ type gesture = UNDO
        /\ data gesture = UndoData (now - start) (confidence gesture)
        /\ (now - start < undoHoldTime (options g) ->
            phase gesture = BEGAN
            /\ confidence gesture = (now - start) / undoHoldTime (options g)
            /\ confidence gesture < 1)
        /\ (undoHoldTime (options g) <= now - start ->
            confidence gesture = 1
            /\ phase gesture
               = if confirmedBy start (undoHoldTime (options g)) (firstn i clock)
                 then ENDED else CHANGED).
Proof.
  intros g pointers start clock i now Hu Hpos Hlen Hstart Hi.
  rewrite evaluations_cons.
  destruct (recognizeGestures_undo_starts g pointers start Hu Hlen) as [g' [E [Hu' Ho']]].
  rewrite E. cbn [fst snd nth_error]. split; [reflexivity|].
  destruct (evaluations_undo_tracking pointers start (undoHoldTime (options g)) clock
              Hstart Hlen g' false i now Hu' Hi)
    as [gesture [En [Hty [Hd [Hc [Hdata Hph]]]]]].
  exists gesture. split; [exact En|]. split; [exact Hty|].
  split; [rewrite Hc; exact Hdata|].
  set (required := undoHoldTime (options g)) in *.
  assert (Hratio : now - start < required -> (now - start) / required < 1).
  { intros Hlt. apply (Rmult_lt_reg_r required); [exact Hpos|].
    unfold Rdiv. rewrite Rmult_assoc, Rinv_l by lra. lra. }
  assert (Hratio' : required <= now - start -> 1 <= (now - start) / required).
  { intros Hle. apply (Rmult_le_reg_r required); [exact Hpos|].
    unfold Rdiv. rewrite Rmult_assoc, Rinv_l by lra. lra. }
  split.
  - intros Hlt. specialize (Hratio Hlt).
    assert (Hmin : Rmin 1 ((now - start) / required) = (now - start) / required)
      by (apply Rmin_right; lra).
    rewrite Hph, Hc, Hmin.
    unfold JS.geb. rewrite (proj2 (leb_false_iff required (now - start)) Hlt).
    auto.
  - intros Hle. specialize (Hratio' Hle).
    rewrite Hph, Hc.
    unfold JS.geb. rewrite (proj2 (leb_iff required (now - start)) Hle).
    cbn [orb]. split; [apply Rmin_left; exact Hratio' | reflexivity].
Qed.


(** C8 (amended): three or more pointers held through a sequence of
    evaluations in undo mode, on a recognizer not yet tracking an undo, with a
    positive hold time and the first clock reading not zero.  The first
    evaluation starts the tracking and returns nothing.  Each later one
    returns the undo gesture: before the hold time has elapsed it is in
    phase began with confirmation progress holdDuration/requiredHoldTime,
    below 1; from then on the progress is 1, the first such evaluation
    reports phase changed and every later one reports phase ended. *)
Theorem undo_hold_progress_and_phase :
  forall (g : Recognizer) (pointers : list PointerState) (start : R)
         (clock : list R) (i : nat) (now : R),
    undoState g = None ->
    0 < undoHoldTime (options g) ->
    (3 <= List.length pointers)%nat ->
    start <> 0 ->
    nth_error clock i = Some now ->
    nth_error (fst (evaluations g pointers TouchState.UNDO (start :: clock))) 0
    = Some (Ok [])
    /\ exists gesture,
        nth_error (fst (evaluations g pointers TouchState.UNDO (start :: clock))) (S i)
        = Some (Ok [gesture])
        /\ type gesture = UNDO
        /\ data gesture = UndoData (now - start) (confidence gesture)
        /\ (now - start < undoHoldTime (options g) ->
            phase gesture = BEGAN
            /\ confidence gesture = (now - start) / undoHoldTime (options g)
            /\ confidence gesture < 1)
        /\ (undoHoldTime (options g) <= now - start ->
            confidence gesture = 1
            /\ phase gesture
               = if confirmedBy start (undoHoldTime (options g)) (firstn i clock)
                 then ENDED else CHANGED).
Proof.
  intros g pointers start clock i now. apply undo_reports_along_hold.
Qed.

End UndoProperties.

Section UndoWitnesses.
Import GestureRecognizer.

(** Tracking starts at clock reading 1; the evaluation at reading 1000, a
    hold of 999 against the default 800, reports phase changed, and the
    sequence ends there. *)
Lemma first_confirming_evaluation_reports_changed :
  exists gesture,
    fst (evaluations (new noOptions) Sample.three_fingers TouchState.UNDO [1; 1000])
    = [Ok []; Ok [gesture]]
    /\ phase gesture = CHANGED.
Proof.
  rewrite evaluations_cons.
  destruct (recognizeGestures_undo_starts (new noOptions) Sample.three_fingers 1)
    as [g' [E [Hu _]]]; [reflexivity | cbn; lia |].
  rewrite E. cbn [fst snd]. rewrite evaluations_cons.
  destruct (recognizeGestures_undo_tracks g' Sample.three_fingers 1 800 1000 false)
    as [gesture [g'' [E' [_ [_ [_ [_ [Hph _]]]]]]]];
    [exact Hu | lra | cbn; lia |].
  rewrite E'. cbn [fst snd evaluations]. exists gesture. split; [reflexivity|].
  rewrite Hph. js_compare. reflexivity.
Qed.

Lemma undo_ends_once_held_fails :
  ~ AsSpecified.undo_ends_once_held (new noOptions) Sample.three_fingers 1 [1000].
Proof.
  unfold AsSpecified.undo_ends_once_held. intros H.
  destruct (H 0%nat 1000 eq_refl) as [j [gesture [E [Hph _]]]]; [cbn; lra|].
  destruct first_confirming_evaluation_reports_changed as [gesture' [E' Hph']].
  rewrite E' in E.
  destruct j as [|[|[|j]]]; cbn in E; try discriminate.
  inversion E. subst gesture'. congruence.
Qed.

Lemma undo_hold_progress_and_phase_witness :
  exists gesture,
    nth_error (fst (evaluations (new noOptions) Sample.three_fingers TouchState.UNDO
                                [1; 401; 1000; 1016])) 3
    = Some (Ok [gesture])
    /\ phase gesture = ENDED
    /\ confidence gesture = 1.
Proof.
  destruct (undo_hold_progress_and_phase (new noOptions) Sample.three_fingers 1
              [401; 1000; 1016] 2 1016) as [_ [gesture [E [_ [_ [_ H]]]]]];
    try reflexivity; try (cbn; lra); try (cbn; lia).
  exists gesture. split; [exact E|].
  destruct H as [Hc Hph]; [cbn; lra|].
  split; [|exact Hc]. rewrite Hph.
  unfold confirmedBy. cbn. js_compare. reflexivity.
Defined.

End UndoWitnesses.

(** ** Two-point runs *)

Section TwoPointRuns.
Import StrokeToGeometry.

Lemma sqrt_of_zero (a : R) : a = 0 -> sqrt a = 0.
Proof. intros ->. apply sqrt_0. Qed.

Lemma distanceTo_self (p : Vec2) : Vec2.distanceTo p p = 0.
Proof.
  unfold Vec2.distanceTo, Vec2.length, Vec2.lengthSquared, Vec2.subtract. cbn.
  apply sqrt_of_zero. ring.
Qed.

Lemma clampParameter_0 : Segment.clampParameter 0 = 0.
Proof.
  unfold Segment.clampParameter, Rmax, Rmin.
  destruct (Rle_dec 1 0); destruct (Rle_dec 0 _); lra.
Qed.

Lemma clampParameter_1 : Segment.clampParameter 1 = 1.
Proof.
  unfold Segment.clampParameter, Rmax, Rmin.
  destruct (Rle_dec 1 1); destruct (Rle_dec 0 _); lra.
Qed.

(** In exact arithmetic both endpoints of a line segment lie on it. *)
Lemma line_distanceToPoint_start (id : Segment.Id) (p q : Vec2) :
  Segment.line_distanceToPoint (Segment.mkLine id p q) p = 0.
Proof.
  unfold Segment.line_distanceToPoint. cbn [Segment.line_startPoint Segment.line_endPoint].
  destruct (Vec2.lengthSquared (Vec2.subtract q p) =? 0); [apply distanceTo_self|].
  replace (Vec2.dot (Vec2.subtract p p) (Vec2.subtract q p)
           / Vec2.lengthSquared (Vec2.subtract q p)) with 0
    by (unfold Vec2.dot, Vec2.subtract; cbn; unfold Rdiv; ring).
  rewrite clampParameter_0.
  unfold Segment.line_pointAt, Vec2.lerp, Vec2.distanceTo, Vec2.length,
    Vec2.lengthSquared, Vec2.subtract. cbn.
  apply sqrt_of_zero. ring.
Qed.

Lemma line_distanceToPoint_end (id : Segment.Id) (p q : Vec2) :
  Segment.line_distanceToPoint (Segment.mkLine id p q) q = 0.
Proof.
  unfold Segment.line_distanceToPoint. cbn [Segment.line_startPoint Segment.line_endPoint].
  destruct (Vec2.lengthSquared (Vec2.subtract q p) =? 0) eqn:E.
  - apply eqb_iff in E. unfold Vec2.distanceTo, Vec2.length. apply sqrt_of_zero. exact E.
  - apply eqb_false_iff in E.
    replace (Vec2.dot (Vec2.subtract q p) (Vec2.subtract q p)
             / Vec2.lengthSquared (Vec2.subtract q p)) with 1
      by (unfold Vec2.dot; fold (Vec2.lengthSquared (Vec2.subtract q p));
          field; exact E).
    rewrite clampParameter_1.
    unfold Segment.line_pointAt, Vec2.lerp, Vec2.distanceTo, Vec2.length,
      Vec2.lengthSquared, Vec2.subtract. cbn.
    apply sqrt_of_zero. ring.
Qed.

Lemma calculateLineError_two_points (id : Segment.Id) (p q : Vec2) :
  calculateLineError [p; q] (Segment.mkLine id p q) = 0.
Proof.
  unfold calculateLineError, sum_with. cbn [fold_left].
  rewrite line_distanceToPoint_start, line_distanceToPoint_end.
  apply sqrt_of_zero. unfold Rdiv. ring.
Qed.

(** [fitLine] on two points. *)
Lemma fitLine_two_points (o : ConversionOptions) (p q : Vec2) (w : Segment.World) :
  exists fit,
    fitLine o [p; q] w = (Ok (Some fit), snd (Segment.generateId Segment.LINE w))
    /\ segment fit
       = Segment.Line (Segment.mkLine (fst (Segment.generateId Segment.LINE w)) p q)
    /\ type fit = LINE
    /\ error fit = 0
    /\ points fit = [p; q].
Proof.
  unfold fitLine, Segment.newLineSegment. cbn.
  rewrite calculateLineError_two_points.
  eexists. split; [reflexivity|]. cbn. auto.
Qed.

Lemma isSegmentTooShort_two_points (o : ConversionOptions) (p q : Vec2) :
  isSegmentTooShort o [p; q] = (Vec2.distanceTo p q <? minSegmentLength o).
Proof. reflexivity. Qed.

(** With the default options the run from (0,0) to (1,0) is shorter than the
    minimum segment length and is not fitted at all. *)
Lemma short_two_point_run_is_not_fitted :
  fst (fitSegment DEFAULT_CONVERSION_OPTIONS [Vec2.mk 0 0; Vec2.mk 1 0] Sample.world)
  = Ok None.
Proof.
  unfold fitSegment. cbn [List.length Nat.ltb Nat.leb].
  rewrite isSegmentTooShort_two_points.
  assert (D : Vec2.distanceTo (Vec2.mk 0 0) (Vec2.mk 1 0) = 1).
  { unfold Vec2.distanceTo, Vec2.length, Vec2.lengthSquared, Vec2.subtract. cbn.
    replace ((0 - 1) * (0 - 1) + (0 - 0) * (0 - 0)) with (1 * 1) by ring.
    apply sqrt_square. lra. }
  rewrite D. cbn [minSegmentLength DEFAULT_CONVERSION_OPTIONS].
  js_compare. reflexivity.
Qed.

Lemma two_point_run_fits_line_fails :
  ~ AsSpecified.two_point_run_fits_line
      DEFAULT_CONVERSION_OPTIONS (Vec2.mk 0 0) (Vec2.mk 1 0) Sample.world.
Proof.
  unfold AsSpecified.two_point_run_fits_line. intros [fit [id [H _]]].
  rewrite short_two_point_run_is_not_fitted in H. discriminate.
Qed.

(** C5 (amended): for every run of exactly two points whose distance is at
    least [minSegmentLength], the converter returns a fit of type line whose
    segment runs from the first point to the second and whose points are the
    run; for a shorter run it returns no fit.  The line fit itself has this
    segment whatever the distance.  Nothing is asserted about the error of
    the fit. *)
Theorem two_point_run_fits_line_unless_too_short :
  forall (o : ConversionOptions) (p q : Vec2) (w : Segment.World),
    (minSegmentLength o <= Vec2.distanceTo p q ->
     exists fit,
       fst (fitSegment o [p; q] w) = Ok (Some fit)
       /\ segment fit
          = Segment.Line (Segment.mkLine (fst (Segment.generateId Segment.LINE w)) p q)
       /\ type fit = LINE
       /\ points fit = [p; q])
    /\ (Vec2.distanceTo p q < minSegmentLength o ->
        fst (fitSegment o [p; q] w) = Ok None)
    /\ (exists fit,
          fst (fitLine o [p; q] w) = Ok (Some fit)
          /\ segment fit
             = Segment.Line (Segment.mkLine (fst (Segment.generateId Segment.LINE w)) p q)
          /\ type fit = LINE
          /\ points fit = [p; q]).
Proof.
  intros o p q w.
  assert (Hline : exists fit,
             fst (fitLine o [p; q] w) = Ok (Some fit)
             /\ segment fit
                = Segment.Line
                    (Segment.mkLine (fst (Segment.generateId Segment.LINE w)) p q)
             /\ type fit = LINE
             /\ points fit = [p; q]).
  { unfold fitLine, Segment.newLineSegment. cbn [List.length Nat.ltb Nat.leb].
    destruct (Segment.generateId Segment.LINE w) as [id w1]. cbn.
    eexists. split; [reflexivity|]. cbn. auto. }
  destruct Hline as [fit [E [Hs [Ht Hp]]]].
  split; [|split].
  - intros D. exists fit. split; [|auto].
    unfold fitSegment. cbn [List.length Nat.ltb Nat.leb].
    rewrite isSegmentTooShort_two_points.
    rewrite (proj2 (ltb_false_iff _ _) D).
    unfold bindM. destruct (fitLine o [p; q] w) as [r w1]. cbn [fst] in E. subst r.
    rewrite andb_false_r. cbn. reflexivity.
  - intros Hshort. unfold fitSegment. cbn [List.length Nat.ltb Nat.leb].
    rewrite isSegmentTooShort_two_points.
    rewrite (proj2 (ltb_iff _ _) Hshort). reflexivity.
  - exists fit. auto.
Qed.

Lemma two_point_run_fits_line_unless_too_short_witness :
  minSegmentLength DEFAULT_CONVERSION_OPTIONS
  <= Vec2.distanceTo (Vec2.mk 0 0) (Vec2.mk 30 0)
  /\ exists fit,
      fst (fitSegment DEFAULT_CONVERSION_OPTIONS [Vec2.mk 0 0; Vec2.mk 30 0] Sample.world)
      = Ok (Some fit)
      /\ segment fit
         = Segment.Line
             (Segment.mkLine (fst (Segment.generateId Segment.LINE Sample.world))
                             (Vec2.mk 0 0) (Vec2.mk 30 0))
      /\ type fit = LINE
      /\ points fit = [Vec2.mk 0 0; Vec2.mk 30 0].
Proof.
  assert (D : minSegmentLength DEFAULT_CONVERSION_OPTIONS
              <= Vec2.distanceTo (Vec2.mk 0 0) (Vec2.mk 30 0)).
  { unfold Vec2.distanceTo, Vec2.length, Vec2.lengthSquared, Vec2.subtract. cbn.
    replace ((0 - 30) * (0 - 30) + (0 - 0) * (0 - 0)) with (30 * 30) by ring.
    rewrite sqrt_square; lra. }
  split; [exact D|].
  destruct (two_point_run_fits_line_unless_too_short
              DEFAULT_CONVERSION_OPTIONS (Vec2.mk 0 0) (Vec2.mk 30 0) Sample.world)
    as [Hlong _].
  exact (Hlong D).
Defined.

End TwoPointRuns.

(** ** Determinism *)

Section Determinism.
Import StrokeToGeometry.

Lemma stable_ret {A} (same : A -> A -> Prop) (a b : A) :
  same a b -> stable same (ret a) (ret b).
Proof. intros H w1 w2. cbn. constructor. exact H. Qed.

Lemma stable_bindM {A B} (sameA : A -> A -> Prop) (sameB : B -> B -> Prop)
    (m1 m2 : M A) (k1 k2 : A -> M B) :
  stable sameA m1 m2 ->
  (forall a b, sameA a b -> stable sameB (k1 a) (k2 b)) ->
  stable sameB (bindM m1 k1) (bindM m2 k2).
Proof.
  intros Hm Hk w1 w2. unfold bindM. specialize (Hm w1 w2).
  destruct (m1 w1) as [r1 w1'], (m2 w2) as [r2 w2']. cbn in Hm.
  inversion Hm; subst; cbn; try constructor.
  apply Hk. assumption.
Qed.

Lemma calculateFitScore_same (a b : GeometryFitResult) :
  sameFit a b -> calculateFitScore a = calculateFitScore b.
Proof.
  unfold sameFit, fitParameters. intros H. inversion H.
  unfold calculateFitScore. congruence.
Qed.

Lemma consider_same (rest1 rest2 : list GeometryFitResult) :
  Forall2 sameFit rest1 rest2 ->
  forall best1 best2 score,
    sameFit best1 best2 ->
    sameFit (fst (fold_left consider rest1 (best1, score)))
            (fst (fold_left consider rest2 (best2, score))).
Proof.
  induction 1 as [|x y rest1 rest2 Hxy _ IH]; intros best1 best2 score Hb;
    cbn [fold_left]; [exact Hb|].
  unfold consider at 2 4. cbn [snd].
  rewrite (calculateFitScore_same x y Hxy).
  destruct (calculateFitScore y >? score); apply IH; assumption.
Qed.

Lemma selectBestFit_same (results1 results2 : list GeometryFitResult) :
  Forall2 sameFit results1 results2 ->
  sameOutcome sameFit (selectBestFit results1) (selectBestFit results2).
Proof.
  intros H. destruct H as [|a b rest1 rest2 Hab Hrest]; cbn; [constructor|].
  destruct Hrest as [|a' b' rest1' rest2' Hab' Hrest'].
  - constructor. exact Hab.
  - constructor. rewrite (calculateFitScore_same a b Hab).
    apply consider_same; [constructor; assumption | exact Hab].
Qed.

Lemma fitLine_stable (o : ConversionOptions) (points : list Vec2) :
  stable (sameOption sameFit) (fitLine o points) (fitLine o points).
Proof.
  intros w1 w2. unfold fitLine.
  destruct (List.length points <? 2)%nat; cbn; constructor; cbn; auto.
  reflexivity.
Qed.

Lemma fitArc_stable (o : ConversionOptions) (points : list Vec2) :
  stable (sameOption sameFit) (fitArc o points) (fitArc o points).
Proof.
  intros w1 w2. unfold fitArc.
  destruct (List.length points <? 3)%nat; [cbn; constructor; exact I|].
  unfold Segment.fromThreePoints.
  destruct (Segment.findCircleFromThreePoints _ _ _) as [[center radius]|];
    [|cbn; constructor; exact I].
  unfold Segment.newArcSegment. cbn.
  destruct (Rabs radius =? 0); cbn; constructor; cbn; auto.
  reflexivity.
Qed.

Lemma fitCircle_stable (o : ConversionOptions) (points : list Vec2) :
  stable (sameOption sameFit) (fitCircle o points) (fitCircle o points).
Proof.
  intros w1 w2. unfold fitCircle.
  destruct (List.length points <? 5)%nat; [cbn; constructor; exact I|].
  destruct (_ >? _); [cbn; constructor; exact I|].
  destruct (fitCircleLeastSquares points) as [[center radius]|];
    [|cbn; constructor; exact I].
  unfold Segment.newArcSegment. cbn.
  destruct (Rabs radius =? 0); cbn; constructor; cbn; auto.
  reflexivity.
Qed.

Lemma push_same (results1 results2 : list GeometryFitResult)
    (fit1 fit2 : option GeometryFitResult) :
  Forall2 sameFit results1 results2 ->
  sameOption sameFit fit1 fit2 ->
  Forall2 sameFit (push results1 fit1) (push results2 fit2).
Proof.
  intros Hr Hf. destruct fit1, fit2; cbn in *; try contradiction; try assumption.
  apply Forall2_app; [assumption | constructor; [assumption | constructor]].
Qed.

Lemma fitSegment_stable (o : ConversionOptions) (points : list Vec2) :
  stable (sameOption sameFit) (fitSegment o points) (fitSegment o points).
Proof.
  unfold fitSegment.
  destruct (List.length points <? 2)%nat; [apply stable_ret; exact I|].
  destruct (isSegmentTooShort o points); [apply stable_ret; exact I|].
  apply (stable_bindM (sameOption sameFit)); [apply fitLine_stable|].
  intros line1 line2 Hline.
  apply (stable_bindM (sameOption sameFit)).
  { destruct (_ && _); [apply fitCircle_stable | apply stable_ret; exact I]. }
  intros circle1 circle2 Hcircle.
  apply (stable_bindM (sameOption sameFit)).
  { destruct (3 <=? _)%nat; [apply fitArc_stable | apply stable_ret; exact I]. }
  intros arc1 arc2 Harc.
  assert (Hall : Forall2 sameFit
                   (push (push (push [] line1) circle1) arc1)
                   (push (push (push [] line2) circle2) arc2)).
  { repeat apply push_same; try assumption. constructor. }
  remember (push (push (push [] line1) circle1) arc1) as candidates1.
  remember (push (push (push [] line2) circle2) arc2) as candidates2.
  pose proof (selectBestFit_same _ _ Hall) as Hbest.
  remember (selectBestFit candidates1) as best1.
  remember (selectBestFit candidates2) as best2.
  clear Heqbest1 Heqbest2 Heqcandidates1 Heqcandidates2.
  destruct Hall as [|a b l1 l2 Hab Hl]; [apply stable_ret; exact I|].
  intros w1 w2. destruct Hbest; cbn; constructor. assumption.
Qed.

Lemma accept_same (o : ConversionOptions) (results1 results2 : list GeometryFitResult)
    (fit1 fit2 : option GeometryFitResult) :
  Forall2 sameFit results1 results2 ->
  sameOption sameFit fit1 fit2 ->
  Forall2 sameFit (accept o results1 fit1) (accept o results2 fit2).
Proof.
  intros Hr Hf. destruct fit1 as [a|], fit2 as [b|]; cbn in *;
    try contradiction; try assumption.
  assert (Hc : confidence a = confidence b) by (inversion Hf; reflexivity).
  rewrite Hc. destruct (_ >=? _); [|assumption].
  apply Forall2_app; [assumption | constructor; [assumption | constructor]].
Qed.

Lemma convertRuns_stable (o : ConversionOptions) (points : list Vec2)
    (corners : list nat) :
  forall segmentStart results1 results2,
    Forall2 sameFit results1 results2 ->
    stable sameRuns (convertRuns o points corners segmentStart results1)
                    (convertRuns o points corners segmentStart results2).
Proof.
  induction corners as [|cornerIndex rest IH]; intros segmentStart results1 results2 Hr;
    cbn [convertRuns].
  - apply stable_ret. split; [exact Hr | reflexivity].
  - destruct (segmentStart <? cornerIndex)%nat; [|apply IH; exact Hr].
    apply (stable_bindM (sameOption sameFit)); [apply fitSegment_stable|].
    intros fit1 fit2 Hfit. apply IH. apply accept_same; assumption.
Qed.

Lemma observe_same (r1 r2 : Result (list GeometryFitResult)) :
  sameOutcome (Forall2 sameFit) r1 r2 -> observe r1 = observe r2.
Proof.
  intros H. inversion H as [a b Hab| |]; subst; cbn; try reflexivity.
  f_equal. clear H. induction Hab as [|x y l1 l2 Hxy _ IH]; cbn; [reflexivity|].
  rewrite Hxy, IH. reflexivity.
Qed.

Lemma Constructed_cornerDetector (c : StrokeToGeometryConverter) :
  Constructed c -> cornerDetector c = CornerDetector.new CornerDetector.noOptions.
Proof. induction 1; cbn; auto. Qed.

Section WithPt.
Context {Pt : Type}.

Lemma convertStroke_stable (c : StrokeToGeometryConverter)
    (stroke : @StrokeProcessor.ProcessedStroke Pt) :
  stable (Forall2 sameFit) (convertStroke c stroke) (convertStroke c stroke).
Proof.
  unfold convertStroke.
  destruct (List.length _ <? 2)%nat; [apply stable_ret; constructor|].
  apply (stable_bindM sameRuns); [apply convertRuns_stable; constructor|].
  intros [results1 start1] [results2 start2] [Hr Hs]. cbn in Hr, Hs. subst start2.
  destruct (start1 <? _)%nat; [|apply stable_ret; exact Hr].
  apply (stable_bindM (sameOption sameFit)); [apply fitSegment_stable|].
  intros fit1 fit2 Hfit. apply stable_ret.
  unfold postProcessResults. apply accept_same; assumption.
Qed.

(** C2: two runs of [detectCorners] on detectors with identical options and
    identical points return the same result (corner indices, curvatures,
    confidences and labeled segments); two runs of [convertStroke] on
    converters built by the class with identical options, on the same
    stroke, in whatever state the clock and the random source are, have the
    same outcome and return fits with the same types, fitted parameters,
    errors, confidences, points and metadata.  (The identifier of each
    segment is drawn from the clock and the random source and is not part of
    the comparison.) *)
Theorem detection_and_conversion_are_deterministic :
  forall (d1 d2 : CornerDetector.CornerDetector) (points : list Vec2)
         (c1 c2 : StrokeToGeometryConverter)
         (stroke : @StrokeProcessor.ProcessedStroke Pt) (w1 w2 : Segment.World),
    CornerDetector.options d1 = CornerDetector.options d2 ->
    Constructed c1 -> Constructed c2 -> options c1 = options c2 ->
    CornerDetector.detectCorners d1 points = CornerDetector.detectCorners d2 points
    /\ observe (fst (convertStroke c1 stroke w1)) = observe (fst (convertStroke c2 stroke w2)).
Proof.
  intros d1 d2 points c1 c2 stroke w1 w2 Hd H1 H2 Ho. split.
  - destruct d1, d2. cbn in Hd. subst. reflexivity.
  - assert (E : c1 = c2).
    { pose proof (Constructed_cornerDetector c1 H1) as D1.
      pose proof (Constructed_cornerDetector c2 H2) as D2.
      destruct c1, c2. cbn in *. congruence. }
    subst c2. apply observe_same. apply convertStroke_stable.
Qed.

End WithPt.

(** The identifiers themselves do differ from run to run: the same
    two-point run fitted in two worlds. *)
Lemma segment_identifier_follows_the_world :
  exists fit1 fit2,
    fst (fitLine DEFAULT_CONVERSION_OPTIONS [Vec2.mk 0 0; Vec2.mk 30 0] Sample.world)
    = Ok (Some fit1)
    /\ fst (fitLine DEFAULT_CONVERSION_OPTIONS [Vec2.mk 0 0; Vec2.mk 30 0]
                    Sample.later_world)
       = Ok (Some fit2)
    /\ Segment.id (segment fit1) <> Segment.id (segment fit2)
    /\ fitParameters fit1 = fitParameters fit2.
Proof.
  destruct (fitLine_two_points DEFAULT_CONVERSION_OPTIONS (Vec2.mk 0 0) (Vec2.mk 30 0)
              Sample.world) as [fit1 [E1 [S1 _]]].
  destruct (fitLine_two_points DEFAULT_CONVERSION_OPTIONS (Vec2.mk 0 0) (Vec2.mk 30 0)
              Sample.later_world) as [fit2 [E2 [S2 _]]].
  exists fit1, fit2. rewrite E1, E2. repeat split.
  - rewrite S1, S2. cbn. intros H. inversion H. lra.
  - pose proof (fitLine_stable DEFAULT_CONVERSION_OPTIONS [Vec2.mk 0 0; Vec2.mk 30 0]
                  Sample.world Sample.later_world) as H.
    rewrite E1, E2 in H. cbn in H. inversion H. assumption.
Qed.

Lemma detection_and_conversion_are_deterministic_witness :
  CornerDetector.options (CornerDetector.new CornerDetector.noOptions)
  = CornerDetector.options
      (CornerDetector.updateOptions (CornerDetector.new CornerDetector.noOptions)
                                    CornerDetector.noOptions)
  /\ options (new noOptions) = options (updateOptions (new noOptions) noOptions)
  /\ CornerDetector.detectCorners (CornerDetector.new CornerDetector.noOptions)
                                  [Vec2.mk 0 0; Vec2.mk 30 0]
     = CornerDetector.detectCorners
         (CornerDetector.updateOptions (CornerDetector.new CornerDetector.noOptions)
                                       CornerDetector.noOptions)
         [Vec2.mk 0 0; Vec2.mk 30 0]
  /\ observe (fst (convertStroke (new noOptions) Sample.stroke Sample.world))
     = observe (fst (convertStroke (updateOptions (new noOptions) noOptions)
                                   Sample.stroke Sample.later_world)).
Proof.
  split; [reflexivity|]. split; [reflexivity|].
  apply (detection_and_conversion_are_deterministic
           (CornerDetector.new CornerDetector.noOptions)
           (CornerDetector.updateOptions (CornerDetector.new CornerDetector.noOptions)
                                         CornerDetector.noOptions)
           [Vec2.mk 0 0; Vec2.mk 30 0]
           (new noOptions) (updateOptions (new noOptions) noOptions)
           Sample.stroke Sample.world Sample.later_world).
  - reflexivity.
  - apply constructed_new.
  - apply constructed_update. apply constructed_new.
  - reflexivity.
Defined.

End Determinism.

(** * Further properties of the geometry classes *)

(** ** Mat3 *)

Section Mat3Properties.
Import Mat3.

Lemma Number_EPSILON_bounds : 0 < Number_EPSILON <= 1.
Proof.
  unfold Number_EPSILON.
  assert (H : 1 <= 2 ^ 52) by (apply pow_R1_Rle; lra).
  split.
  - apply Rinv_0_lt_compat. lra.
  - rewrite <- Rinv_1. apply Rinv_le_contravar; lra.
Qed.

(** X8: the translation and scale matrices do what their names say: a
    translation adds its offset to a point, a rotation matrix moves a point
    as [Vec2.rotateBy] does, a scale multiplies the coordinates (both by the
    same factor when only one is given); translations compose by adding their
    offsets, and the inverse of a translation is the translation back, which
    [inverse] returns without throwing. *)
Theorem factory_matrices_act_as_named :
  forall (p : Vec2) (x y a b sx sy : R),
    transformPoint (translation x y) p = Vec2.add p (Vec2.mk x y)
    /\ transformPoint (rotation a) p = Vec2.rotateBy p a
    /\ transformPoint (scale sx (Some sy)) p = Vec2.mk (sx * Vec2.x p) (sy * Vec2.y p)
    /\ transformPoint (scale sx None) p = Vec2.multiply p sx
    /\ multiply (translation x y) (translation a b) = translation (x + a) (y + b)
    /\ inverse (translation x y) = Ok (translation (- x) (- y)).
Proof.
  intros [px py] x y a b sx sy.
  pose proof Number_EPSILON_bounds as [_ Heps].
  assert (Htr : determinant (translation x y) = 1)
    by (unfold determinant, translation; cbn; ring).
  repeat split.
  - unfold transformPoint, translation, Vec2.add. cbn. f_equal; field.
  - unfold transformPoint, rotation, Vec2.rotateBy. cbn. f_equal; field.
  - unfold transformPoint, scale. cbn. f_equal; field.
  - unfold transformPoint, scale, Vec2.multiply. cbn. f_equal; field.
  - unfold multiply, translation. cbn. f_equal; ring.
  - unfold inverse. rewrite Htr, Rabs_R1.
    rewrite (proj2 (ltb_false_iff 1 Number_EPSILON) Heps).
    unfold translation. cbn. f_equal. f_equal; field.
Qed.

(** X31: [fromJSON] reads back what [toJSON] wrote: [toJSON] gives nine
    numbers from which [fromJSON] rebuilds the same matrix; [fromJSON] throws
    on every array that does not have exactly nine elements, and a matrix it
    returns serialises to the array it was read from. *)
Theorem fromJSON_reads_back_toJSON :
  forall (m : Mat3.t) (data : list R),
    fromJSON (toJSON m) = Ok m
    /\ List.length (toJSON m) = 9%nat
    /\ (List.length data <> 9%nat ->
        fromJSON data = Throw "Mat3.fromJSON requires exactly 9 elements")
    /\ (forall m', fromJSON data = Ok m' ->
                   toJSON m' = data /\ List.length data = 9%nat).
Proof.
  intros m data. split; [destruct m; reflexivity|]. split; [reflexivity|].
  destruct data as [|a [|b [|c [|d [|e [|f [|g [|h [|i [|j rest]]]]]]]]]];
    cbn; split; try (intros; reflexivity); try (intros; discriminate);
    try (intros H; exfalso; apply H; reflexivity).
  intros m' H. inversion H. split; reflexivity.
Qed.

End Mat3Properties.

(** ** Pt and TransformContext *)

Section PtProperties.
Import Pt.

(** X12: the lazily filled caches are invisible: reading a point in one
    coordinate system never changes what a later read in any system returns,
    nor its world coordinates or transforms. *)
Theorem reading_coordinates_is_transparent :
  forall (p : Pt.t) (first second : CoordinateSystem),
    fst (inSystem (snd (inSystem p first)) second) = fst (inSystem p second)
    /\ worldCoordinates (snd (inSystem p first)) = worldCoordinates p
    /\ transforms (snd (inSystem p first)) = transforms p.
Proof.
  intros [w s v tr] first second.
  destruct first, second, s, v; cbn; repeat split; reflexivity.
Qed.

End PtProperties.

(** ** LineSegment *)

Section LineProperties.
Import Segment.

(** X14: for two segments that are not parallel within the tolerance,
    [intersectWithLine] never returns null, also when the carrier lines cross
    outside the segments: it reports the crossing at [pointAt(t1)], as
    interior exactly when both parameters lie in [0, 1] and at least the
    tolerance away from both ends, and as endpoint otherwise, so in
    particular whenever a parameter lies outside [0, 1]; never as tangent or
    overlap. *)
Theorem intersectWithLine_reports_crossings_outside_the_segments :
  forall (l other : LineSegment) (tolerance : R),
    tolerance
    <= Rabs (Vec2.cross (Vec2.subtract (line_endPoint l) (line_startPoint l))
                        (Vec2.subtract (line_endPoint other) (line_startPoint other))) ->
    exists s1 s2 type,
      intersectWithLine l other tolerance
      = Some (mkIntersection (line_pointAt l s1) s1 (Some s2) type)
      /\ (type = interior
          <-> (0 <= s1 <= 1 /\ 0 <= s2 <= 1)
              /\ tolerance <= s1 <= 1 - tolerance
              /\ tolerance <= s2 <= 1 - tolerance)
      /\ (type <> interior -> type = endpoint)
      /\ (s1 < 0 \/ 1 < s1 \/ s2 < 0 \/ 1 < s2 -> type = endpoint).
Proof.
  intros l other tol Hcross.
  unfold intersectWithLine.
  rewrite (proj2 (ltb_false_iff _ _) Hcross).
  set (lineVec1 := Vec2.subtract (line_endPoint l) (line_startPoint l)).
  set (lineVec2 := Vec2.subtract (line_endPoint other) (line_startPoint other)).
  set (startDiff := Vec2.subtract (line_startPoint other) (line_startPoint l)).
  set (s1 := Vec2.cross startDiff lineVec2 / Vec2.cross lineVec1 lineVec2).
  set (s2 := Vec2.cross startDiff lineVec1 / Vec2.cross lineVec1 lineVec2).
  cbv zeta. fold s1 s2.
  eexists s1, s2, _. split; [reflexivity|].
  unfold isValidParameter, JS.geb, JS.gtb.
  destruct (0 <=? s1) eqn:A1; destruct (s1 <=? 1) eqn:A2;
    destruct (0 <=? s2) eqn:A3; destruct (s2 <=? 1) eqn:A4;
    destruct (s1 <? tol) eqn:B1; destruct (1 - tol <? s1) eqn:B2;
    destruct (s2 <? tol) eqn:B3; destruct (1 - tol <? s2) eqn:B4;
    cbn [negb andb orb];
    repeat match goal with
           | H : (_ <=? _) = true |- _ => apply leb_iff in H
           | H : (_ <=? _) = false |- _ => apply leb_false_iff in H
           | H : (_ <? _) = true |- _ => apply ltb_iff in H
           | H : (_ <? _) = false |- _ => apply ltb_false_iff in H
           end;
    (split; [split; [intros E; try discriminate E; lra | intros; try reflexivity; exfalso; lra]|]);
    (split; [intros E; try reflexivity; exfalso; apply E; reflexivity|]);
    intros; try reflexivity; exfalso; lra.
Qed.

Lemma intersectWithLine_reports_crossings_outside_the_segments_witness :
  exists s1 s2 type,
    intersectWithLine (mkLine Sample.id (Vec2.mk 0 0) (Vec2.mk 10 0))
                      (mkLine Sample.id (Vec2.mk 50 (-5)) (Vec2.mk 50 5)) 1e-6
    = Some (mkIntersection
              (line_pointAt (mkLine Sample.id (Vec2.mk 0 0) (Vec2.mk 10 0)) s1)
              s1 (Some s2) type)
    /\ (type = interior
        <-> (0 <= s1 <= 1 /\ 0 <= s2 <= 1)
            /\ 1e-6 <= s1 <= 1 - 1e-6
            /\ 1e-6 <= s2 <= 1 - 1e-6).
Proof.
  destruct (intersectWithLine_reports_crossings_outside_the_segments
              (mkLine Sample.id (Vec2.mk 0 0) (Vec2.mk 10 0))
              (mkLine Sample.id (Vec2.mk 50 (-5)) (Vec2.mk 50 5)) 1e-6)
    as [s1 [s2 [type [H1 [H2 _]]]]].
  - unfold Vec2.cross. cbn.
    replace ((10 - 0) * (5 - -5) - (0 - 0) * (50 - 50)) with 100 by ring.
    rewrite Rabs_pos_eq; lra.
  - exists s1, s2, type. split; assumption.
Defined.

End LineProperties.

(** ** Bounding boxes and chains of segments *)

Section SegmentProperties.
Import Segment.

Lemma createBoundingBox_fold (points : list Vec2) :
  forall minX minY maxX maxY,
    minX <= maxX -> minY <= maxY ->
    exists minX' minY' maxX' maxY',
      fold_left
        (fun (acc : R * R * R * R) point =>
           let '(minX, minY, maxX, maxY) := acc in
           (Rmin minX (Vec2.x point), Rmin minY (Vec2.y point),
            Rmax maxX (Vec2.x point), Rmax maxY (Vec2.y point)))
        points (minX, minY, maxX, maxY)
      = (minX', minY', maxX', maxY')
      /\ minX' <= minX /\ minY' <= minY /\ maxX <= maxX' /\ maxY <= maxY'
      /\ (forall p, In p points ->
                    minX' <= Vec2.x p <= maxX' /\ minY' <= Vec2.y p <= maxY')
      /\ (minX' = minX \/ exists p, In p points /\ Vec2.x p = minX')
      /\ (minY' = minY \/ exists p, In p points /\ Vec2.y p = minY')
      /\ (maxX' = maxX \/ exists p, In p points /\ Vec2.x p = maxX')
      /\ (maxY' = maxY \/ exists p, In p points /\ Vec2.y p = maxY').
Proof.
  induction points as [|q points IH]; intros minX minY maxX maxY Hx Hy.
  - exists minX, minY, maxX, maxY. cbn. repeat split; try lra; try tauto; auto.
  - cbn [fold_left].
    destruct (IH (Rmin minX (Vec2.x q)) (Rmin minY (Vec2.y q))
                 (Rmax maxX (Vec2.x q)) (Rmax maxY (Vec2.y q)))
      as [a [b [c [d [E [H1 [H2 [H3 [H4 [Hin [T1 [T2 [T3 T4]]]]]]]]]]]]].
    { pose proof (Rmin_l minX (Vec2.x q)). pose proof (Rmax_l maxX (Vec2.x q)). lra. }
    { pose proof (Rmin_l minY (Vec2.y q)). pose proof (Rmax_l maxY (Vec2.y q)). lra. }
    exists a, b, c, d. split; [exact E|].
    pose proof (Rmin_l minX (Vec2.x q)). pose proof (Rmin_r minX (Vec2.x q)).
    pose proof (Rmin_l minY (Vec2.y q)). pose proof (Rmin_r minY (Vec2.y q)).
    pose proof (Rmax_l maxX (Vec2.x q)). pose proof (Rmax_r maxX (Vec2.x q)).
    pose proof (Rmax_l maxY (Vec2.y q)). pose proof (Rmax_r maxY (Vec2.y q)).
    split; [lra|]. split; [lra|]. split; [lra|]. split; [lra|].
    split; [|split; [|split; [|split]]].
    + intros p [<- | Hp]; [lra | apply (Hin p Hp)].
    + destruct T1 as [T1 | [p [Hp T1]]]; [|right; exists p; cbn; auto].
      rewrite T1. unfold Rmin. destruct (Rle_dec minX (Vec2.x q)); [left; reflexivity|].
      right. exists q. cbn. auto.
    + destruct T2 as [T2 | [p [Hp T2]]]; [|right; exists p; cbn; auto].
      rewrite T2. unfold Rmin. destruct (Rle_dec minY (Vec2.y q)); [left; reflexivity|].
      right. exists q. cbn. auto.
    + destruct T3 as [T3 | [p [Hp T3]]]; [|right; exists p; cbn; auto].
      rewrite T3. unfold Rmax. destruct (Rle_dec maxX (Vec2.x q)); [|left; reflexivity].
      right. exists q. cbn. auto.
    + destruct T4 as [T4 | [p [Hp T4]]]; [|right; exists p; cbn; auto].
      rewrite T4. unfold Rmax. destruct (Rle_dec maxY (Vec2.y q)); [|left; reflexivity].
      right. exists q. cbn. auto.
Qed.

(** X16: the box [createBoundingBox] returns for a non-empty list contains
    every point of the list and is the smallest such box: each of its four
    sides passes through one of the points; its size is [max - min] and its
    center the midpoint of [min] and [max]. *)
Theorem createBoundingBox_is_the_smallest_enclosing_box :
  forall (points : list Vec2) (p : Vec2),
    In p points ->
    Vec2.x (bb_min (createBoundingBox points)) <= Vec2.x p
                                               <= Vec2.x (bb_max (createBoundingBox points))
    /\ Vec2.y (bb_min (createBoundingBox points)) <= Vec2.y p
                                                  <= Vec2.y (bb_max (createBoundingBox points))
    /\ (exists q, In q points /\ Vec2.x q = Vec2.x (bb_min (createBoundingBox points)))
    /\ (exists q, In q points /\ Vec2.y q = Vec2.y (bb_min (createBoundingBox points)))
    /\ (exists q, In q points /\ Vec2.x q = Vec2.x (bb_max (createBoundingBox points)))
    /\ (exists q, In q points /\ Vec2.y q = Vec2.y (bb_max (createBoundingBox points)))
    /\ bb_size (createBoundingBox points)
       = Vec2.subtract (bb_max (createBoundingBox points))
                       (bb_min (createBoundingBox points))
    /\ bb_center (createBoundingBox points)
       = Vec2.multiply (Vec2.add (bb_min (createBoundingBox points))
                                 (bb_max (createBoundingBox points))) 0.5.
Proof.
  intros points p Hp. destruct points as [|first rest]; [contradiction|].
  unfold createBoundingBox.
  destruct (createBoundingBox_fold (first :: rest) (Vec2.x first) (Vec2.y first)
              (Vec2.x first) (Vec2.y first))
    as [a [b [c [d [E [H1 [H2 [H3 [H4 [Hin [T1 [T2 [T3 T4]]]]]]]]]]]]]; try lra.
  rewrite E. cbn [bb_min bb_max bb_size bb_center Vec2.x Vec2.y].
  destruct (Hin p Hp) as [Hx Hy].
  assert (Hfirst : In first (first :: rest)) by (left; reflexivity).
  repeat split; try lra.
  - destruct T1 as [T1 | T1]; [exists first; split; auto | exact T1].
  - destruct T2 as [T2 | T2]; [exists first; split; auto | exact T2].
  - destruct T3 as [T3 | T3]; [exists first; split; auto | exact T3].
  - destruct T4 as [T4 | T4]; [exists first; split; auto | exact T4].
Qed.

Lemma createBoundingBox_is_the_smallest_enclosing_box_witness :
  Vec2.x (bb_min (createBoundingBox [Vec2.mk 3 4; Vec2.mk 1 7])) <= 3
  <= Vec2.x (bb_max (createBoundingBox [Vec2.mk 3 4; Vec2.mk 1 7])).
Proof.
  apply (createBoundingBox_is_the_smallest_enclosing_box
           [Vec2.mk 3 4; Vec2.mk 1 7] (Vec2.mk 3 4)).
  left. reflexivity.
Defined.

(** X32: [boundingBoxesIntersect] does not depend on the order of its
    arguments, and the boxes [createBoundingBox] builds for two lists that
    have a point in common intersect. *)
Theorem boxes_of_lists_sharing_a_point_intersect :
  forall (box1 box2 : BoundingBox) (points1 points2 : list Vec2) (p : Vec2),
    boundingBoxesIntersect box1 box2 = boundingBoxesIntersect box2 box1
    /\ (In p points1 -> In p points2 ->
        boundingBoxesIntersect (createBoundingBox points1) (createBoundingBox points2)
        = true).
Proof.
  intros box1 box2 points1 points2 p. split.
  - unfold boundingBoxesIntersect. f_equal.
    destruct (_ <? _), (_ <? _), (_ <? _), (_ <? _); reflexivity.
  - intros H1 H2.
    assert (Hbox : forall points,
               In p points ->
               Vec2.x (bb_min (createBoundingBox points)) <= Vec2.x p
                 <= Vec2.x (bb_max (createBoundingBox points))
               /\ Vec2.y (bb_min (createBoundingBox points)) <= Vec2.y p
                    <= Vec2.y (bb_max (createBoundingBox points))).
    { intros points Hp. destruct points as [|first rest]; [contradiction|].
      unfold createBoundingBox.
      destruct (createBoundingBox_fold (first :: rest) (Vec2.x first) (Vec2.y first)
                  (Vec2.x first) (Vec2.y first))
        as [a [b [c [d [E [_ [_ [_ [_ [Hin _]]]]]]]]]]; try lra.
      rewrite E. cbn [bb_min bb_max Vec2.x Vec2.y]. apply (Hin p Hp). }
    destruct (Hbox points1 H1) as [Hx1 Hy1]. destruct (Hbox points2 H2) as [Hx2 Hy2].
    unfold boundingBoxesIntersect.
    rewrite !(proj2 (ltb_false_iff _ _)) by lra. reflexivity.
Qed.

Lemma connectPoints_cons (a b : Vec2) (rest : list Vec2) (w : World) :
  connectPoints (a :: b :: rest) w
  = (mkLine (fst (generateId LINE w)) a b
       :: fst (connectPoints (b :: rest) (snd (generateId LINE w))),
     snd (connectPoints (b :: rest) (snd (generateId LINE w)))).
Proof.
  cbn [connectPoints]. unfold newLineSegment.
  destruct (generateId LINE w) as [id w1]. cbn [fst snd].
  destruct rest as [|c rest]; [reflexivity|].
  destruct (generateId LINE w1) as [id2 w2].
  destruct (connectPoints (c :: rest) w2) as [segments w3]. reflexivity.
Qed.

(** X33: [connectPoints] chains the points: it returns one segment per pair
    of neighbouring points, from the first of the pair to the second, in
    order, so each segment starts where the one before it ends; a list of
    fewer than two points gives no segment, and one identifier is generated
    per segment. *)
Theorem connectPoints_chains_the_points :
  forall (points : list Vec2) (w : World),
    map (fun segment => (line_startPoint segment, line_endPoint segment))
        (fst (connectPoints points w))
    = combine points (tl points)
    /\ List.length (fst (connectPoints points w)) = (List.length points - 1)%nat
    /\ calls (snd (connectPoints points w)) = (calls w + (List.length points - 1))%nat.
Proof.
  intros [|a rest]; [intros w; cbn; auto|].
  revert a. induction rest as [|b rest IH]; intros a w; [cbn; auto|].
  rewrite connectPoints_cons. cbn [fst snd].
  destruct (IH b (snd (generateId LINE w))) as [Hmap [Hlen Hcalls]].
  cbn [map line_startPoint line_endPoint List.length tl combine].
  split; [f_equal; exact Hmap|].
  split; [rewrite Hlen; cbn [List.length]; lia|].
  rewrite Hcalls. cbn [generateId snd calls List.length]. lia.
Qed.

End SegmentProperties.

(** * Further properties of the input classes *)

(** ** Corner detection *)

Section CornerProperties.
Import CornerDetector.

Lemma In_insert_sorted_nat (a x : nat) (xs : list nat) :
  In x (insert_sorted_nat a xs) <-> x = a \/ In x xs.
Proof.
  induction xs as [|y xs IH]; cbn.
  - intuition.
  - destruct (a <=? y)%nat; cbn; [intuition|]. rewrite IH. intuition.
Qed.

Lemma In_sort_indices (x : nat) (xs : list nat) : In x (sort_indices xs) <-> In x xs.
Proof.
  induction xs as [|y xs IH]; cbn; [tauto|].
  rewrite In_insert_sorted_nat, IH. intuition.
Qed.

Lemma insert_sorted_nat_sorted (a : nat) (xs : list nat) :
  StronglySorted lt xs -> ~ In a xs -> StronglySorted lt (insert_sorted_nat a xs).
Proof.
  induction 1 as [|y xs Hs IH Hy]; intros Hnot; cbn.
  - constructor; constructor.
  - destruct (a <=? y)%nat eqn:E.
    + apply Nat.leb_le in E.
      assert (a < y)%nat by (cbn in Hnot; lia).
      constructor; [constructor; assumption|].
      constructor; [assumption|].
      rewrite Forall_forall in *. intros z Hz. specialize (Hy z Hz). lia.
    + apply Nat.leb_gt in E. constructor.
      * apply IH. cbn in Hnot. tauto.
      * rewrite Forall_forall in *. intros z Hz.
        apply In_insert_sorted_nat in Hz. destruct Hz as [-> | Hz]; [exact E | auto].
Qed.

Lemma sort_indices_sorted (xs : list nat) :
  NoDup xs -> StronglySorted lt (sort_indices xs).
Proof.
  induction 1 as [|x xs Hx Hnd IH]; cbn; [constructor|].
  apply insert_sorted_nat_sorted; [exact IH|]. rewrite In_sort_indices. exact Hx.
Qed.

Lemma existsb_eqb_In (x : nat) (seen : list nat) :
  existsb (Nat.eqb x) seen = true <-> In x seen.
Proof.
  rewrite existsb_exists. split.
  - intros [y [Hy E]]. apply Nat.eqb_eq in E. subst. exact Hy.
  - intros H. exists x. split; [exact H | apply Nat.eqb_refl].
Qed.

Lemma unique_acc_spec (xs : list nat) :
  forall seen,
    NoDup (unique_acc seen xs)
    /\ forall x, In x (unique_acc seen xs) <-> In x xs /\ ~ In x seen.
Proof.
  induction xs as [|y xs IH]; intros seen; cbn.
  - split; [constructor | tauto].
  - destruct (existsb (Nat.eqb y) seen) eqn:E.
    + apply existsb_eqb_In in E. destruct (IH seen) as [Hnd Hin].
      split; [exact Hnd|]. intros x. rewrite Hin. split.
      * tauto.
      * intros [[-> | Hx] Hn]; [contradiction | tauto].
    + assert (Hy : ~ In y seen).
      { intros H. apply existsb_eqb_In in H. congruence. }
      destruct (IH (y :: seen)) as [Hnd Hin]. split.
      * constructor; [|exact Hnd]. rewrite Hin. cbn. tauto.
      * intros x. cbn. rewrite Hin. cbn.
        destruct (Nat.eq_dec y x) as [-> | Hne]; tauto.
Qed.

Lemma fold_left_pick {A : Type} (g : nat * A -> nat -> nat * A) (l : list nat) :
  (forall best i, g best i = best \/ fst (g best i) = i) ->
  forall init,
    fst (fold_left g l init) = fst init \/ In (fst (fold_left g l init)) l.
Proof.
  intros Hg. induction l as [|i l IH]; intros init; cbn; [left; reflexivity|].
  destruct (IH (g init i)) as [E | Hin]; [|right; right; exact Hin].
  rewrite E. destruct (Hg init i) as [E' | E'].
  - rewrite E'. left. reflexivity.
  - right. left. symmetry. exact E'.
Qed.

Lemma fold_left_collect (g : list nat -> nat -> list nat) (l : list nat) :
  (forall acc i, g acc i = acc \/ g acc i = acc ++ [i]) ->
  forall init x, In x (fold_left g l init) -> In x init \/ In x l.
Proof.
  intros Hg. induction l as [|i l IH]; intros init x; cbn; [tauto|].
  intros H. apply IH in H. destruct H as [H | H]; [|tauto].
  destruct (Hg init i) as [E | E]; rewrite E in H; [tauto|].
  apply in_app_or in H. cbn in H. intuition.
Qed.

Lemma refineCornerPosition_in_range (points : list Vec2) (initialIndex : nat) :
  (initialIndex < List.length points)%nat ->
  (refineCornerPosition points initialIndex < List.length points)%nat.
Proof.
  intros H. unfold refineCornerPosition.
  match goal with |- (fst (fold_left ?g ?l ?start) < _)%nat =>
    assert (Hpick : fst (fold_left g l start) = fst start
                    \/ In (fst (fold_left g l start)) l)
  end.
  { apply fold_left_pick. intros best i. cbn.
    destruct (_ >? _); [right | left]; reflexivity. }
  destruct Hpick as [E | Hin].
  - rewrite E. exact H.
  - apply in_seq in Hin. lia.
Qed.

Lemma findCornerCandidates_in_range (o : CornerDetectionOptions) (points : list Vec2)
    (curvatures : list R) (i : nat) :
  In i (findCornerCandidates o points curvatures) -> (i < List.length curvatures)%nat.
Proof.
  unfold findCornerCandidates. intros H.
  apply fold_left_collect in H.
  - destruct H as [[] | H]. apply in_seq in H. lia.
  - intros acc k. cbn. destruct (_ && _); [right | left]; reflexivity.
Qed.

Lemma filterNearby_subset (o : CornerDetectionOptions) (points : list Vec2)
    (corners : list nat) (i : nat) :
  In i (filterNearby o points corners) -> In i corners.
Proof.
  unfold filterNearby. destruct corners as [|first rest]; [tauto|].
  intros H. apply fold_left_collect in H.
  - cbn in *. tauto.
  - intros acc k. cbn. destruct (forallb _ _); [right | left]; reflexivity.
Qed.

Lemma calculateCurvatures_length (o : CornerDetectionOptions) (points : list Vec2) :
  List.length (calculateCurvatures o points) = List.length points.
Proof. unfold calculateCurvatures. rewrite length_map, length_seq. reflexivity. Qed.

Lemma smoothCurvatures_length (o : CornerDetectionOptions) (curvatures : list R) :
  List.length (smoothCurvatures o curvatures) = List.length curvatures.
Proof.
  unfold smoothCurvatures. destruct (_ <? _)%nat; [reflexivity|].
  rewrite length_map, length_seq. reflexivity.
Qed.

Lemma calculateCornerConfidence_bounds (points : list Vec2) (curvatures : list R)
    (cornerIndex : nat) :
  0 <= calculateCornerConfidence points curvatures cornerIndex <= 1.
Proof.
  unfold calculateCornerConfidence. destruct (_ <=? _)%nat; [lra|].
  destruct (fold_left _ _ _) as [localAvg count]. apply Rmax_0_Rmin_1_bounds.
Qed.

Lemma refineCorners_spec (o : CornerDetectionOptions) (points : list Vec2)
    (candidates : list nat) :
  (forall i, In i candidates -> (i < List.length points)%nat) ->
  StronglySorted lt (refineCorners o points candidates)
  /\ forall i, In i (refineCorners o points candidates) -> (i < List.length points)%nat.
Proof.
  intros Hc. unfold refineCorners. split.
  - apply sort_indices_sorted. apply (unique_acc_spec _ []).
  - intros i Hi. rewrite In_sort_indices in Hi. unfold unique in Hi.
    rewrite (proj2 (unique_acc_spec _ [])) in Hi. destruct Hi as [Hi _].
    apply in_map_iff in Hi. destruct Hi as [k [<- Hk]].
    apply refineCornerPosition_in_range. apply Hc.
    destruct (filterNearbyCorners o); [apply filterNearby_subset in Hk|]; exact Hk.
Qed.

Lemma detectCorners_shape (d : CornerDetector) (points : list Vec2) :
    StronglySorted lt (cornerIndices (detectCorners d points))
    /\ (forall i, In i (cornerIndices (detectCorners d points)) ->
                  (i < List.length points)%nat)
    /\ List.length (confidence (detectCorners d points))
       = List.length (cornerIndices (detectCorners d points))
    /\ (forall c, In c (confidence (detectCorners d points)) -> 0 <= c <= 1)
    /\ ((3 <= List.length points)%nat ->
        List.length (curvatures (detectCorners d points)) = List.length points).
Proof.
  unfold detectCorners.
  destruct (List.length points <? 3)%nat eqn:E.
  - apply Nat.ltb_lt in E. cbn. repeat split; try constructor; try tauto; lia.
  - cbn [cornerIndices confidence curvatures].
    destruct (refineCorners_spec (options d) points
                (findCornerCandidates (options d) points
                   (smoothCurvatures (options d) (calculateCurvatures (options d) points))))
      as [Hs Hr].
    { intros i Hi. apply findCornerCandidates_in_range in Hi.
      rewrite smoothCurvatures_length, calculateCurvatures_length in Hi. exact Hi. }
    repeat split.
    + exact Hs.
    + exact Hr.
    + unfold calculateConfidenceScores. apply length_map.
    + unfold calculateConfidenceScores in H. apply in_map_iff in H.
      destruct H as [k [<- _]]. apply calculateCornerConfidence_bounds.
    + unfold calculateConfidenceScores in H. apply in_map_iff in H.
      destruct H as [k [<- _]]. apply calculateCornerConfidence_bounds.
    + intros _. rewrite smoothCurvatures_length. apply calculateCurvatures_length.
Qed.

(** X19: the result of [detectCorners] is well formed: the corner indices
    are strictly increasing indices into the point list, there is one
    confidence per corner, each between 0 and 1, and for three or more points
    there is one curvature per point. *)
Theorem detectCorners_result_is_well_formed :
  forall (d : CornerDetector) (points : list Vec2),
    StronglySorted lt (cornerIndices (detectCorners d points))
    /\ (forall i, In i (cornerIndices (detectCorners d points)) ->
                  (i < List.length points)%nat)
    /\ List.length (confidence (detectCorners d points))
       = List.length (cornerIndices (detectCorners d points))
    /\ (forall c, In c (confidence (detectCorners d points)) -> 0 <= c <= 1)
    /\ ((3 <= List.length points)%nat ->
        List.length (curvatures (detectCorners d points)) = List.length points).
Proof. exact detectCorners_shape. Qed.

End CornerProperties.

Section CornerSegments.
Import CornerDetector.

Lemma tiles_app (a b c : nat) (xs ys : list SegmentInfo) :
  tiles a b xs -> tiles b c ys -> tiles a c (xs ++ ys).
Proof.
  revert a. induction xs as [|x xs IH]; intros a; cbn.
  - intros ->. tauto.
  - intros [H1 [H2 H3]] Hy. repeat split; auto.
Qed.

Lemma analyzeSegment_indices (points : list Vec2) (a b : nat) :
  startIndex (analyzeSegment points a b) = a /\ endIndex (analyzeSegment points a b) = b.
Proof. unfold analyzeSegment. destruct (_ <=? _)%nat; cbn; auto. Qed.

Lemma fold_left_Rmax_ge {A : Type} (f : A -> R) (l : list A) :
  forall init, init <= fold_left (fun m i => Rmax m (f i)) l init.
Proof.
  induction l as [|i l IH]; intros init; cbn; [lra|].
  pose proof (IH (Rmax init (f i))). pose proof (Rmax_l init (f i)). lra.
Qed.

Lemma calculateLinearityScore_bounds (points : list Vec2) (a b : nat) :
  0 <= calculateLinearityScore points a b <= 1.
Proof.
  unfold calculateLinearityScore. destruct (_ <=? _)%nat; [lra|].
  destruct (_ <? 1e-6) eqn:E; [lra|]. apply ltb_false_iff in E.
  match goal with |- context [fold_left ?g ?l 0] =>
    pose proof (fold_left_Rmax_ge
                  (fun i => pointToLineDistance (pt points i) (pt points a) (pt points b))
                  l 0) as Hm;
    set (maxDeviation := fold_left g l 0) in *
  end.
  set (totalDistance := Vec2.distanceTo _ _) in *.
  assert (Hr : 0 <= maxDeviation / totalDistance).
  { apply Rmult_le_pos; [exact Hm|]. apply Rlt_le, Rinv_0_lt_compat. lra. }
  split; [apply Rmax_l|]. apply Rmax_lub; lra.
Qed.

Lemma analyzeSegment_quality (points : list Vec2) (a b : nat) :
  type (analyzeSegment points a b) = line ->
  0.8 < quality (analyzeSegment points a b) <= 1.
Proof.
  unfold analyzeSegment. destruct (_ <=? _)%nat; cbn; [intros; lra|].
  pose proof (calculateLinearityScore_bounds points a b) as Hb.
  unfold JS.gtb. destruct (0.8 <? _) eqn:E; cbn.
  - apply ltb_iff in E. intros; lra.
  - discriminate.
Qed.

Lemma generateSegments_fold (points : list Vec2) (corners : list nat) :
  forall segs last,
    StronglySorted lt corners ->
    Forall (fun c => (last <= c)%nat) corners ->
    tiles 0 last segs ->
    Forall (fun s => exists a b, s = analyzeSegment points a b) segs ->
    exists segs' last',
      fold_left
        (fun (acc : list SegmentInfo * nat) cornerIndex =>
           let (segments, lastIndex) := acc in
           if (lastIndex <? cornerIndex)%nat
           then (segments ++ [analyzeSegment points lastIndex cornerIndex], cornerIndex)
           else (segments, cornerIndex))
        corners (segs, last)
      = (segs', last')
      /\ tiles 0 last' segs'
      /\ Forall (fun s => exists a b, s = analyzeSegment points a b) segs'
      /\ (last' = last \/ In last' corners).
Proof.
  induction corners as [|c corners IH]; intros segs last Hs Hle Ht Hf.
  - exists segs, last. cbn. auto.
  - inversion Hs as [|? ? Hs' Hlt]. subst. inversion Hle as [|? ? Hc Hle']. subst.
    cbn [fold_left].
    assert (Hnext : Forall (fun k => (c <= k)%nat) corners).
    { rewrite Forall_forall in *. intros k Hk. specialize (Hlt k Hk). lia. }
    destruct (last <? c)%nat eqn:E.
    + apply Nat.ltb_lt in E.
      destruct (IH (segs ++ [analyzeSegment points last c]) c Hs' Hnext)
        as [segs' [last' [E' [Ht' [Hf' Hl']]]]].
      * apply (tiles_app 0 last c); [exact Ht|].
        destruct (analyzeSegment_indices points last c) as [Ha Hb].
        cbn. rewrite Ha, Hb. auto.
      * apply Forall_app. split; [exact Hf|]. constructor; [eauto | constructor].
      * exists segs', last'. split; [exact E'|]. split; [exact Ht'|]. split; [exact Hf'|].
        right. destruct Hl' as [-> | Hl']; [left; reflexivity | right; exact Hl'].
    + apply Nat.ltb_ge in E. assert (c = last) by lia. subst c.
      destruct (IH segs last Hs' Hnext Ht Hf) as [segs' [last' [E' [Ht' [Hf' Hl']]]]].
      exists segs', last'. split; [exact E'|]. split; [exact Ht'|]. split; [exact Hf'|].
      destruct Hl' as [-> | Hl']; [left; reflexivity | right; right; exact Hl'].
Qed.

(** X20: the runs [detectCorners] returns tile the stroke: the first starts
    at index 0, each next one starts where the one before it ended, every run
    ends later than it starts and the last ends at the last point.  A run
    labelled a line has a quality above 0.8 and at most 1: it is either a run
    of two points, of quality 1, or a run whose linearity score passed the
    test against 0.8 and is its quality. *)
Theorem detectCorners_runs_tile_the_stroke :
  forall (d : CornerDetector) (points : list Vec2),
    tiles 0 (List.length points - 1) (segments (detectCorners d points))
    /\ forall run, In run (segments (detectCorners d points)) ->
                   type run = line -> 0.8 < quality run <= 1.
Proof.
  intros d points.
  destruct (detectCorners_shape d points) as [Hs [Hr _]].
  revert Hs Hr. unfold detectCorners.
  destruct (List.length points <? 3)%nat eqn:E.
  - intros _ _. apply Nat.ltb_lt in E. cbn [segments].
    destruct (2 <=? List.length points)%nat eqn:E2.
    + apply Nat.leb_le in E2. cbn. split; [repeat split; lia|].
      intros run [<- | []]. cbn. intros; lra.
    + apply Nat.leb_gt in E2. cbn. split; [lia | tauto].
  - cbn [cornerIndices segments]. apply Nat.ltb_ge in E.
    set (corners := refineCorners _ _ _). intros Hs Hr.
    unfold generateSegments.
    destruct (generateSegments_fold points corners [] 0%nat Hs)
      as [segs [last [E' [Ht [Hf Hl]]]]].
    { rewrite Forall_forall. intros; lia. }
    { reflexivity. }
    { constructor. }
    rewrite E'.
    assert (Hlast : (last <= List.length points - 1)%nat).
    { destruct Hl as [-> | Hl]; [lia|]. specialize (Hr last Hl). lia. }
    assert (Hq : forall run,
               (exists a b, run = analyzeSegment points a b) ->
               type run = line -> 0.8 < quality run <= 1).
    { intros run [a [b ->]]. apply analyzeSegment_quality. }
    rewrite Forall_forall in Hf.
    destruct (last <? List.length points - 1)%nat eqn:E3.
    + apply Nat.ltb_lt in E3. split.
      * apply (tiles_app 0 last); [exact Ht|].
        destruct (analyzeSegment_indices points last (List.length points - 1)) as [Ha Hb].
        cbn. rewrite Ha, Hb. auto.
      * intros run Hin. apply in_app_or in Hin. destruct Hin as [Hin | [<- | []]].
        -- apply Hq, Hf, Hin.
        -- apply analyzeSegment_quality.
    + apply Nat.ltb_ge in E3. assert (last = (List.length points - 1)%nat) by lia.
      subst last. split; [exact Ht|]. intros run Hin. apply Hq, Hf, Hin.
Qed.

Lemma fold_left_Rplus_shift (l : list R) :
  forall a, fold_left Rplus l a = a + fold_left Rplus l 0.
Proof.
  induction l as [|x l IH]; intros a; cbn; [ring|].
  rewrite (IH (a + x)), (IH (0 + x)). ring.
Qed.

Lemma fold_left_Rplus_positive (l : list R) :
  l <> [] -> Forall (fun k => 0 < k) l -> 0 < fold_left Rplus l 0.
Proof.
  induction l as [|x l IH]; intros Hne Hpos; [congruence|].
  inversion Hpos as [|? ? Hx Hl]. subst. cbn.
  rewrite fold_left_Rplus_shift. destruct l as [|y l].
  - cbn. lra.
  - assert (0 < fold_left Rplus (y :: l) 0) by (apply IH; [discriminate | exact Hl]). lra.
Qed.

(** X21: the smoothing kernel [createGaussianKernel] builds for a window of
    one or more taps has one weight per tap; every weight is positive and
    none is larger than the weight at the centre tap; for an odd window the
    kernel is symmetric, reading the same from either end. *)
Theorem createGaussianKernel_is_peaked_and_symmetric :
  forall size : nat,
    (1 <= size)%nat ->
    List.length (createGaussianKernel size) = size
    /\ Forall (fun weight => 0 < weight <= nth (size / 2) (createGaussianKernel size) 0)
              (createGaussianKernel size)
    /\ (Nat.odd size = true -> rev (createGaussianKernel size) = createGaussianKernel size).
Proof.
  intros size Hsize. unfold createGaussianKernel.
  set (sigma := INR size / 6).
  set (center := (size / 2)%nat).
  set (f := fun i : nat => let x := INR i - INR center in
                           exp (- (x * x) / (2 * sigma * sigma))).
  set (kernel := map f (seq 0 size)).
  assert (Hsigma : 0 < 2 * sigma * sigma).
  { assert (0 < INR size) by (apply lt_0_INR; lia). unfold sigma. nra. }
  assert (Hpos : Forall (fun k => 0 < k) kernel).
  { unfold kernel. rewrite Forall_forall. intros k Hk. apply in_map_iff in Hk.
    destruct Hk as [i [<- _]]. apply exp_pos. }
  assert (Hne : kernel <> []).
  { unfold kernel. destruct size; [lia|]. cbn. discriminate. }
  pose proof (fold_left_Rplus_positive kernel Hne Hpos) as Hsum.
  set (sum := fold_left Rplus kernel 0) in *.
  assert (Hcenter : (center < size)%nat).
  { unfold center. apply Nat.div_lt; lia. }
  assert (Hpeak : nth center (map (fun k => k / sum) kernel) 0 = 1 / sum).
  { rewrite (nth_indep _ 0 ((fun k => k / sum) (f 0%nat)))
      by (rewrite length_map; unfold kernel; rewrite length_map, length_seq; exact Hcenter).
    change (f 0%nat / sum) with ((fun k => k / sum) (f 0%nat)).
    rewrite map_nth. unfold kernel. rewrite map_nth, seq_nth by exact Hcenter.
    cbn [Nat.add]. unfold f. cbv zeta.
    replace (- ((INR center - INR center) * (INR center - INR center))
             / (2 * sigma * sigma)) with 0 by (unfold Rdiv; ring).
    rewrite exp_0. reflexivity. }
  split; [|split].
  - rewrite length_map. unfold kernel. rewrite length_map, length_seq. reflexivity.
  - rewrite Hpeak. rewrite Forall_forall. intros k Hk. apply in_map_iff in Hk.
    destruct Hk as [k0 [<- Hk0]]. split.
    + rewrite Forall_forall in Hpos. apply Rdiv_lt_0_compat; [apply Hpos, Hk0 | exact Hsum].
    + unfold kernel in Hk0. apply in_map_iff in Hk0. destruct Hk0 as [i [<- _]].
      assert (Hle : f i <= 1).
      { unfold f. cbv zeta. rewrite <- exp_0.
        destruct (Req_dec (- ((INR i - INR center) * (INR i - INR center))
                           / (2 * sigma * sigma)) 0) as [-> | Hnz]; [lra|].
        apply Rlt_le, exp_increasing.
        pose proof (Rle_0_sqr (INR i - INR center)) as Hq. unfold Rsqr in Hq.
        assert (Hd : 0 < / (2 * sigma * sigma)) by (apply Rinv_0_lt_compat; exact Hsigma).
        pose proof (Rmult_le_pos _ _ Hq (Rlt_le _ _ Hd)) as Hqd.
        unfold Rdiv in *. lra. }
      unfold Rdiv. apply Rmult_le_compat_r; [|exact Hle].
      apply Rlt_le, Rinv_0_lt_compat. exact Hsum.
  - intros Hodd. rewrite <- map_rev. f_equal.
    assert (Hsize2 : size = (2 * center + 1)%nat).
    { apply Nat.odd_spec in Hodd. destruct Hodd as [m Hm]. unfold center. subst size.
      replace (2 * m + 1)%nat with (1 + m * 2)%nat by lia.
      rewrite Nat.div_add by lia. cbn. lia. }
    apply (nth_ext _ _ (f 0%nat) (f 0%nat)).
    + rewrite length_rev. reflexivity.
    + intros i Hi. rewrite length_rev in Hi.
      assert (Hlen : List.length kernel = size)
        by (unfold kernel; rewrite length_map, length_seq; reflexivity).
      rewrite Hlen in Hi.
      rewrite rev_nth by (rewrite Hlen; exact Hi). rewrite Hlen.
      unfold kernel. rewrite !map_nth, !seq_nth by lia. cbn [Nat.add].
      unfold f. cbv zeta. f_equal. f_equal. f_equal.
      replace (size - S i)%nat with (2 * center - i)%nat by lia.
      rewrite minus_INR by lia. rewrite mult_INR. cbn [INR]. ring.
Qed.

Lemma createGaussianKernel_is_peaked_and_symmetric_witness :
  List.length (createGaussianKernel 5) = 5%nat
  /\ rev (createGaussianKernel 5) = createGaussianKernel 5.
Proof.
  destruct (createGaussianKernel_is_peaked_and_symmetric 5) as [Hlen [_ Hsym]]; [lia|].
  split; [exact Hlen | apply Hsym; reflexivity].
Defined.

End CornerSegments.

(** ** Touch state machine: what every reachable state satisfies *)

Section TouchInvariants.
Import TouchState.
Context {Pt : Type}.
Local Abbreviation PointerState := (@Pointer.PointerState Pt).
Local Abbreviation Manager := (@TouchStateManager Pt).

Lemma history_within_limit (history : list (@TouchGesture Pt)) (g : @TouchGesture Pt) :
  (List.length history <= MAX_GESTURE_HISTORY)%nat ->
  (List.length (if (MAX_GESTURE_HISTORY <? List.length (history ++ [g]))%nat
                then tl (history ++ [g]) else history ++ [g])
   <= MAX_GESTURE_HISTORY)%nat.
Proof.
  intros H. destruct (_ <? _)%nat eqn:E.
  - rewrite length_app in *. cbn [List.length] in *.
    destruct (history ++ [g]) eqn:E'; cbn; [lia|].
    assert (Hl : List.length (history ++ [g]) = S (List.length l))
      by (rewrite E'; reflexivity).
    rewrite length_app in Hl. cbn in Hl. lia.
  - apply Nat.ltb_ge in E. exact E.
Qed.

Lemma endCurrentGesture_returns (m : Manager) :
  wellFormed m ->
  exists out m',
    endCurrentGesture m = (Ok tt, out, m')
    /\ wellFormed m'
    /\ currentGesture m' = None
    /\ currentMode m' = currentMode m
    /\ activePointers m' = activePointers m.
Proof.
  intros [Hh Hg].
  unfold endCurrentGesture, bind, this, addToHistory, call, set_currentGesture,
    set_gestureHistory, ret.
  destruct (currentGesture m) as [g|] eqn:E; cbn -[Nat.ltb MAX_GESTURE_HISTORY].
  - eexists _, _. split; [reflexivity|]. cbn -[Nat.ltb MAX_GESTURE_HISTORY].
    repeat split. apply history_within_limit. exact Hh.
  - eexists _, _. split; [reflexivity|]. repeat split; try assumption.
    rewrite E. exact I.
Qed.

Lemma cancelCurrentGesture_returns (m : Manager) :
  wellFormed m ->
  exists out m',
    cancelCurrentGesture m = (Ok tt, out, m')
    /\ wellFormed m'
    /\ currentGesture m' = None
    /\ currentMode m' = currentMode m
    /\ activePointers m' = activePointers m.
Proof.
  intros [Hh Hg].
  unfold cancelCurrentGesture, bind, this, call, set_currentGesture, ret.
  destruct (currentGesture m) as [g|] eqn:E; cbn.
  - eexists _, _. split; [reflexivity|]. cbn. repeat split. exact Hh.
  - eexists _, _. split; [reflexivity|]. repeat split; try assumption.
    rewrite E. exact I.
Qed.

Lemma startGesture_returns (mode : TouchMode) (p : PointerState) (m : Manager) :
  wellFormed m ->
  exists out m' gesture,
    startGesture mode p m = (Ok tt, out, m')
    /\ wellFormed m'
    /\ currentGesture m' = Some gesture
    /\ type gesture = mode
    /\ currentMode m' = currentMode m
    /\ activePointers m' = activePointers m.
Proof.
  intros [Hh Hg].
  unfold startGesture, bind, this, lift, calculateCentroid, call, set_currentGesture, ret.
  destruct (calculateCentroid_returns (Map_values (activePointers m))) as [c Ec].
  rewrite Ec.
  destruct mode; cbn.
  - eexists _, _, _. split; [reflexivity|]. cbn. repeat split. exact Hh.
  - eexists _, _, _. split; [reflexivity|]. cbn. repeat split. exact Hh.
  - unfold createPanZoomGesture. rewrite Ec.
    destruct (calculateSpread_returns (Map_values (activePointers m))) as [sp Es].
    rewrite Es. cbn.
    eexists _, _, _. split; [reflexivity|]. cbn. repeat split. exact Hh.
  - eexists _, _, _. split; [reflexivity|]. cbn. repeat split. exact Hh.
  - eexists _, _, _. split; [reflexivity|]. cbn. repeat split. exact Hh.
Qed.

(** Over the reals a positive duration divided by 1000 is not zero, so the
    division in [updateDrawingGesture] does not throw. *)
Lemma updateCurrentGesture_returns (p : PointerState) (m : Manager) :
  wellFormed m ->
  exists out m',
    updateCurrentGesture p m = (Ok tt, out, m')
    /\ wellFormed m'
    /\ currentMode m' = currentMode m
    /\ activePointers m' = activePointers m
    /\ match currentGesture m with
       | None => currentGesture m' = None
       | Some gesture =>
           exists gesture', currentGesture m' = Some gesture'
                            /\ type gesture' = type gesture
       end.
Proof.
  intros [Hh Hg].
  unfold updateCurrentGesture, bind, this, lift, calculateCentroid, call,
    set_currentGesture, ret.
  destruct (currentGesture m) as [g|] eqn:E.
  2:{ eexists _, _. split; [reflexivity|]. repeat split; try assumption.
      rewrite E. exact I. }
  destruct (calculateCentroid_returns (Map_values (activePointers m))) as [c Ec].
  rewrite Ec.
  destruct g as [ty st start dur count prim cen d]. cbn in Hg. cbn [type startTime data].
  destruct ty; destruct d; try contradiction.
  - eexists _, _. split; [reflexivity|]. cbn. repeat split; eauto.
  - unfold updateDrawingGesture. cbn [data duration startTime].
    unfold JS.gtb. destruct (0 <? Pointer.timestamp p - start) eqn:Et.
    + apply ltb_iff in Et. unfold Vec2.divide.
      rewrite (proj2 (eqb_false_iff _ 0)) by lra. cbn.
      eexists _, _. split; [reflexivity|]. cbn. repeat split; eauto.
    + cbn. eexists _, _. split; [reflexivity|]. cbn. repeat split; eauto.
  - unfold updatePanZoomGesture. rewrite Ec.
    destruct (calculateSpread_returns (Map_values (activePointers m))) as [sp Es].
    rewrite Es. cbn.
    eexists _, _. split; [reflexivity|]. cbn. repeat split; eauto.
  - eexists _, _. split; [reflexivity|]. cbn. repeat split; eauto.
  - eexists _, _. split; [reflexivity|]. cbn. repeat split; eauto.
Qed.

Lemma transitionToMode_returns (newMode : TouchMode) (p : PointerState) (m : Manager) :
  wellFormed m ->
  currentGesture m = None \/ newMode <> currentMode m ->
  exists out m',
    transitionToMode newMode p m = (Ok tt, out, m')
    /\ wellFormed m'
    /\ currentMode m' = newMode
    /\ activePointers m' = activePointers m
    /\ match currentGesture m' with
       | None => newMode = IDLE
       | Some gesture => type gesture = newMode /\ newMode <> IDLE
       end.
Proof.
  intros Hw Hpre. unfold transitionToMode.
  rewrite (bind_ok this _ m m [] m eq_refl). cbn [app fst snd].
  assert (Hend : exists out1 m1,
             (match currentGesture m with
              | Some _ => if negb (TouchMode_eqb newMode (currentMode m))
                          then endCurrentGesture else ret tt
              | None => ret tt
              end) m = (Ok tt, out1, m1)
             /\ wellFormed m1 /\ currentGesture m1 = None
             /\ currentMode m1 = currentMode m
             /\ activePointers m1 = activePointers m).
  { destruct (currentGesture m) as [g|] eqn:E.
    - destruct (TouchMode_eqb newMode (currentMode m)) eqn:Eq.
      + apply TouchMode_eqb_eq in Eq. destruct Hpre as [Hpre | Hpre];
          [discriminate | contradiction].
      + cbn [negb]. apply endCurrentGesture_returns. exact Hw.
    - exists [], m. unfold ret. split; [reflexivity|]. split; [exact Hw|]. auto. }
  destruct Hend as [out1 [m1 [E1 [Hw1 [Hg1 [Hm1 Hp1]]]]]].
  rewrite (bind_ok _ _ m tt out1 m1 E1). cbn [app fst snd].
  rewrite (bind_ok (set_currentMode newMode) _ m1 tt [] _ eq_refl). cbn [app fst snd].
  set (m2 := mkManager _ _ _ _ _ _).
  assert (Hw2 : wellFormed m2).
  { destruct Hw1 as [Hh Hg]. split; [exact Hh|]. subst m2. cbn. rewrite Hg1. exact I. }
  assert (Hg2 : currentGesture m2 = None) by exact Hg1.
  assert (Hp2 : activePointers m2 = activePointers m) by exact Hp1.
  assert (Hm2 : currentMode m2 = newMode) by reflexivity.
  clearbody m2.
  destruct (TouchMode_eqb newMode IDLE) eqn:Ei; cbn [negb].
  - apply TouchMode_eqb_eq in Ei.
    rewrite (bind_ok (ret tt) _ m2 tt [] m2 eq_refl). cbn [app fst snd].
    unfold call. cbn. eexists _, _. split; [reflexivity|].
    rewrite Hg2. split; [exact Hw2|]. auto.
  - assert (Hne : newMode <> IDLE).
    { intros H. apply TouchMode_eqb_eq in H. congruence. }
    destruct (startGesture_returns newMode p m2 Hw2)
      as [out3 [m3 [g [E3 [Hw3 [Hg3 [Ht3 [Hm3 Hp3]]]]]]]].
    rewrite (bind_ok _ _ m2 tt out3 m3 E3). cbn [app fst snd].
    unfold call. cbn. eexists _, _. split; [reflexivity|].
    rewrite Hg3. split; [exact Hw3|]. repeat split; auto; congruence.
Qed.

Lemma coherent_after_transition (newMode : TouchMode) (p : PointerState) (m : Manager) :
  wellFormed m ->
  currentGesture m = None \/ newMode <> currentMode m ->
  newMode = determineTouchMode m ->
  exists out m', transitionToMode newMode p m = (Ok tt, out, m') /\ coherent m'.
Proof.
  intros Hw Hpre Hnew.
  destruct (transitionToMode_returns newMode p m Hw Hpre)
    as [out [m' [E [Hw' [Hm' [Hp' Hg']]]]]].
  exists out, m'. split; [exact E|]. split; [exact Hw'|]. split.
  - rewrite Hm', Hnew. unfold determineTouchMode. rewrite Hp'. reflexivity.
  - rewrite Hm'. exact Hg'.
Qed.

Lemma coherent_after_update (p : PointerState) (m : Manager) :
  wellFormed m ->
  currentMode m = determineTouchMode m ->
  match currentGesture m with
  | None => currentMode m = IDLE
  | Some gesture => type gesture = currentMode m /\ currentMode m <> IDLE
  end ->
  exists out m', updateCurrentGesture p m = (Ok tt, out, m') /\ coherent m'.
Proof.
  intros Hw Hmode Hg.
  destruct (updateCurrentGesture_returns p m Hw) as [out [m' [E [Hw' [Hm' [Hp' Hg']]]]]].
  exists out, m'. split; [exact E|]. split; [exact Hw'|]. split.
  - rewrite Hm', Hmode. unfold determineTouchMode. rewrite Hp'. reflexivity.
  - rewrite Hm'. destruct (currentGesture m) as [g|].
    + destruct Hg' as [g' [-> Ht]]. rewrite Ht. exact Hg.
    + rewrite Hg'. exact Hg.
Qed.

Lemma dispatch_keeps_coherent (e : Event) (m : Manager) :
  coherent m ->
  exists out m', dispatch e m = (Ok tt, out, m') /\ coherent m'.
Proof.
  intros [Hw [Hmode Hg]]. destruct e as [p|p|p|p| |h]; cbn [dispatch].
  - unfold handlePointerDown.
    rewrite (bind_ok this _ m m [] m eq_refl). cbn [app fst snd].
    rewrite (bind_ok (set_activePointers _) _ m tt [] _ eq_refl). cbn [app fst snd].
    rewrite (bind_ok (set_lastUpdateTime _) _ _ tt [] _ eq_refl). cbn [app fst snd].
    rewrite (bind_ok this _ _ _ [] _ eq_refl). cbn [app fst snd].
    set (m1 := mkManager _ _ _ _ _ _).
    assert (Hw1 : wellFormed m1) by exact Hw.
    assert (Hm1 : currentMode m1 = currentMode m) by reflexivity.
    assert (Hg1 : currentGesture m1 = currentGesture m) by reflexivity.
    clearbody m1. rewrite <- !surjective_pairing.
    destruct (TouchMode_eqb (determineTouchMode m1) (currentMode m1)) eqn:Eq; cbn [negb].
    + apply TouchMode_eqb_eq in Eq. apply coherent_after_update; try assumption.
      * symmetry. exact Eq.
      * rewrite Hg1, Hm1. exact Hg.
    + apply coherent_after_transition; try assumption; [|reflexivity].
      right. intros H. rewrite H in Eq.
      assert (TouchMode_eqb (currentMode m1) (currentMode m1) = true)
        by (apply TouchMode_eqb_eq; reflexivity).
      congruence.
  - unfold handlePointerMove.
    rewrite (bind_ok this _ m m [] m eq_refl). cbn [app fst snd].
    destruct (Map_get (activePointers m) (Pointer.id p)) as [existing|] eqn:Eg.
    + rewrite (bind_ok (set_activePointers _) _ m tt [] _ eq_refl). cbn [app fst snd].
      rewrite (bind_ok (set_lastUpdateTime _) _ _ tt [] _ eq_refl). cbn [app fst snd].
      set (m1 := mkManager _ _ _ _ _ _).
      assert (Hw1 : wellFormed m1) by exact Hw.
      assert (Hm1 : currentMode m1 = currentMode m) by reflexivity.
      assert (Hg1 : currentGesture m1 = currentGesture m) by reflexivity.
      assert (Hs1 : Map_size (activePointers m1) = Map_size (activePointers m))
        by (apply (Map_set_size_present _ _ existing); exact Eg).
      clearbody m1. rewrite <- !surjective_pairing.
      apply coherent_after_update; try assumption.
      * rewrite Hm1, Hmode. unfold determineTouchMode. rewrite Hs1. reflexivity.
      * rewrite Hg1, Hm1. exact Hg.
    + exists [], m. split; [reflexivity|]. split; [exact Hw|]. split; assumption.
  - unfold handlePointerUp.
    rewrite (bind_ok this _ m m [] m eq_refl). cbn [app fst snd].
    rewrite (bind_ok (set_activePointers _) _ m tt [] _ eq_refl). cbn [app fst snd].
    rewrite (bind_ok (set_lastUpdateTime _) _ _ tt [] _ eq_refl). cbn [app fst snd].
    rewrite (bind_ok this _ _ _ [] _ eq_refl). cbn [app fst snd].
    set (m1 := mkManager _ _ _ _ _ _).
    assert (Hw1 : wellFormed m1) by exact Hw.
    assert (Hm1 : currentMode m1 = currentMode m) by reflexivity.
    assert (Hg1 : currentGesture m1 = currentGesture m) by reflexivity.
    clearbody m1. rewrite <- !surjective_pairing.
    destruct (TouchMode_eqb (determineTouchMode m1) (currentMode m1)) eqn:Eq; cbn [negb].
    + apply TouchMode_eqb_eq in Eq. apply coherent_after_update; try assumption.
      * symmetry. exact Eq.
      * rewrite Hg1, Hm1. exact Hg.
    + destruct (endCurrentGesture_returns m1 Hw1) as [o2 [m2 [E2 [Hw2 [Hg2 [Hm2 Hp2]]]]]].
      rewrite (bind_ok _ _ m1 tt o2 m2 E2). cbn [app fst snd].
      destruct (coherent_after_transition (determineTouchMode m1) p m2 Hw2)
        as [o3 [m3 [E3 Hc3]]].
      * left. exact Hg2.
      * unfold determineTouchMode. rewrite Hp2. reflexivity.
      * rewrite E3. cbn. eexists _, _. split; [reflexivity | exact Hc3].
  - unfold handlePointerCancel.
    rewrite (bind_ok this _ m m [] m eq_refl). cbn [app fst snd].
    rewrite (bind_ok (set_activePointers _) _ m tt [] _ eq_refl). cbn [app fst snd].
    set (m1 := mkManager _ _ _ _ _ _).
    assert (Hw1 : wellFormed m1) by exact Hw.
    clearbody m1.
    destruct (cancelCurrentGesture_returns m1 Hw1) as [o2 [m2 [E2 [Hw2 [Hg2 [Hm2 Hp2]]]]]].
    rewrite (bind_ok _ _ m1 tt o2 m2 E2). cbn [app fst snd].
    rewrite (bind_ok this _ m2 m2 [] m2 eq_refl). cbn [app fst snd].
    destruct (coherent_after_transition (determineTouchMode m2) p m2 Hw2)
      as [o3 [m3 [E3 Hc3]]].
    + left. exact Hg2.
    + reflexivity.
    + rewrite E3. cbn. eexists _, _. split; [reflexivity | exact Hc3].
  - unfold reset.
    destruct (endCurrentGesture_returns m Hw) as [o2 [m2 [E2 [Hw2 [Hg2 [Hm2 Hp2]]]]]].
    rewrite (bind_ok _ _ m tt o2 m2 E2). cbn [app fst snd].
    unfold bind, set_activePointers, set_currentMode, set_currentGesture. cbn.
    eexists _, _. split; [reflexivity|].
    destruct Hw2 as [Hh _]. repeat split; cbn; auto.
  - cbn. unfold setHandlers. eexists _, _. split; [reflexivity|].
    split; [exact Hw|]. split; assumption.
Qed.

Lemma run_is_coherent (events : list Event) :
  forall m : Manager,
    coherent m -> coherent (fold_left (fun m e => stateAfter e m) events m).
Proof.
  induction events as [|e events IH]; intros m Hc; cbn [fold_left]; [exact Hc|].
  apply IH. destruct (dispatch_keeps_coherent e m Hc) as [out [m' [E Hc']]].
  unfold stateAfter. rewrite E. exact Hc'.
Qed.

Lemma new_is_coherent (given : option Handlers) : coherent (new given : Manager).
Proof. unfold coherent, wellFormed, new. cbn. repeat split; lia. Qed.

(** X23: in every state reached from a fresh manager there is a live gesture
    exactly when the mode is not idle; the live gesture has the type of the
    mode and carries the data of that type; and the gesture history never
    holds more than 50 gestures. *)
Theorem live_gesture_matches_the_mode :
  forall (given : option Handlers) (events : list Event),
    match activeGesture (run given events : Manager) with
    | None => touchMode (run given events : Manager) = IDLE
    | Some gesture =>
        type gesture = touchMode (run given events : Manager)
        /\ touchMode (run given events : Manager) <> IDLE
        /\ dataMatches (type gesture) (data gesture)
    end
    /\ (List.length (recentGestures (run given events : Manager)) <= 50)%nat.
Proof.
  intros given events.
  assert (Hc : coherent (run given events : Manager))
    by (unfold run; apply run_is_coherent, new_is_coherent).
  destruct Hc as [[Hh Hd] [_ Hg]].
  unfold activeGesture, touchMode, recentGestures. split; [|exact Hh].
  destruct (currentGesture (run given events)) as [g|]; [|exact Hg].
  destruct Hg as [Ht Hn]. auto.
Qed.

(** X24: a pan-zoom gesture is never classified both as panning and as
    zooming, and both classifiers throw exactly on a gesture without pan-zoom
    data. *)
Theorem panning_and_zooming_exclude_each_other :
  forall gesture : @TouchGesture Pt,
    (isPanningGesture gesture = Ok true -> isZoomingGesture gesture = Ok false)
    /\ (isZoomingGesture gesture = Ok true -> isPanningGesture gesture = Ok false)
    /\ (isOk (isPanningGesture gesture) = isOk (isZoomingGesture gesture))
    /\ (dataMatches PAN_ZOOM (data gesture) ->
        isOk (isPanningGesture gesture) = true).
Proof.
  intros gesture. unfold isPanningGesture, isZoomingGesture.
  destruct (data gesture); cbn; try (repeat split; intros; (discriminate || contradiction)).
  unfold JS.gtb.
  destruct (20 <? Vec2.length panDelta) eqn:E1;
    destruct (Rabs (zoomFactor - 1) <? 0.1) eqn:E2;
    destruct (0.1 <? Rabs (zoomFactor - 1)) eqn:E3;
    destruct (Vec2.length panDelta <? 20) eqn:E4; cbn;
    repeat split; intros; try discriminate; try reflexivity;
    exfalso;
    repeat match goal with
      | H : (_ <? _) = true |- _ => apply ltb_iff in H
      | H : (_ <? _) = false |- _ => apply ltb_false_iff in H
      end; lra.
Qed.

End TouchInvariants.

(** ** Stroke capture and processing *)

Section StrokeProperties.
Import StrokeProcessor.
Context {Pt : Type} (Pt_lerp : Pt -> Pt -> R -> Pt).
Local Abbreviation Processor := (@StrokeProcessor Pt).
Local Abbreviation Point := (@StrokePoint Pt).

Lemma get_in_range {A : Type} (xs : list A) (i : nat) :
  (i < List.length xs)%nat -> exists a, get xs i = Ok a /\ nth_error xs i = Some a.
Proof.
  intros H. unfold get. destruct (nth_error xs i) as [a|] eqn:E; [eauto|].
  apply nth_error_None in E. lia.
Qed.

Lemma foldM_returns {A B : Type} (body : B -> A -> Result B) (xs : list A) :
  (forall b x, In x xs -> exists b', body b x = Ok b') ->
  forall b, exists b', foldM body xs b = Ok b'.
Proof.
  induction xs as [|x xs IH]; intros H b; cbn; [eauto|].
  destruct (H b x) as [b' E]; [left; reflexivity|]. rewrite E. cbn.
  apply IH. intros b0 x0 Hx. apply H. right. exact Hx.
Qed.

Lemma set_at_length {A : Type} (xs : list A) :
  forall i v, List.length (set_at xs i v) = List.length xs.
Proof.
  induction xs as [|x xs IH]; intros i v; [reflexivity|].
  destruct i; cbn; [reflexivity|]. rewrite IH. reflexivity.
Qed.

Lemma smoothRange_length (o : StrokeProcessingOptions) (indices : list nat) :
  forall points : list Point,
    List.length (snd (smoothRange o indices points)) = List.length points.
Proof.
  induction indices as [|i rest IH]; intros points; cbn [smoothRange]; [reflexivity|].
  destruct (smoothPointAtIndex o points i); cbn [snd]; try reflexivity.
  rewrite IH. apply set_at_length.
Qed.

Lemma applyRealTimeSmoothing_length (o : StrokeProcessingOptions) (a : @ActiveStroke Pt) :
  List.length (active_points (snd (applyRealTimeSmoothing o a)))
  = List.length (active_points a).
Proof.
  unfold applyRealTimeSmoothing.
  destruct (List.length (active_points a) <? 3)%nat; [reflexivity|].
  match goal with |- context [smoothRange ?o' ?indices ?ps] =>
    pose proof (smoothRange_length o' indices ps) as H;
    destruct (smoothRange o' indices ps) as [[r| |] points]
  end; cbn [snd active_points] in *; exact H.
Qed.

(** What [addPoint] does to an active stroke, whether it returns or throws:
    the stroke stays active with the same options, and it holds the points it
    held or, below the cap, one more. *)
Lemma addPoint_keeps_stroke (sp : Processor) (a : @ActiveStroke Pt) (point : Point) :
  activeStroke sp = Some a ->
  options (after (addPoint sp point)) = options sp
  /\ exists a',
       activeStroke (after (addPoint sp point)) = Some a'
       /\ (List.length (active_points a') = List.length (active_points a)
           \/ ((List.length (active_points a) < maxPointsPerStroke (options sp))%nat
               /\ List.length (active_points a') = S (List.length (active_points a)))).
Proof.
  intros Ea. unfold addPoint. rewrite Ea.
  destruct (_ <=? _)%nat eqn:Ecap.
  - cbn. split; [reflexivity|]. exists a. auto.
  - apply Nat.leb_gt in Ecap.
    destruct (if (0 <? List.length (active_points a))%nat
              then calculateVelocity (options sp) point (active_points a)
              else Ok Vec2.ZERO) as [v| |].
    + set (pushed := mkActive _ _ _ _).
      assert (Hp : List.length (active_points pushed) = S (List.length (active_points a)))
        by (subst pushed; cbn; rewrite length_app; cbn; lia).
      clearbody pushed.
      destruct (enableRealTimeSmoothing (options sp)).
      * pose proof (applyRealTimeSmoothing_length (options sp) pushed) as Hs.
        destruct (applyRealTimeSmoothing (options sp) pushed) as [result smoothed].
        cbn in *. split; [reflexivity|]. exists smoothed. split; [reflexivity|].
        right. split; [exact Ecap | congruence].
      * cbn. split; [reflexivity|]. exists pushed. split; [reflexivity|].
        right. split; [exact Ecap | exact Hp].
    + cbn. split; [reflexivity|]. exists a. auto.
    + cbn. split; [reflexivity|]. exists a. auto.
Qed.

(** X25: once a stroke is started it stays active through every later
    [addPoint], whether the call returns or throws, and it holds at least its
    first point and never more than the configured cap, a whole number (or
    the one initial point, if the cap is lower). *)
Theorem started_stroke_stays_active_and_within_its_cap :
  forall (sp0 : Processor) (initialPoint : Point) (Date_now : R) (added : list Point),
    isCapturing (fold_left (fun sp q => after (addPoint sp q)) added
                           (snd (startStroke sp0 initialPoint Date_now)))
    = true
    /\ (1 <= List.length
               (activeStrokePoints
                  (fold_left (fun sp q => after (addPoint sp q)) added
                             (snd (startStroke sp0 initialPoint Date_now))))
        <= Nat.max 1 (maxPointsPerStroke (options sp0)))%nat.
Proof.
  intros sp0 initialPoint Date_now added.
  set (start := snd (startStroke sp0 initialPoint Date_now)).
  assert (Hinv : forall added (sp : Processor),
             options sp = options sp0 ->
             (exists a, activeStroke sp = Some a
                        /\ (1 <= List.length (active_points a)
                            <= Nat.max 1 (maxPointsPerStroke (options sp0)))%nat) ->
             exists a,
               activeStroke (fold_left (fun sp q => after (addPoint sp q)) added sp)
               = Some a
               /\ (1 <= List.length (active_points a)
                   <= Nat.max 1 (maxPointsPerStroke (options sp0)))%nat).
  { clear. induction added as [|q added IH]; intros sp Ho [a [Ea Hb]]; cbn [fold_left].
    - eauto.
    - destruct (addPoint_keeps_stroke sp a q Ea) as [Ho' [a' [Ea' Hlen]]].
      apply IH; [congruence|]. exists a'. split; [exact Ea'|].
      rewrite Ho in Hlen. destruct Hlen as [-> | [Hlt ->]]; [exact Hb | lia]. }
  destruct (Hinv added start) as [a [Ea Hb]].
  - reflexivity.
  - subst start. unfold startStroke. cbn [snd activeStroke]. eexists.
    split; [reflexivity|]. cbn [active_points List.length]. lia.
  - unfold isCapturing, activeStrokePoints. rewrite Ea.
    split; [reflexivity | exact Hb].
Qed.

Lemma foldM_preserves {A B : Type} (body : B -> A -> Result B) (I : B -> Prop)
    (xs : list A) :
  (forall b x b', In x xs -> I b -> body b x = Ok b' -> I b') ->
  forall b b', I b -> foldM body xs b = Ok b' -> I b'.
Proof.
  induction xs as [|x xs IH]; intros H b b' Hb; cbn [foldM].
  - intros E. inversion E. subst. exact Hb.
  - destruct (body b x) as [b1| |] eqn:E1; cbn [JS.bind]; try discriminate.
    apply IH.
    + intros b0 x0 b0' Hx. apply H. right. exact Hx.
    + apply (H b x b1); [left; reflexivity | exact Hb | exact E1].
Qed.

Lemma resampleWhile_extends (targetSpacing segmentLength : R)
    (previousPoint currentPoint : Point) (bound : nat) :
  forall accumulatedDistance result r a,
    resampleWhile Pt_lerp bound targetSpacing segmentLength previousPoint currentPoint
                  accumulatedDistance result = Ok (r, a) ->
    exists more, r = result ++ more.
Proof.
  induction bound as [|bound IH]; intros acc result r a; cbn [resampleWhile];
    destruct (acc >=? targetSpacing).
  - discriminate.
  - intros H. inversion H. exists []. rewrite app_nil_r. reflexivity.
  - intros H. apply IH in H. destruct H as [more ->].
    eexists. rewrite <- app_assoc. reflexivity.
  - intros H. inversion H. exists []. rewrite app_nil_r. reflexivity.
Qed.

Lemma nth_error_last {A : Type} (l : list A) (x : A) :
  nth_error (l ++ [x]) (List.length (l ++ [x]) - 1) = Some x.
Proof.
  rewrite length_app. cbn.
  replace (List.length l + 1 - 1)%nat with (List.length l) by lia.
  rewrite nth_error_app2 by lia. rewrite Nat.sub_diag. reflexivity.
Qed.

(** X26: [resampleStroke] returns a list of zero or one point as it is; with
    a target spacing of zero or less and two or more points its inner loop
    never ends; and whenever it returns, the resampled stroke begins with the
    first point and ends with the last point of the input, and has two points
    or more if the input has. *)
Theorem resampleStroke_keeps_the_ends_or_hangs :
  forall (o : StrokeProcessingOptions) (points : list Point),
    ((List.length points <= 1)%nat -> resampleStroke Pt_lerp o points = Ok points)
    /\ (targetSpacing o <= 0 ->
        (2 <= List.length points)%nat ->
        resampleStroke Pt_lerp o points = Diverges)
    /\ (forall result,
           resampleStroke Pt_lerp o points = Ok result ->
           hd_error result = hd_error points
           /\ nth_error result (List.length result - 1)
              = nth_error points (List.length points - 1)
           /\ ((2 <= List.length points)%nat -> (2 <= List.length result)%nat)).
Proof.
  intros o points. split; [|split].
  - intros H. destruct points as [|a [|b rest]]; cbn in *; try reflexivity; lia.
  - apply resampleStroke_never_ends_without_positive_spacing.
  - intros result H.
    destruct points as [|first [|second rest]].
    + cbn in H. inversion H. cbn. auto.
    + cbn in H. inversion H. cbn. split; [reflexivity|]. split; [reflexivity | lia].
    + unfold resampleStroke in H.
      set (points := first :: second :: rest) in *.
      match type of H with context [foldM ?body ?xs ?start] =>
        destruct (foldM body xs start) as [[resampled acc]| |] eqn:E;
          cbn [JS.bind] in H; try discriminate;
        pose proof (foldM_preserves body
                      (fun state => exists more, fst state = first :: more)
                      xs) as Hinv
      end.
      assert (Hres : exists more, resampled = first :: more).
      { apply (Hinv) with (b := ([first], 0)) (b' := (resampled, acc));
          [|exists []; reflexivity | exact E].
        intros [r0 a0] i [r1 a1] _ [more Hr0]. cbn [fst] in *. subst r0.
        destruct (get points (i - 1)) as [prev| |]; cbn [JS.bind]; try discriminate.
        destruct (get points i) as [cur| |]; cbn [JS.bind]; try discriminate.
        intros Hw. apply resampleWhile_extends in Hw. destruct Hw as [more' ->].
        exists (more ++ more'). reflexivity. }
      destruct Hres as [more ->].
      destruct (get_in_range points (List.length points - 1)) as [last [El Hn]];
        [cbn; lia|].
      rewrite El in H. cbn [JS.bind fst] in H. inversion H. subst result.
      split; [reflexivity|]. split.
      * rewrite Hn. apply (nth_error_last (first :: more) last).
      * intros _. cbn. rewrite length_app. cbn. lia.
Qed.

(** With numbers as reals the loop of [resampleStroke] ends for every
    positive spacing, and the hypothesis above is met. *)
Lemma resampleStroke_returns (o : StrokeProcessingOptions) (points : list Point) :
  0 < targetSpacing o -> exists result, resampleStroke Pt_lerp o points = Ok result.
Proof.
  intros Hpos. destruct points as [|first [|second rest]]; [eexists; reflexivity..|].
  unfold resampleStroke.
  set (points := first :: second :: rest).
  match goal with |- context [foldM ?body ?xs ?start] =>
    destruct (foldM_returns body xs) with (b := start) as [state E]
  end.
  - intros [result acc] i Hi. apply in_seq in Hi.
    destruct (get_in_range points (i - 1)) as [prev [Ep _]]; [lia|].
    destruct (get_in_range points i) as [cur [Ec _]]; [lia|].
    rewrite Ep, Ec. cbn.
    apply (resampleWhile_returns_on_its_bound Pt_lerp). exact Hpos.
  - rewrite E. cbn [JS.bind].
    destruct (get_in_range points (List.length points - 1)) as [last [El _]];
      [cbn; lia|].
    rewrite El. cbn. eexists. reflexivity.
Qed.

Lemma removeDuplicatePoints_fold (minDistance : R) (rest : list Point) :
  forall (kept : list Point) (lastPoint : Point),
    (forall i a b, nth_error (kept ++ [lastPoint]) i = Some a ->
                   nth_error (kept ++ [lastPoint]) (S i) = Some b ->
                   minDistance <= Vec2.distanceTo (position b) (position a)) ->
    exists kept' lastPoint',
      fold_left
        (fun (acc : list Point * Point) currentPoint =>
           let (result, lastPoint) := acc in
           let distance :=
             Vec2.distanceTo (position currentPoint) (position lastPoint) in
           if distance >=? minDistance
           then (result ++ [currentPoint], currentPoint)
           else acc)
        rest (kept ++ [lastPoint], lastPoint)
      = (kept' ++ [lastPoint'], lastPoint')
      /\ (exists more, kept' ++ [lastPoint'] = (kept ++ [lastPoint]) ++ more
                       /\ (forall p, In p more -> In p rest)
                       /\ (List.length more <= List.length rest)%nat)
      /\ (forall i a b, nth_error (kept' ++ [lastPoint']) i = Some a ->
                        nth_error (kept' ++ [lastPoint']) (S i) = Some b ->
                        minDistance <= Vec2.distanceTo (position b) (position a)).
Proof.
  induction rest as [|c rest IH]; intros kept lastPoint Hadj; cbn [fold_left].
  - exists kept, lastPoint. split; [reflexivity|]. split; [|exact Hadj].
    exists []. rewrite app_nil_r. split; [reflexivity|]. split; [tauto | cbn; lia].
  - unfold JS.geb.
    destruct (minDistance <=? Vec2.distanceTo (position c) (position lastPoint)) eqn:E.
    + apply leb_iff in E.
      destruct (IH (kept ++ [lastPoint]) c) as [kept' [last' [E' [[more [Hm [Hin Hlen]]] Hadj']]]].
      * intros i a b Ha Hb.
        destruct (Nat.lt_ge_cases (S i) (List.length (kept ++ [lastPoint]))) as [Hlt | Hge].
        -- rewrite nth_error_app1 in Ha by lia. rewrite nth_error_app1 in Hb by lia.
           apply (Hadj i a b Ha Hb).
        -- assert (Hi : S i = List.length (kept ++ [lastPoint])).
           { assert (Hs : nth_error ((kept ++ [lastPoint]) ++ [c]) (S i) <> None)
               by (rewrite Hb; discriminate).
             apply nth_error_Some in Hs. rewrite length_app in Hs. cbn in Hs. lia. }
           rewrite nth_error_app2 in Hb by lia. rewrite Hi, Nat.sub_diag in Hb.
           cbn in Hb. inversion Hb. subst b.
           rewrite nth_error_app1 in Ha by lia.
           assert (Ha' : nth_error (kept ++ [lastPoint]) i = Some lastPoint).
           { replace i with (List.length (kept ++ [lastPoint]) - 1)%nat by lia.
             apply nth_error_last. }
           rewrite Ha' in Ha. inversion Ha. subst a. exact E.
      * exists kept', last'. split; [exact E'|]. split; [|exact Hadj'].
        exists (c :: more). split; [rewrite Hm, <- app_assoc; reflexivity|].
        split; [|cbn; lia]. intros p [<- | Hp]; [left; reflexivity | right; auto].
    + destruct (IH kept lastPoint Hadj) as [kept' [last' [E' [[more [Hm [Hin Hlen]]] Hadj']]]].
      exists kept', last'. split; [exact E'|]. split; [|exact Hadj'].
      exists more. split; [exact Hm|]. split; [|cbn; lia]. intros p Hp. right. auto.
Qed.

(** X27: [removeDuplicatePoints] keeps the first point and a selection of
    the later ones, in their order, such that every kept point is at least
    half the target spacing away from the kept point before it. *)
Theorem removeDuplicatePoints_keeps_points_apart :
  forall (o : StrokeProcessingOptions) (points : list Point),
    hd_error (removeDuplicatePoints o points) = hd_error points
    /\ (List.length (removeDuplicatePoints o points) <= List.length points)%nat
    /\ (forall p, In p (removeDuplicatePoints o points) -> In p points)
    /\ (forall i a b,
           nth_error (removeDuplicatePoints o points) i = Some a ->
           nth_error (removeDuplicatePoints o points) (S i) = Some b ->
           targetSpacing o * 0.5 <= Vec2.distanceTo (position b) (position a)).
Proof.
  intros o points. unfold removeDuplicatePoints.
  destruct points as [|first rest].
  - cbn. repeat split; auto. intros i a b H. destruct i; discriminate.
  - destruct (removeDuplicatePoints_fold (targetSpacing o * 0.5) rest [] first)
      as [kept [last [E [[more [Hm [Hin Hlen]]] Hadj]]]].
    { intros i a b Ha Hb. destruct i as [|[|i]]; cbn in Hb; discriminate. }
    cbn [app] in E. rewrite E. cbn [fst]. cbn [app] in Hm.
    split; [rewrite Hm; reflexivity|].
    split; [rewrite Hm; cbn; lia|].
    split; [|exact Hadj].
    rewrite Hm. intros p [<- | Hp]; [left; reflexivity | right; auto].
Qed.

End StrokeProperties.

Section StrokeWitnesses.
Import StrokeProcessor.

Lemma resampleStroke_keeps_the_ends_or_hangs_witness :
  exists result,
    resampleStroke Sample.unit_lerp (options (new noOptions : @StrokeProcessor unit))
                   [Sample.point 0 1; Sample.point 30 2]
    = Ok result
    /\ hd_error result = Some (Sample.point 0 1)
    /\ nth_error result (List.length result - 1) = Some (Sample.point 30 2).
Proof.
  destruct (resampleStroke_returns Sample.unit_lerp (options (new noOptions : @StrokeProcessor unit))
              [Sample.point 0 1; Sample.point 30 2]) as [result E]; [cbn; lra|].
  exists result. split; [exact E|].
  destruct (resampleStroke_keeps_the_ends_or_hangs Sample.unit_lerp
              (options (new noOptions : @StrokeProcessor unit)) [Sample.point 0 1; Sample.point 30 2])
    as [_ [_ H]].
  destruct (H result E) as [H1 [H2 _]]. split; [exact H1 | exact H2].
Defined.

End StrokeWitnesses.

(** * The converter's filters and the merged corners *)

Section ConversionProperties.
Import StrokeToGeometry.

(** X28: the corner indices [mergeCornerDetection] returns are strictly
    ascending, so without repetition, and are exactly the indices that occur
    in one of the two lists. *)
Theorem mergeCornerDetection_is_the_sorted_union :
  forall strokeCorners detectedCorners : list nat,
    StronglySorted lt (mergeCornerDetection strokeCorners detectedCorners)
    /\ forall i, In i (mergeCornerDetection strokeCorners detectedCorners)
                 <-> In i strokeCorners \/ In i detectedCorners.
Proof.
  intros a b. unfold mergeCornerDetection, unique.
  destruct (unique_acc_spec (a ++ b) []) as [Hnd Hin].
  split; [apply sort_indices_sorted; exact Hnd|].
  intros i. rewrite In_sort_indices, Hin, in_app_iff. cbn. tauto.
Qed.

Lemma fitLine_points (o : ConversionOptions) (pts : list Vec2) (w w' : Segment.World)
    (fit : GeometryFitResult) :
  fitLine o pts w = (Ok (Some fit), w') -> points fit = pts.
Proof.
  unfold fitLine. destruct (List.length pts <? 2)%nat; [discriminate|].
  destruct (Segment.newLineSegment _ _ w). intros H. inversion H. reflexivity.
Qed.

Lemma fitArc_points (o : ConversionOptions) (pts : list Vec2) (w w' : Segment.World)
    (fit : GeometryFitResult) :
  fitArc o pts w = (Ok (Some fit), w') -> points fit = pts.
Proof.
  unfold fitArc. destruct (List.length pts <? 3)%nat; [discriminate|].
  destruct (Segment.fromThreePoints _ _ _ w) as [[[s|]| |] w1]; intros H;
    inversion H; reflexivity.
Qed.

Lemma fitCircle_points (o : ConversionOptions) (pts : list Vec2) (w w' : Segment.World)
    (fit : GeometryFitResult) :
  fitCircle o pts w = (Ok (Some fit), w') -> points fit = pts.
Proof.
  unfold fitCircle. destruct (List.length pts <? 5)%nat; [discriminate|].
  destruct (_ >? _); [discriminate|].
  destruct (fitCircleLeastSquares pts) as [[center radius]|]; [|discriminate].
  destruct (Segment.newArcSegment _ _ _ _ w) as [[s| |] w1]; intros H;
    inversion H; reflexivity.
Qed.

Lemma selectBestFit_In (results : list GeometryFitResult) (best : GeometryFitResult) :
  selectBestFit results = Ok best -> In best results.
Proof.
  destruct results as [|first [|second rest]]; cbn [selectBestFit]; intros H;
    inversion H; [left; reflexivity|].
  apply (best_of_fold (second :: rest) first).
Qed.

Lemma push_Forall (P : GeometryFitResult -> Prop) (results : list GeometryFitResult)
    (fit : option GeometryFitResult) :
  Forall P results -> (forall f, fit = Some f -> P f) -> Forall P (push results fit).
Proof.
  intros Hr Hf. destruct fit as [f|]; cbn; [|exact Hr].
  apply Forall_app. split; [exact Hr|]. constructor; [apply Hf; reflexivity | constructor].
Qed.

(** What [fitSegment] returns is a fit of the run it was given, and the run
    has two points or more and is not too short. *)
Lemma fitSegment_fits_its_run (o : ConversionOptions) (pts : list Vec2)
    (w w' : Segment.World) (fit : GeometryFitResult) :
  fitSegment o pts w = (Ok (Some fit), w') ->
  points fit = pts
  /\ (2 <= List.length pts)%nat
  /\ minSegmentLength o
     <= Vec2.distanceTo (pt pts 0) (pt pts (List.length pts - 1)).
Proof.
  unfold fitSegment.
  destruct (List.length pts <? 2)%nat eqn:Elen; [discriminate|].
  apply Nat.ltb_ge in Elen.
  destruct (isSegmentTooShort o pts) eqn:Eshort; [discriminate|].
  unfold isSegmentTooShort in Eshort.
  replace (List.length pts <? 2)%nat with false in Eshort
    by (symmetry; apply Nat.ltb_ge; exact Elen).
  apply ltb_false_iff in Eshort.
  unfold bindM.
  destruct (fitLine o pts w) as [[lineFit| |] w1] eqn:El; try discriminate.
  destruct ((if enableCircleDetection o && (5 <=? List.length pts)%nat
             then fitCircle o pts else ret None) w1) as [[circleFit| |] w2] eqn:Ec;
    try discriminate.
  destruct ((if (3 <=? List.length pts)%nat then fitArc o pts else ret None) w2)
    as [[arcFit| |] w3] eqn:Ea; try discriminate.
  assert (Hall : Forall (fun f => points f = pts)
                        (push (push (push [] lineFit) circleFit) arcFit)).
  { apply push_Forall; [apply push_Forall; [apply push_Forall; [constructor|]|]|].
    - intros f ->. apply (fitLine_points _ _ _ _ _ El).
    - intros f ->. destruct (enableCircleDetection o && (5 <=? List.length pts)%nat);
        [apply (fitCircle_points _ _ _ _ _ Ec) | discriminate].
    - intros f ->. destruct (3 <=? List.length pts)%nat;
        [apply (fitArc_points _ _ _ _ _ Ea) | discriminate]. }
  destruct (push (push (push [] lineFit) circleFit) arcFit) as [|f fs] eqn:Ep;
    [discriminate|].
  destruct (selectBestFit (f :: fs)) as [best| |] eqn:Eb; try discriminate.
  intros H. inversion H. subst best w'.
  apply selectBestFit_In in Eb.
  rewrite Forall_forall in Hall.
  split; [apply Hall; exact Eb|]. split; [exact Elen | exact Eshort].
Qed.

Lemma accept_Forall (P : GeometryFitResult -> Prop) (o : ConversionOptions)
    (results : list GeometryFitResult) (segmentResult : option GeometryFitResult) :
  Forall P results ->
  (forall fit, segmentResult = Some fit ->
               confidenceThreshold o <= confidence fit -> P fit) ->
  Forall P (accept o results segmentResult).
Proof.
  intros Hr Hf. destruct segmentResult as [fit|]; cbn; [|exact Hr].
  unfold JS.geb. destruct (confidenceThreshold o <=? confidence fit) eqn:E; [|exact Hr].
  apply leb_iff in E.
  apply Forall_app. split; [exact Hr|].
  constructor; [apply Hf; [reflexivity | exact E] | constructor].
Qed.

Lemma accept_length (o : ConversionOptions) (results : list GeometryFitResult)
    (segmentResult : option GeometryFitResult) :
  (List.length (accept o results segmentResult) <= S (List.length results))%nat.
Proof.
  destruct segmentResult as [fit|]; cbn; [|lia].
  destruct (_ >=? _); [rewrite length_app; cbn; lia | lia].
Qed.

Lemma slice_is_a_run {A : Type} (xs : list A) (from to : nat) :
  exists before after, xs = before ++ slice xs from to ++ after.
Proof.
  exists (firstn from xs), (skipn (to - from) (skipn from xs)).
  unfold slice. rewrite firstn_skipn, firstn_skipn. reflexivity.
Qed.

Lemma skipn_is_a_run {A : Type} (xs : list A) (from : nat) :
  exists before after, xs = before ++ skipn from xs ++ after.
Proof.
  exists (firstn from xs), []. rewrite app_nil_r, firstn_skipn. reflexivity.
Qed.

(** A fit the converter may return for a stroke of the points [pts]. *)
Lemma convertRuns_Forall (P : GeometryFitResult -> Prop) (o : ConversionOptions)
    (pts : list Vec2) :
  (forall run fit w w',
      (exists before after, pts = before ++ run ++ after) ->
      fitSegment o run w = (Ok (Some fit), w') ->
      confidenceThreshold o <= confidence fit -> P fit) ->
  forall corners segmentStart results w results' segmentStart' w',
    Forall P results ->
    convertRuns o pts corners segmentStart results w
    = (Ok (results', segmentStart'), w') ->
    Forall P results'
    /\ (List.length results' <= List.length results + List.length corners)%nat.
Proof.
  intros HP. induction corners as [|cornerIndex rest IH];
    intros segmentStart results w results' segmentStart' w' Hr; cbn [convertRuns].
  - intros H. inversion H. subst. split; [exact Hr | cbn; lia].
  - destruct (segmentStart <? cornerIndex)%nat.
    + unfold bindM at 1.
      destruct (fitSegment o (slice pts segmentStart (cornerIndex + 1)) w)
        as [[segmentResult| |] w1] eqn:Ef; try discriminate.
      intros H. apply IH in H.
      * destruct H as [H1 H2]. split; [exact H1|].
        pose proof (accept_length o results segmentResult). cbn [List.length]. lia.
      * apply accept_Forall; [exact Hr|]. intros fit -> Hc.
        apply (HP _ fit w w1 (slice_is_a_run pts segmentStart (cornerIndex + 1)) Ef Hc).
    + intros H. apply IH in H; [|exact Hr]. destruct H as [H1 H2].
      split; [exact H1 | cbn [List.length]; lia].
Qed.

(** The sample stroke of two points 30 apart is converted into one fit. *)
Lemma convertStroke_of_the_sample_stroke :
  exists fit w',
    convertStroke (new noOptions) Sample.stroke Sample.world = (Ok [fit], w').
Proof.
  unfold convertStroke.
  assert (Epos : map StrokeProcessor.position (StrokeProcessor.resampledPoints Sample.stroke)
                 = [Vec2.mk 0 0; Vec2.mk 30 0]) by reflexivity.
  rewrite Epos. cbn [List.length Nat.ltb Nat.leb].
  assert (Ecorners :
            mergeCornerDetection
              (StrokeProcessor.cornerIndices Sample.stroke)
              (CornerDetector.cornerIndices
                 (CornerDetector.detectCorners (cornerDetector (new noOptions))
                                               [Vec2.mk 0 0; Vec2.mk 30 0]))
            = []) by reflexivity.
  rewrite Ecorners. cbn [convertRuns]. unfold bindM at 1. unfold ret at 1.
  cbn [Nat.sub Nat.ltb Nat.leb skipn].
  assert (D : minSegmentLength (options (new noOptions))
              <= Vec2.distanceTo (Vec2.mk 0 0) (Vec2.mk 30 0)).
  { unfold Vec2.distanceTo, Vec2.length, Vec2.lengthSquared, Vec2.subtract. cbn.
    replace ((0 - 30) * (0 - 30) + (0 - 0) * (0 - 0)) with (30 * 30) by ring.
    rewrite sqrt_square; lra. }
  unfold bindM, fitSegment. cbn [List.length Nat.ltb Nat.leb].
  rewrite isSegmentTooShort_two_points.
  rewrite (proj2 (ltb_false_iff _ _) D).
  unfold bindM, fitLine, Segment.newLineSegment.
  cbn [List.length Nat.ltb Nat.leb pt at_ nth Nat.sub].
  destruct (Segment.generateId Segment.LINE Sample.world) as [id w1] eqn:Eid.
  rewrite calculateLineError_two_points.
  rewrite andb_false_r. unfold ret, push. cbn [app selectBestFit].
  unfold postProcessResults, accept. cbn [confidence].
  unfold calculateLinearity. cbn [List.length Nat.ltb Nat.leb].
  cbn [options new merge noOptions lineThreshold lineThreshold' confidenceThreshold
       confidenceThreshold' DEFAULT_CONVERSION_OPTIONS].
  unfold JS.gtb. rewrite (proj2 (ltb_false_iff 3 0)) by lra.
  unfold JS.geb. rewrite (proj2 (leb_iff 0.6 (1 * 1))) by lra.
  cbn [app]. eexists. eexists. reflexivity.
Qed.

(** X29: every fit that [convertStroke] returns has a confidence of at least
    [confidenceThreshold], and is the fit of a contiguous run of the
    stroke's resampled positions that has two points or more and whose first
    and last point are at least [minSegmentLength] apart; there are at most
    as many fits as merged corners plus one. *)
Theorem convertStroke_returns_only_fits_that_pass :
  forall {Pt : Type} (c : StrokeToGeometryConverter)
         (stroke : @StrokeProcessor.ProcessedStroke Pt)
         (w w' : Segment.World) (results : list GeometryFitResult),
    convertStroke c stroke w = (Ok results, w') ->
    let positions := map StrokeProcessor.position (StrokeProcessor.resampledPoints stroke) in
    Forall (fun fit =>
              confidenceThreshold (options c) <= confidence fit
              /\ (exists before after, positions = before ++ points fit ++ after)
              /\ (2 <= List.length (points fit))%nat
              /\ minSegmentLength (options c)
                 <= Vec2.distanceTo (pt (points fit) 0)
                                    (pt (points fit) (List.length (points fit) - 1)))
           results
    /\ (List.length results
        <= S (List.length
                (mergeCornerDetection
                   (StrokeProcessor.cornerIndices stroke)
                   (CornerDetector.cornerIndices
                      (CornerDetector.detectCorners (cornerDetector c) positions)))))%nat.
Proof.
  intros Pt c stroke w w' results H positions.
  unfold convertStroke in H. fold positions in H.
  destruct (List.length positions <? 2)%nat.
  { inversion H. split; [constructor | cbn; lia]. }
  set (P := fun fit : GeometryFitResult =>
              confidenceThreshold (options c) <= confidence fit
              /\ (exists before after, positions = before ++ points fit ++ after)
              /\ (2 <= List.length (points fit))%nat
              /\ minSegmentLength (options c)
                 <= Vec2.distanceTo (pt (points fit) 0)
                                    (pt (points fit) (List.length (points fit) - 1))).
  assert (HP : forall run fit w0 w1,
             (exists before after, positions = before ++ run ++ after) ->
             fitSegment (options c) run w0 = (Ok (Some fit), w1) ->
             confidenceThreshold (options c) <= confidence fit -> P fit).
  { intros run fit w0 w1 Hrun Hfit Hc.
    destruct (fitSegment_fits_its_run _ _ _ _ _ Hfit) as [Hp [Hl Hd]].
    unfold P. rewrite Hp. auto. }
  unfold bindM at 1 in H.
  match type of H with context [convertRuns ?o ?p ?cs 0%nat [] w] =>
    destruct (convertRuns o p cs 0%nat [] w) as [[[results0 segmentStart]| |] w0] eqn:Eruns;
      try discriminate;
    destruct (convertRuns_Forall P o p HP cs 0%nat [] w results0 segmentStart w0
                (Forall_nil _) Eruns) as [Hall Hlen]
  end.
  cbn [List.length Nat.add] in Hlen.
  destruct (segmentStart <? List.length positions - 1)%nat.
  - unfold bindM in H.
    destruct (fitSegment (options c) (skipn segmentStart positions) w0)
      as [[segmentResult| |] w1] eqn:Ef; try discriminate.
    inversion H. subst. unfold postProcessResults. split.
    + apply accept_Forall; [exact Hall|]. intros fit -> Hc.
      apply (HP _ fit w0 w' (skipn_is_a_run positions segmentStart) Ef Hc).
    + pose proof (accept_length (options c) results0 segmentResult). lia.
  - inversion H. subst. unfold postProcessResults. split; [exact Hall | lia].
Qed.

Lemma convertStroke_returns_only_fits_that_pass_witness :
  exists fit w',
    convertStroke (new noOptions) Sample.stroke Sample.world = (Ok [fit], w')
    /\ confidenceThreshold (options (new noOptions)) <= confidence fit
    /\ (2 <= List.length (points fit))%nat.
Proof.
  destruct convertStroke_of_the_sample_stroke as [fit [w' E]].
  exists fit, w'. split; [exact E|].
  destruct (convertStroke_returns_only_fits_that_pass
              (new noOptions) Sample.stroke Sample.world w' [fit] E) as [Hall _].
  inversion Hall as [|f fs [Hc [_ [Hl _]]] _]. split; [exact Hc | exact Hl].
Defined.

End ConversionProperties.

(** * The gesture recognizer's records *)

Section RecognizerInvariants.
Import GestureRecognizer.
Context {Pt : Type}.
Local Abbreviation PointerState := (@Pointer.PointerState Pt).
Local Abbreviation Recognizer := (@GestureRecognizer Pt).
Local Abbreviation Gesture := (@RecognizedGesture Pt).

Ltac by_cases :=
  repeat match goal with
         | |- context [match ?x with _ => _ end] => destruct x
         end;
  cbn; auto.

Lemma recognizeTap_keeps_records (pointers : list PointerState) (now : R) :
  keeps_records (fun g => recognizeTap g pointers now).
Proof. intros g. unfold recognizeTap, clearTapStart. by_cases. Qed.

Lemma recognizeLongPress_keeps_records (pointers : list PointerState) (now : R) :
  keeps_records (fun g => recognizeLongPress g pointers now).
Proof. intros g. unfold recognizeLongPress, clearTapStart. by_cases. Qed.

Lemma recognizeSwipe_keeps_records (pointers : list PointerState) (now : R) :
  keeps_records (fun g => recognizeSwipe g pointers now).
Proof. intros g. unfold recognizeSwipe, clearTapStart. by_cases. Qed.

Lemma recognizePan_keeps_records (pointers : list PointerState) (now : R) :
  keeps_records (fun g => recognizePan g pointers now).
Proof. intros g. unfold recognizePan. by_cases. Qed.

Lemma recognizeZoom_keeps_records (pointers : list PointerState) (now : R) :
  keeps_records (fun g => recognizeZoom g pointers now).
Proof. intros g. unfold recognizeZoom. by_cases. Qed.

Lemma recognizeRotation_keeps_records (pointers : list PointerState) (now : R) :
  keeps_records (fun g => recognizeRotation g pointers now).
Proof. intros g. unfold recognizeRotation. by_cases. Qed.

Lemma recognizeUndo_keeps_records (pointers : list PointerState) (now : R) :
  keeps_records (fun g => recognizeUndo g pointers now).
Proof. intros g. unfold recognizeUndo. by_cases. Qed.

Lemma consistent_ext (g g' : Recognizer) :
  gestureHistory g' = gestureHistory g ->
  activeGestures g' = activeGestures g ->
  consistent g -> consistent g'.
Proof. unfold consistent. intros -> ->. auto. Qed.

(** Every gesture [andThen] has collected so far is of one of the given
    types; a step adds a gesture of its own type. *)
Lemma andThen_keeps_records (step : Recognizer -> @Recognition Pt)
    (acc : Result (list Gesture) * Recognizer) :
  keeps_records step ->
  gestureHistory (snd (andThen step acc)) = gestureHistory (snd acc)
  /\ activeGestures (snd (andThen step acc)) = activeGestures (snd acc).
Proof.
  intros Hk. unfold andThen. destruct acc as [[recognized| |] g]; cbn [snd]; auto.
  specialize (Hk g). destruct (step g) as [[[gesture|]| |] g']; exact Hk.
Qed.

Lemma store_keyed (active : list (GestureType * Gesture)) (gesture : Gesture) :
  Forall (fun entry => fst entry = type (snd entry)) active ->
  Forall (fun entry => fst entry = type (snd entry)) (store active (type gesture) gesture).
Proof.
  induction 1 as [|[k v] rest Hkv Hrest IH]; cbn.
  - constructor; [reflexivity | constructor].
  - destruct (GestureType_eqb k (type gesture)).
    + constructor; [reflexivity | exact Hrest].
    + constructor; [exact Hkv | exact IH].
Qed.

Lemma consistent_record (g : Recognizer) (gesture : Gesture) :
  consistent g -> consistent (record g gesture).
Proof.
  intros [Hlen [Hfin Hkey]]. unfold record.
  destruct (isFinished (phase gesture)) eqn:E.
  - unfold consistent, addToHistory. cbn -[Nat.ltb].
    split; [|split].
    + destruct (100 <? List.length (gestureHistory g ++ [gesture]))%nat eqn:El.
      * destruct (gestureHistory g) as [|h hs]; cbn in *; [lia|].
        rewrite length_app in *. cbn in *. lia.
      * apply Nat.ltb_ge in El. exact El.
    + assert (Hall : Forall (fun x : Gesture => isFinished (phase x) = true)
                            (gestureHistory g ++ [gesture])).
      { apply Forall_app. split; [exact Hfin|]. constructor; [exact E | constructor]. }
      destruct (100 <? List.length (gestureHistory g ++ [gesture]))%nat; [|exact Hall].
      destruct (gestureHistory g ++ [gesture]) as [|h hs]; [constructor|].
      inversion Hall. assumption.
    + apply store_keyed. exact Hkey.
  - unfold consistent. cbn. split; [exact Hlen|]. split; [exact Hfin|].
    apply store_keyed. exact Hkey.
Qed.

Lemma consistent_fold_record (recognized : list Gesture) :
  forall g : Recognizer, consistent g -> consistent (fold_left record recognized g).
Proof.
  induction recognized as [|x rest IH]; intros g Hg; cbn [fold_left]; [exact Hg|].
  apply IH. apply consistent_record. exact Hg.
Qed.

Lemma consistent_cleanup (g : Recognizer) :
  consistent g -> consistent (cleanupFinishedGestures g).
Proof.
  intros [Hlen [Hfin Hkey]]. unfold consistent, cleanupFinishedGestures. cbn.
  split; [exact Hlen|]. split; [exact Hfin|].
  rewrite Forall_forall in *. intros entry Hin. apply filter_In in Hin.
  apply Hkey. tauto.
Qed.

Lemma consistent_recognizeGestures (g : Recognizer) (pointers : list PointerState)
    (touchMode : TouchState.TouchMode) (now : R) :
  consistent g -> consistent (snd (recognizeGestures g pointers touchMode now)).
Proof.
  intros Hg. apply consistent_cleanup in Hg. unfold recognizeGestures.
  set (g0 := cleanupFinishedGestures g) in *.
  match goal with |- context [match ?recognition with (_, _) => _ end] =>
    assert (Hk : gestureHistory (snd recognition) = gestureHistory g0
                 /\ activeGestures (snd recognition) = activeGestures g0);
      [|destruct recognition as [[recognized| |] g1]; cbn [snd] in *;
        [apply consistent_fold_record|idtac|idtac];
        apply (consistent_ext g0); tauto]
  end.
  destruct touchMode; cbn [snd]; auto.
  - destruct (List.length pointers =? 1)%nat; cbn [snd]; auto.
    destruct (andThen_keeps_records
                (fun g => recognizeSwipe g pointers now)
                (andThen (fun g => recognizeLongPress g pointers now)
                   (andThen (fun g => recognizeTap g pointers now) (Ok [], g0)))
                (recognizeSwipe_keeps_records pointers now)) as [H1 H2].
    destruct (andThen_keeps_records
                (fun g => recognizeLongPress g pointers now)
                (andThen (fun g => recognizeTap g pointers now) (Ok [], g0))
                (recognizeLongPress_keeps_records pointers now)) as [H3 H4].
    destruct (andThen_keeps_records
                (fun g => recognizeTap g pointers now) (Ok [], g0)
                (recognizeTap_keeps_records pointers now)) as [H5 H6].
    cbn [snd] in H5, H6. split; congruence.
  - destruct (List.length pointers =? 2)%nat; cbn [snd]; auto.
    destruct (andThen_keeps_records
                (fun g => recognizeRotation g pointers now)
                (andThen (fun g => recognizeZoom g pointers now)
                   (andThen (fun g => recognizePan g pointers now) (Ok [], g0)))
                (recognizeRotation_keeps_records pointers now)) as [H1 H2].
    destruct (andThen_keeps_records
                (fun g => recognizeZoom g pointers now)
                (andThen (fun g => recognizePan g pointers now) (Ok [], g0))
                (recognizeZoom_keeps_records pointers now)) as [H3 H4].
    destruct (andThen_keeps_records
                (fun g => recognizePan g pointers now) (Ok [], g0)
                (recognizePan_keeps_records pointers now)) as [H5 H6].
    cbn [snd] in H5, H6. split; congruence.
  - destruct (3 <=? List.length pointers)%nat; cbn [snd]; auto.
    destruct (andThen_keeps_records
                (fun g => recognizeUndo g pointers now) (Ok [], g0)
                (recognizeUndo_keeps_records pointers now)) as [H5 H6].
    cbn [snd] in H5, H6. split; congruence.
Qed.

Lemma consistent_perform (g : Recognizer) (c : Call) :
  consistent g -> consistent (perform g c).
Proof.
  intros Hg. destruct c as [pointers touchMode now | newOptions |]; cbn [perform].
  - apply consistent_recognizeGestures. exact Hg.
  - apply (consistent_ext g); [reflexivity | reflexivity | exact Hg].
  - destruct Hg as [Hlen [Hfin _]]. unfold consistent, reset. cbn. auto.
Qed.

(** X30: whatever calls of [recognizeGestures], [updateOptions] and [reset]
    a recognizer has served since it was constructed, its history holds at
    most 100 gestures, every gesture in the history has phase ENDED or
    CANCELLED, and every active gesture is stored under its own type. *)
Theorem recognizer_history_is_bounded_and_finished :
  forall (given : PartialOptions) (calls : list (@Call Pt)),
    (List.length (gestureHistory (fold_left perform calls (new given))) <= 100)%nat
    /\ Forall (fun gesture => phase gesture = ENDED \/ phase gesture = CANCELLED)
              (gestureHistory (fold_left perform calls (new given)))
    /\ Forall (fun entry => fst entry = type (snd entry))
              (activeGestures (fold_left perform calls (new given))).
Proof.
  intros given calls.
  assert (H : consistent (fold_left perform calls (new given))).
  { assert (Hnew : consistent (new given : Recognizer)).
    { unfold consistent. cbn. split; [lia|]. split; constructor. }
    revert Hnew. generalize (new given : Recognizer).
    induction calls as [|c rest IH]; intros g Hg; cbn [fold_left]; [exact Hg|].
    apply IH. apply consistent_perform. exact Hg. }
  destruct H as [Hlen [Hfin Hkey]]. split; [exact Hlen|]. split; [|exact Hkey].
  rewrite Forall_forall in *. intros gesture Hin. specialize (Hfin gesture Hin).
  destruct (phase gesture); cbn in Hfin; try discriminate; auto.
Qed.

Ltac recognized :=
  repeat match goal with
         | |- context [match ?x with _ => _ end] => destruct x
         end;
  intros E; inversion E; subst; cbn; auto.

Lemma recognizeTap_type (g g' : Recognizer) (held : list PointerState) (now : R)
    (gesture : Gesture) :
  recognizeTap g held now = (Ok (Some gesture), g') ->
  type gesture = TAP /\ pointers gesture = held /\ timestamp gesture = now.
Proof. unfold recognizeTap, clearTapStart, typeError. recognized. Qed.

Lemma recognizeLongPress_type (g g' : Recognizer) (held : list PointerState) (now : R)
    (gesture : Gesture) :
  recognizeLongPress g held now = (Ok (Some gesture), g') ->
  type gesture = LONG_PRESS /\ pointers gesture = held /\ timestamp gesture = now.
Proof. unfold recognizeLongPress, clearTapStart. recognized. Qed.

Lemma recognizeSwipe_type (g g' : Recognizer) (held : list PointerState) (now : R)
    (gesture : Gesture) :
  recognizeSwipe g held now = (Ok (Some gesture), g') ->
  type gesture = SWIPE /\ pointers gesture = held /\ timestamp gesture = now.
Proof. unfold recognizeSwipe, clearTapStart. recognized. Qed.

Lemma recognizePan_type (g g' : Recognizer) (held : list PointerState) (now : R)
    (gesture : Gesture) :
  recognizePan g held now = (Ok (Some gesture), g') ->
  type gesture = PAN /\ pointers gesture = held /\ timestamp gesture = now.
Proof. unfold recognizePan. recognized. Qed.

Lemma recognizeZoom_type (g g' : Recognizer) (held : list PointerState) (now : R)
    (gesture : Gesture) :
  recognizeZoom g held now = (Ok (Some gesture), g') ->
  type gesture = ZOOM /\ pointers gesture = held /\ timestamp gesture = now.
Proof. unfold recognizeZoom. recognized. Qed.

Lemma recognizeRotation_type (g g' : Recognizer) (held : list PointerState) (now : R)
    (gesture : Gesture) :
  recognizeRotation g held now = (Ok (Some gesture), g') ->
  type gesture = ROTATE /\ pointers gesture = held /\ timestamp gesture = now.
Proof. unfold recognizeRotation. recognized. Qed.

Lemma recognizeUndo_type (g g' : Recognizer) (held : list PointerState) (now : R)
    (gesture : Gesture) :
  recognizeUndo g held now = (Ok (Some gesture), g') ->
  type gesture = UNDO /\ pointers gesture = held /\ timestamp gesture = now.
Proof. unfold recognizeUndo. recognized. Qed.

(** What [andThen] has collected: the gestures collected before, then at
    most one of the step. *)
Lemma andThen_collects (P : Gesture -> Prop) (n : nat)
    (step : Recognizer -> @Recognition Pt)
    (acc : Result (list Gesture) * Recognizer) :
  (forall g gesture g', step g = (Ok (Some gesture), g') -> P gesture) ->
  (forall collected, fst acc = Ok collected ->
                     Forall P collected /\ (List.length collected <= n)%nat) ->
  forall collected,
    fst (andThen step acc) = Ok collected ->
    Forall P collected /\ (List.length collected <= S n)%nat.
Proof.
  intros Hstep Hacc collected. unfold andThen.
  destruct acc as [[before| |] g]; cbn [fst] in *; try discriminate.
  destruct (Hacc before eq_refl) as [Hall Hlen].
  destruct (step g) as [[[gesture|]| |] g'] eqn:E; cbn [fst]; intros H;
    inversion H; subst.
  - split; [|rewrite length_app; cbn; lia].
    apply Forall_app. split; [exact Hall|].
    constructor; [apply (Hstep g gesture g' E) | constructor].
  - split; [exact Hall | lia].
Qed.

(** X34: the gestures one call of [recognizeGestures] returns are at most
    three, each carries the pointers and the time of the call, and each is of
    a type of the touch mode and pointer count of the call: tap, long press
    or swipe in drawing mode with one pointer; pan, zoom or rotate in
    pan-zoom mode with two pointers; undo in undo mode with three or more
    pointers; in every other case none is returned. *)
Theorem recognizeGestures_returns_gestures_of_the_mode :
  forall (g : Recognizer) (held : list PointerState)
         (touchMode : TouchState.TouchMode) (now : R) (recognized : list Gesture),
    fst (recognizeGestures g held touchMode now) = Ok recognized ->
    (List.length recognized <= 3)%nat
    /\ Forall
         (fun gesture =>
            pointers gesture = held
            /\ timestamp gesture = now
            /\ match touchMode with
               | TouchState.DRAWING =>
                   List.length held = 1%nat
                   /\ (type gesture = TAP \/ type gesture = LONG_PRESS
                       \/ type gesture = SWIPE)
               | TouchState.PAN_ZOOM =>
                   List.length held = 2%nat
                   /\ (type gesture = PAN \/ type gesture = ZOOM
                       \/ type gesture = ROTATE)
               | TouchState.UNDO =>
                   (3 <= List.length held)%nat /\ type gesture = UNDO
               | _ => False
               end)
         recognized.
Proof.
  intros g held touchMode now recognized. unfold recognizeGestures.
  set (g0 := cleanupFinishedGestures g).
  set (P := fun gesture : Gesture =>
              pointers gesture = held
              /\ timestamp gesture = now
              /\ match touchMode with
                 | TouchState.DRAWING =>
                     List.length held = 1%nat
                     /\ (type gesture = TAP \/ type gesture = LONG_PRESS
                         \/ type gesture = SWIPE)
                 | TouchState.PAN_ZOOM =>
                     List.length held = 2%nat
                     /\ (type gesture = PAN \/ type gesture = ZOOM
                         \/ type gesture = ROTATE)
                 | TouchState.UNDO =>
                     (3 <= List.length held)%nat /\ type gesture = UNDO
                 | _ => False
                 end).
  assert (Hnone : forall collected : list Gesture,
             fst (Ok [] : Result (list Gesture), g0) = Ok collected ->
             Forall P collected /\ (List.length collected <= 0)%nat).
  { intros collected H. inversion H. split; [constructor | cbn; lia]. }
  assert (Hfinal : forall recognition : Result (list Gesture) * Recognizer,
             (forall collected, fst recognition = Ok collected ->
                                Forall P collected /\ (List.length collected <= 3)%nat) ->
             fst (match recognition with
                  | (Ok recognizedGestures, g1) =>
                      (Ok recognizedGestures, fold_left record recognizedGestures g1)
                  | failed => failed
                  end) = Ok recognized ->
             (List.length recognized <= 3)%nat /\ Forall P recognized).
  { intros [[collected| |] g1] Hr; cbn [fst]; intros H; try discriminate.
    destruct (Hr recognized H). auto. }
  apply Hfinal. clear Hfinal.
  destruct touchMode.
  - intros collected H. destruct (Hnone collected H). split; [assumption | lia].
  - destruct (List.length held =? 1)%nat eqn:El.
    + apply Nat.eqb_eq in El.
      apply (andThen_collects P 2); [|apply (andThen_collects P 1);
                                       [|apply (andThen_collects P 0); [|exact Hnone]]].
      * intros g1 gesture g' E. apply recognizeSwipe_type in E. unfold P. tauto.
      * intros g1 gesture g' E. apply recognizeLongPress_type in E. unfold P. tauto.
      * intros g1 gesture g' E. apply recognizeTap_type in E. unfold P. tauto.
    + intros collected H. destruct (Hnone collected H). split; [assumption | lia].
  - destruct (List.length held =? 2)%nat eqn:El.
    + apply Nat.eqb_eq in El.
      apply (andThen_collects P 2); [|apply (andThen_collects P 1);
                                       [|apply (andThen_collects P 0); [|exact Hnone]]].
      * intros g1 gesture g' E. apply recognizeRotation_type in E. unfold P. tauto.
      * intros g1 gesture g' E. apply recognizeZoom_type in E. unfold P. tauto.
      * intros g1 gesture g' E. apply recognizePan_type in E. unfold P. tauto.
    + intros collected H. destruct (Hnone collected H). split; [assumption | lia].
  - destruct (3 <=? List.length held)%nat eqn:El.
    + apply Nat.leb_le in El.
      intros collected H.
      destruct (andThen_collects P 0 (fun g => recognizeUndo g held now) (Ok [], g0))
        with (collected := collected) as [Hall Hlen]; [| exact Hnone | exact H |].
      * intros g1 gesture g' E. apply recognizeUndo_type in E. unfold P. tauto.
      * split; [exact Hall | lia].
    + intros collected H. destruct (Hnone collected H). split; [assumption | lia].
  - intros collected H. destruct (Hnone collected H). split; [assumption | lia].
Qed.

End RecognizerInvariants.

Section RecognizerWitnesses.
Import GestureRecognizer.

Lemma recognizeGestures_returns_gestures_of_the_mode_witness :
  exists gesture,
    fst (recognizeGestures
           (snd (recognizeGestures (new noOptions) Sample.three_fingers
                                   TouchState.UNDO 1))
           Sample.three_fingers TouchState.UNDO 401)
    = Ok [gesture]
    /\ type gesture = UNDO
    /\ pointers gesture = Sample.three_fingers
    /\ timestamp gesture = 401.
Proof.
  destruct (recognizeGestures_undo_starts (new noOptions) Sample.three_fingers 1)
    as [g1 [E1 [Hu _]]]; [reflexivity | cbn; lia|].
  rewrite E1. cbn [snd].
  destruct (recognizeGestures_undo_tracks g1 Sample.three_fingers 1
              (undoHoldTime (options (new noOptions : @GestureRecognizer unit)))
              401 false Hu)
    as [gesture [g2 [E2 _]]]; [lra | cbn; lia|].
  exists gesture.
  assert (E : fst (recognizeGestures g1 Sample.three_fingers TouchState.UNDO 401)
              = Ok [gesture]) by (rewrite E2; reflexivity).
  split; [exact E|].
  destruct (recognizeGestures_returns_gestures_of_the_mode
              g1 Sample.three_fingers TouchState.UNDO 401 [gesture] E) as [_ Hall].
  inversion Hall as [|x xs [Hp [Ht [_ Hty]]] _]. auto.
Defined.

End RecognizerWitnesses.
